(** * pine/training.py: backpropagation training and its parallel driver

    A shallow embedding of [src/pine/training.py].

    - Python floats are IEEE-754 binary64 numbers: they are Rocq's primitive
      floats, and every arithmetic expression of the source is kept with the
      parenthesisation Python gives it.
    - A neuron's [weights] attribute is a Python list that [train] mutates in
      place while a second reference to it sits in [this_layer_weights]; weight
      lists therefore live in a heap and a neuron holds a location.  Nothing
      else is shared and mutated: a neuron's threshold is replaced, its
      [inputs] are only read, so neurons and input vectors are values.
    - Exceptions are values of [exn]; a computation returns [result A].  A
      computation that raises leaves no state behind: what it had already
      written is not observed by any caller in this file. *)

From Stdlib Require Import PrimFloat Uint63 ZArith String SpecFloat FloatOps FloatAxioms.
From stdpp Require Import base option list gmap.

Set Warnings "-inexact-float".
Set Default Proof Using "Type".

(** ** Exceptions and the error monad *)

(** The subscript expression that raised an [IndexError]. *)
Inductive site : Type :=
  | Layers0            (* network.layers[0]                    line 66  *)
  | TargetOutput       (* target_output_vector[j]              lines 96, 98 *)
  | NextWeights        (* weights[j]                           line 113 *)
  | NeuronWeights      (* neuron.weights[ij]                   line 136 *)
  | RhoEstimates       (* rho_estimates[j]                     line 149 *)
  | TrainedNetwork     (* trained_network.layers[l]...         lines 361, 366 *)
  | Elsewhere.         (* a subscript outside this file *)

Inductive exn : Type :=
  | IndexError (s : site)
  | OverflowError
  | ZeroDivisionError
  | UnboundLocalError
  | Blocked.           (* not an exception: results_queue.get() never returns *)

Inductive result (A : Type) : Type :=
  | Ok (a : A)
  | Raise (e : exn).
Arguments Ok {A} a.
Arguments Raise {A} e.

#[global] Instance result_ret : MRet result := λ A a, Ok a.
#[global] Instance result_bind : MBind result := λ A B f m,
  match m with
  | Ok a => f a
  | Raise e => Raise e
  end.

Definition is_Ok {A} (r : result A) : Prop := ∃ a, r = Ok a.

(** The outcome of a call into code outside this file: an [IndexError] it
    raises comes from a subscript there, not from one of this file's. *)
Definition outside {A} (r : result A) : result A :=
  match r with
  | Raise (IndexError _) => Raise (IndexError Elsewhere)
  | _ => r
  end.

(** [l[i]] for a non-negative [i]. *)
Definition index {A} (s : site) (l : list A) (i : nat) : result A :=
  match l !! i with
  | Some x => Ok x
  | None => Raise (IndexError s)
  end.

(** Python's float division raises on a zero divisor. *)
Definition py_div (a b : float) : result float :=
  if (b =? 0)%float then Raise ZeroDivisionError else Ok (a / b)%float.

(** ** Activation functions (lines 163-288) *)

(** The capabilities [train] and the forward pass use; [inverse] and [cost]
    (logarithms) take no part in training. *)
Record ActivationFunction : Type := mkActivationFunction {
  name : string;
  activate : float → result float;
  derivative : float → float;
}.

Section Activations.
(** [math.exp]: raises [OverflowError] when the result is out of range. *)
Variable math_exp : float → result float.

Definition Logistic_activate (input_value : float) : result float :=
  match math_exp (-1.0 * input_value)%float with
  | Ok e => py_div 1.0 (1 + e)
  | Raise OverflowError =>
      if (input_value <? 0)%float then Ok 0.0000000000001%float
      else Ok 0.9999999999999%float
  | Raise e => Raise e
  end.

Definition Logistic_derivative (fx : float) : float := (fx * (1.0 - fx))%float.

Definition LogisticActivationFunction : ActivationFunction :=
  {| name := "Logistic";
     activate := Logistic_activate;
     derivative := Logistic_derivative |}.

Definition Tanh_activate (input_value : float) : result float :=
  a ← math_exp input_value;
  b ← math_exp (- input_value)%float;
  c ← math_exp input_value;
  d ← math_exp (- input_value)%float;
  py_div (a - b) (c + d).

Definition Tanh_derivative (fx : float) : float := ((1.0 - fx) * (1.0 + fx))%float.

Definition TanhActivationFunction : ActivationFunction :=
  {| name := "Tanh";
     activate := Tanh_activate;
     derivative := Tanh_derivative |}.
End Activations.

Definition LinearActivationFunction : ActivationFunction :=
  {| name := "Linear";
     activate := λ input_value, Ok input_value;
     derivative := λ _, 1%float |}.

(** ** Data model *)

Definition loc := nat.

(** The heap of weight lists.  Every location holds a list: Python has no
    dangling reference, and a location never allocated reads as [[]]. *)
Abbreviation heap := (gmap loc (list float)).

Record Neuron : Type := mkNeuron {
  weights : loc;
  threshold : float;
  local_output : float;
  inputs : list float;
}.

Record Layer : Type := mkLayer {
  neurons : list Neuron;
  activation_function : ActivationFunction;
}.

Record Network : Type := mkNetwork {
  layers : list Layer;
}.

(** A network object together with the weight lists it points to. *)
Record world : Type := mkWorld {
  network : Network;
  store : heap;
}.

(** A training example: target output vector (index 0), input vector (index 1). *)
Abbreviation example := (list float * list float)%type.

Record Backpropagation : Type := mkBackpropagation {
  learning_rate : float;
  momentum_coef : float;
  iterations : option Z;      (* [None]: the attribute is not set yet *)
}.

(** Lines 12-23. *)
Definition Backpropagation__init__ (lr mc : float) : Backpropagation :=
  {| learning_rate := lr; momentum_coef := mc; iterations := None |}.

(** ** Backpropagation.train (lines 25-160) *)

Definition rho : float := 0.05%float.
Definition beta : float := 0.2%float.

(** Lines 110-113: [sum_value += weights[j] * next_delta] over
    [zip(next_layer_deltas, next_layer_weights)].  The accumulator holds
    references, so each weight is read from the heap as it is now. *)
Fixpoint sum_value_loop (h : heap) (j : nat) (zs : list (float * loc))
    (sum_value : float) : result float :=
  match zs with
  | [] => Ok sum_value
  | (next_delta, weights) :: zs' =>
      w ← index NextWeights (h !!! weights) j;
      sum_value_loop h j zs' (sum_value + w * next_delta)%float
  end.

(** Lines 91-115: the delta of the neuron at index [j]. *)
Definition compute_delta (isOutputLayer : bool) (act : ActivationFunction)
    (target_output_vector : list float)
    (next_layer_deltas : list float) (next_layer_weights : list loc)
    (h : heap) (j : nat) (neuron : Neuron) : result float :=
  if isOutputLayer then
    if String.eqb (name act) "Logistic" then
      t ← index TargetOutput target_output_vector j;
      Ok (local_output neuron - t)%float
    else
      t ← index TargetOutput target_output_vector j;
      Ok ((local_output neuron - t) * derivative act (local_output neuron))%float
  else
    sum_value ← sum_value_loop h j (zip next_layer_deltas next_layer_weights) 0.0%float;
    Ok (derivative act (local_output neuron) * sum_value)%float.

(** Lines 125-136: [neuron.weights[ij] -= learning_rate * gradient_ij] for
    [ij, input_ij] in [enumerate(neuron.inputs)], from index [ij] on. *)
Fixpoint update_weights (lr delta : float) (l : loc) (ij : nat)
    (ins : list float) (h : heap) : result heap :=
  match ins with
  | [] => Ok h
  | input_ij :: ins' =>
      let gradient_ij := (delta * input_ij)%float in
      w ← index NeuronWeights (h !!! l) ij;
      update_weights lr delta l (S ij) ins'
        (<[l := <[ij := (w - lr * gradient_ij)%float]> (h !!! l)]> h)
  end.

(** Lines 146-152: the threshold, and the sparsity estimate in unsupervised
    mode. *)
Definition update_threshold (lr delta : float) (unsupervised isOutputLayer : bool)
    (j : nat) (neuron : Neuron) (rho_estimates : list float)
    : result (float * list float) :=
  let gradient_0j := (delta * 1)%float in
  let threshold1 := (threshold neuron - lr * gradient_0j)%float in
  if unsupervised && negb isOutputLayer then
    r ← index RhoEstimates rho_estimates j;
    let r' := (0.999 * r + 0.001 * local_output neuron)%float in
    Ok ((threshold1 - lr * beta * (r' - rho))%float, <[j := r']> rho_estimates)
  else Ok (threshold1, rho_estimates).

(** What the loop over one layer's neurons has in hand. *)
Record layer_state : Type := mkLayerState {
  done_neurons : list Neuron;          (* the neurons already processed *)
  this_layer_deltas : list float;
  this_layer_weights : list loc;
  cur_store : heap;
  cur_rho : list float;
}.

(** Lines 88-152: the body of the loop for the neuron at index [j]. *)
Definition train_neuron (lr : float) (unsupervised isOutputLayer : bool)
    (act : ActivationFunction) (target_output_vector : list float)
    (next_layer_deltas : list float) (next_layer_weights : list loc)
    (j : nat) (neuron : Neuron) (s : layer_state) : result layer_state :=
  delta ← compute_delta isOutputLayer act target_output_vector
            next_layer_deltas next_layer_weights (cur_store s) j neuron;
  let deltas := this_layer_deltas s ++ [delta] in
  let wrefs := this_layer_weights s ++ [weights neuron] in
  h ← update_weights lr delta (weights neuron) 0 (inputs neuron) (cur_store s);
  '(thr, rho_estimates) ← update_threshold lr delta unsupervised isOutputLayer
                            j neuron (cur_rho s);
  Ok {| done_neurons := done_neurons s ++
          [{| weights := weights neuron; threshold := thr;
              local_output := local_output neuron; inputs := inputs neuron |}];
        this_layer_deltas := deltas;
        this_layer_weights := wrefs;
        cur_store := h;
        cur_rho := rho_estimates |}.

(** [for j, neuron in enumerate(layer.neurons)], from index [j] on. *)
Fixpoint train_neurons (lr : float) (unsupervised isOutputLayer : bool)
    (act : ActivationFunction) (target_output_vector : list float)
    (next_layer_deltas : list float) (next_layer_weights : list loc)
    (j : nat) (ns : list Neuron) (s : layer_state) : result layer_state :=
  match ns with
  | [] => Ok s
  | neuron :: ns' =>
      s' ← train_neuron lr unsupervised isOutputLayer act target_output_vector
             next_layer_deltas next_layer_weights j neuron s;
      train_neurons lr unsupervised isOutputLayer act target_output_vector
        next_layer_deltas next_layer_weights (S j) ns' s'
  end.

(** Lines 85-152 for one layer: fresh accumulators, then every neuron. *)
Definition train_layer (lr : float) (unsupervised isOutputLayer : bool)
    (target_output_vector : list float)
    (next_layer_deltas : list float) (next_layer_weights : list loc)
    (layer : Layer) (h : heap) (rho_estimates : list float) : result layer_state :=
  train_neurons lr unsupervised isOutputLayer (activation_function layer)
    target_output_vector next_layer_deltas next_layer_weights 0 (neurons layer)
    {| done_neurons := []; this_layer_deltas := []; this_layer_weights := [];
       cur_store := h; cur_rho := rho_estimates |}.

(** The variables of the loop over the layers (lines 81-83, 156-158). *)
Record pass_state : Type := mkPassState {
  done_layers : list Layer;            (* processed, in backward order *)
  next_layer_deltas : list float;
  next_layer_weights : list loc;
  isOutputLayer : bool;
  pass_store : heap;
  pass_rho : list float;
}.

(** Lines 85-158: the body of the loop over the layers. *)
Definition backward_layer (lr : float) (unsupervised : bool)
    (target_output_vector : list float) (layer : Layer) (p : pass_state)
    : result pass_state :=
  s ← train_layer lr unsupervised (isOutputLayer p) target_output_vector
        (next_layer_deltas p) (next_layer_weights p) layer (pass_store p) (pass_rho p);
  Ok {| done_layers := done_layers p ++
          [{| neurons := done_neurons s;
              activation_function := activation_function layer |}];
        next_layer_deltas := this_layer_deltas s;
        next_layer_weights := this_layer_weights s;
        isOutputLayer := false;
        pass_store := cur_store s;
        pass_rho := cur_rho s |}.

(** Line 84: [for layer in reversed(network.layers)], over the layers [ls]
    that are still to come. *)
Fixpoint backward_layers (lr : float) (unsupervised : bool)
    (target_output_vector : list float) (ls : list Layer) (p : pass_state)
    : result pass_state :=
  match ls with
  | [] => Ok p
  | layer :: ls' =>
      p' ← backward_layer lr unsupervised target_output_vector layer p;
      backward_layers lr unsupervised target_output_vector ls' p'
  end.

(** Lines 81-83: the loop variables before the first layer. *)
Definition pass_init (h : heap) (rho_estimates : list float) : pass_state :=
  {| done_layers := []; next_layer_deltas := []; next_layer_weights := [];
     isOutputLayer := true; pass_store := h; pass_rho := rho_estimates |}.

(** Lines 81-158: the backward pass over a network primed by the forward pass. *)
Definition backward_pass (lr : float) (unsupervised : bool)
    (target_output_vector : list float) (w : world) (rho_estimates : list float)
    : result (world * list float) :=
  p ← backward_layers lr unsupervised target_output_vector
        (reverse (layers (network w))) (pass_init (store w) rho_estimates);
  Ok ({| network := {| layers := reverse (done_layers p) |};
         store := pass_store p |}, pass_rho p).

Section Train.
(** [network.compute_network_output(input_vector)] belongs to the network
    class, which is outside this file: any transformer of the network and
    its weight lists that may raise. *)
Variable compute_network_output : world → list float → result world.

(** Lines 71-158: one training example. *)
Definition train_example (lr : float) (unsupervised : bool)
    (st : world * list float) (training_example : example)
    : result (world * list float) :=
  let target_output_vector := training_example.1 in
  let input_vector := training_example.2 in
  w ← outside (compute_network_output st.1 input_vector);
  backward_pass lr unsupervised target_output_vector w st.2.

(** Line 70: [for training_example in training_examples]. *)
Fixpoint train_examples (lr : float) (unsupervised : bool)
    (training_examples : list example) (st : world * list float)
    : result (world * list float) :=
  match training_examples with
  | [] => Ok st
  | training_example :: rest =>
      st' ← train_example lr unsupervised st training_example;
      train_examples lr unsupervised rest st'
  end.

(** Line 68: [for iteration_counter in range(iterations)], [n] passes. *)
Fixpoint train_iterations (lr : float) (unsupervised : bool)
    (training_examples : list example) (n : nat) (st : world * list float)
    : result (world * list float) :=
  match n with
  | O => Ok st
  | S n' =>
      st' ← train_examples lr unsupervised training_examples st;
      train_iterations lr unsupervised training_examples n' st'
  end.

(** Lines 65-67: the sparsity estimates, one per neuron of [layers[0]];
    in supervised mode the name is never bound and never read. *)
Definition init_rho_estimates (unsupervised : bool) (net : Network)
    : result (list float) :=
  if unsupervised then
    l0 ← index Layers0 (layers net) 0;
    Ok (replicate (length (neurons l0)) 0%float)
  else Ok [].

(** Line 160: the value of [iteration_counter] after the loop; the name is
    unbound when [range(iterations)] was empty. *)
Definition last_iteration_counter (iterations : Z) : result Z :=
  match Z.to_nat iterations with
  | O => Raise UnboundLocalError
  | S k => Ok (Z.of_nat k)
  end.

Definition train (self : Backpropagation) (w : world)
    (training_examples : list example) (iterations : Z) (unsupervised : bool)
    : result (Backpropagation * world) :=
  rho_estimates ← init_rho_estimates unsupervised (network w);
  '(w', _) ← train_iterations (learning_rate self) unsupervised training_examples
               (Z.to_nat iterations) (w, rho_estimates);
  iteration_counter ← last_iteration_counter iterations;
  Ok ({| learning_rate := learning_rate self;
         momentum_coef := momentum_coef self;
         iterations := Some iteration_counter |}, w').

(** One example in a run of [train].  The run is the example list repeated
    once per pass; it starts from [w0] with the sparsity estimates [rho0] and
    ends in [w'].  After the examples [pre], the example
    [(target, input_vector)] is reached: its forward pass leaves the network
    [w1], its backward pass finds the estimates [rho_k] and leaves the network
    [w2] and the estimates [rho2], from which the examples [post] follow. *)
Definition run_visits (self : Backpropagation) (w0 : world) (unsupervised : bool)
    (rho0 : list float) (pre : list example) (target input_vector : list float)
    (post : list example) (w' : world)
    (w1 : world) (rho_k : list float) (w2 : world) (rho2 : list float) : Prop :=
  init_rho_estimates unsupervised (network w0) = Ok rho0 ∧
  ∃ w_k rho_end,
    train_examples (learning_rate self) unsupervised pre (w0, rho0) = Ok (w_k, rho_k) ∧
    compute_network_output w_k input_vector = Ok w1 ∧
    backward_pass (learning_rate self) unsupervised target w1 rho_k = Ok (w2, rho2) ∧
    train_examples (learning_rate self) unsupervised post (w2, rho2) = Ok (w', rho_end).
End Train.


(** ** Closed forms the loops are compared with *)

(** [weight[ij] -= learning_rate * (delta * inputs[ij])] on every index that
    has an input; weights beyond the inputs are left alone. *)
Fixpoint gradient_step (lr delta : float) (ws ins : list float) : list float :=
  match ws, ins with
  | w :: ws', input_ij :: ins' =>
      (w - lr * (delta * input_ij))%float :: gradient_step lr delta ws' ins'
  | _, _ => ws
  end.

(** The neuron as the loop body leaves it: only the threshold changes. *)
Definition with_threshold (neuron : Neuron) (thr : float) : Neuron :=
  {| weights := weights neuron; threshold := thr;
     local_output := local_output neuron; inputs := inputs neuron |}.

#[global] Instance float_inhabited : Inhabited float := populate 0%float.

(** A sum of floats as the source accumulates it: from [0.0], left to right. *)
Definition float_sum (terms : list float) : float :=
  foldl (λ acc x, (acc + x)%float) 0.0%float terms.

(** Neuron [k]'s weight on connection [j], read from the heap [h]. *)
Definition weight_on (h : heap) (neuron : Neuron) (j : nat) : float :=
  (h !!! weights neuron) !!! j.

(** The terms [weight_k[j] * delta_k], [k] over the next layer. *)
Definition delta_terms (h : heap) (j : nat) (next_neurons : list Neuron)
    (next_deltas : list float) : list float :=
  zip_with (λ d n, (weight_on h n j * d)%float) next_deltas next_neurons.

(** ** parallel_train (lines 291-385) *)

(** [l[a:b]] for non-negative [a] and [b]. *)
Definition slice {A} (l : list A) (a b : nat) : list A := take (b - a) (drop a l).

(** How a slice reads an index [i] on a list of length [len]: a negative
    index counts from the end; the result is clipped to the list. *)
Definition slice_index (len i : Z) : Z :=
  if (i <? 0)%Z then Z.max (i + len) 0 else Z.min i len.

(** [l[a:b]] for any integers [a] and [b]. *)
Definition slice_Z {A} (l : list A) (a b : Z) : list A :=
  let len := Z.of_nat (length l) in
  slice l (Z.to_nat (slice_index len a)) (Z.to_nat (slice_index len b)).

(** A Python int as a float. *)
Definition float_of_nat (n : nat) : float :=
  PrimFloat.of_uint63 (Uint63.of_Z (Z.of_nat n)).

(** [trained_network.layers[l].neurons[j]] *)
Definition trained_neuron (tn : world) (l j : nat) : result Neuron :=
  layer ← index TrainedNetwork (layers (network tn)) l;
  index TrainedNetwork (neurons layer) j.

(** Lines 359-361. *)
Fixpoint weight_sum_loop (trained_networks : list world) (l j ij : nat)
    (weight_sum : float) : result float :=
  match trained_networks with
  | [] => Ok weight_sum
  | tn :: tns =>
      neuron ← trained_neuron tn l j;
      w ← index TrainedNetwork (store tn !!! weights neuron) ij;
      weight_sum_loop tns l j ij (weight_sum + w)%float
  end.

(** Lines 364-366. *)
Fixpoint threshold_sum_loop (trained_networks : list world) (l j : nat)
    (threshold_sum : float) : result float :=
  match trained_networks with
  | [] => Ok threshold_sum
  | tn :: tns =>
      neuron ← trained_neuron tn l j;
      threshold_sum_loop tns l j (threshold_sum + threshold neuron)%float
  end.

(** Lines 358-362: [for ij in range(len(neuron.weights))], [n] indices from
    [ij] on. *)
Fixpoint merge_weights (trained_networks : list world) (l j : nat) (ref : loc)
    (ij n : nat) (h : heap) : result heap :=
  match n with
  | O => Ok h
  | S n' =>
      weight_sum ← weight_sum_loop trained_networks l j ij 0.0%float;
      w ← index NeuronWeights (h !!! ref) ij;
      avg ← py_div (w + weight_sum) (float_of_nat (length trained_networks + 1));
      merge_weights trained_networks l j ref (S ij) n' (<[ref := <[ij := avg]> (h !!! ref)]> h)
  end.

(** Lines 356-367: the body of the loop over a layer's neurons. *)
Definition merge_neuron (trained_networks : list world) (l j : nat)
    (neuron : Neuron) (h : heap) : result (Neuron * heap) :=
  h' ← merge_weights trained_networks l j (weights neuron) 0
         (length (h !!! weights neuron)) h;
  threshold_sum ← threshold_sum_loop trained_networks l j 0.0%float;
  thr ← py_div (threshold neuron + threshold_sum)
          (float_of_nat (length trained_networks + 1));
  Ok (with_threshold neuron thr, h').

Fixpoint merge_neurons (trained_networks : list world) (l j : nat)
    (ns : list Neuron) (h : heap) : result (list Neuron * heap) :=
  match ns with
  | [] => Ok ([], h)
  | neuron :: ns' =>
      '(neuron', h1) ← merge_neuron trained_networks l j neuron h;
      '(rest, h2) ← merge_neurons trained_networks l (S j) ns' h1;
      Ok (neuron' :: rest, h2)
  end.

Fixpoint merge_layers (trained_networks : list world) (l : nat)
    (ls : list Layer) (h : heap) : result (list Layer * heap) :=
  match ls with
  | [] => Ok ([], h)
  | layer :: ls' =>
      '(ns, h1) ← merge_neurons trained_networks l 0 (neurons layer) h;
      '(rest, h2) ← merge_layers trained_networks (S l) ls' h1;
      Ok ({| neurons := ns; activation_function := activation_function layer |} :: rest, h2)
  end.

(** Lines 355-367: the trained networks averaged into the master network. *)
Definition merge (w : world) (trained_networks : list world) : result world :=
  '(ls, h) ← merge_layers trained_networks 0 (layers (network w)) (store w);
  Ok {| network := {| layers := ls |}; store := h |}.

Section ParallelTrain.
Variable compute_network_output : world → list float → result world.
(** [multiprocessing.cpu_count()] *)
Variable cpu_count : nat.
(** The order in which the networks that were put on the queue come off it;
    it is the scheduler's choice, some rearrangement of them. *)
Variable arrival : list world → list world.

(** Lines 370-385.  The queue is the list of the networks put on it. *)
Definition _parallel_train_worker (w : world) (trainer : Backpropagation)
    (training_examples : list example) (iterations : Z)
    (results_queue : list world) (return_results_on_queue unsupervised : bool)
    : result (Backpropagation * world * list world) :=
  '(trainer', w') ← train compute_network_output trainer w training_examples
                      iterations unsupervised;
  if return_results_on_queue then Ok (trainer', w', results_queue ++ [w'])
  else Ok (trainer', w', results_queue).

(** Lines 321-329: a started process works on its own copy of the arguments
    it was created with, so nothing it does reaches the caller except the
    network it puts on the queue; a process whose [train] raises puts nothing.
    The processes are independent of each other; the networks are collected
    here in the order of the jobs, and [arrival] orders them on the queue. *)
Fixpoint start_jobs (w : world) (trainer : Backpropagation)
    (chunks : list (list example)) (iterations : Z) (unsupervised : bool)
    (results_queue : list world) : list world :=
  match chunks with
  | [] => results_queue
  | chunk :: chunks' =>
      let results_queue' :=
        match _parallel_train_worker w trainer chunk iterations results_queue
                true unsupervised with
        | Ok (_, _, q) => q
        | Raise _ => results_queue
        end in
      start_jobs w trainer chunks' iterations unsupervised results_queue'
  end.

(** Line 348: [num_processes-1] blocking [get()]s. *)
Definition get_results (results_queue : list world) (n : nat) : result (list world) :=
  if length results_queue <? n then Raise Blocked
  else Ok (take n (arrival results_queue)).

(** Lines 299-306: the number of processes, the caller's among them.  The
    argument is any integer; nothing keeps it positive. *)
Definition effective_processes (len : nat) (num_processes : option Z) : Z :=
  let num_processes := default (Z.of_nat cpu_count) num_processes in
  if (Z.of_nat len <? num_processes)%Z then Z.of_nat len else num_processes.

(** Lines 299-348: everything before the merge.  Returns the trainer and the
    master network as the merge finds them, and the trained networks.
    [int(len(training_examples)/num_processes)] is the quotient rounded
    towards zero (the float division is exact on lengths below 2^53);
    [range(num_processes-1)] is empty when [num_processes] is below 2. *)
Definition parallel_train_workers (w : world) (trainer : Backpropagation)
    (training_examples : list example) (iterations : Z) (unsupervised : bool)
    (num_processes : option Z) : result (Backpropagation * world * list world) :=
  let num_processes := effective_processes (length training_examples) num_processes in
  chunk_amount ← (if (num_processes =? 0)%Z then Raise ZeroDivisionError
                  else Ok (Z.quot (Z.of_nat (length training_examples)) num_processes));
  let chunks :=
    (λ process_num : nat,
       slice_Z training_examples (Z.of_nat process_num * chunk_amount)
         (Z.of_nat process_num * chunk_amount + chunk_amount))
      <$> seq 0 (Z.to_nat (num_processes - 1)) in
  let results_queue := start_jobs w trainer chunks iterations unsupervised [] in
  let start_index := ((num_processes - 1) * chunk_amount)%Z in
  '(trainer', w1, results_queue) ←
    _parallel_train_worker w trainer
      (slice_Z training_examples start_index (start_index + chunk_amount))
      iterations results_queue false unsupervised;
  trained_networks ← get_results results_queue (Z.to_nat (num_processes - 1));
  Ok (trainer', w1, trained_networks).

Definition parallel_train (w : world) (trainer : Backpropagation)
    (training_examples : list example) (iterations : Z) (unsupervised : bool)
    (num_processes : option Z) : result (Backpropagation * world) :=
  '(trainer', w1, trained_networks) ←
    parallel_train_workers w trainer training_examples iterations unsupervised
      num_processes;
  w' ← merge w1 trained_networks;
  Ok (trainer', w').
End ParallelTrain.

(** ** The collaborators outside this file, for closed examples

    The theorems below hold for every [math_exp] and every
    [compute_network_output]; the closed examples need one of each. *)

(** The partial sums of the exponential series: [n] more terms after [term],
    which is the term of index [k - 1]. *)
Fixpoint exp_terms (n : nat) (k y term acc : float) : float :=
  match n with
  | O => acc
  | S n' =>
      let term' := (term * y / k)%float in
      exp_terms n' (k + 1)%float y term' (acc + term')%float
  end.

(** A stand-in for [math.exp] with its range behaviour: [OverflowError] when
    the result of a finite argument is too large for a float, [0.0] when it is
    too small, the limits at the infinities.  In between it is the series at
    [x/1024] squared ten times, good to about twelve digits (the C library is
    good to the last one). *)
Definition exp_model (x : float) : result float :=
  if is_nan x then Ok nan
  else if is_infinity x then Ok (if (x <? 0)%float then 0%float else infinity)
  else
    let v := Nat.iter 10 (λ v, (v * v)%float) (exp_terms 24 1 (x / 1024) 1 1) in
    if is_infinity v then Raise OverflowError else Ok v.

Definition Logistic : ActivationFunction := LogisticActivationFunction exp_model.
Definition Tanh : ActivationFunction := TanhActivationFunction exp_model.
Definition Linear : ActivationFunction := LinearActivationFunction.

(** Modelled from the spec: [compute_network_output] of the network class,
    which is not part of this file.  The spec has it "feed the input vector
    through the network, populating every neuron's [local_output] and
    [inputs]"; weights and thresholds are read, not written.  A neuron's
    output is the activation of its weighted inputs plus its threshold. *)
Definition compute_output (h : heap) (act : ActivationFunction)
    (input_vector : list float) (neuron : Neuron) : result Neuron :=
  let net_input :=
    foldl (λ acc '(i, w), (acc + i * w)%float) 0%float
      (zip input_vector (h !!! weights neuron)) in
  y ← activate act (net_input + threshold neuron)%float;
  Ok {| weights := weights neuron; threshold := threshold neuron;
        local_output := y; inputs := input_vector |}.

Fixpoint compute_outputs (h : heap) (act : ActivationFunction)
    (input_vector : list float) (ns : list Neuron) : result (list Neuron) :=
  match ns with
  | [] => Ok []
  | neuron :: ns' =>
      neuron' ← compute_output h act input_vector neuron;
      rest ← compute_outputs h act input_vector ns';
      Ok (neuron' :: rest)
  end.

Fixpoint forward_layers (h : heap) (input_vector : list float) (ls : list Layer)
    : result (list Layer) :=
  match ls with
  | [] => Ok []
  | layer :: ls' =>
      ns ← compute_outputs h (activation_function layer) input_vector (neurons layer);
      rest ← forward_layers h (local_output <$> ns) ls';
      Ok ({| neurons := ns; activation_function := activation_function layer |} :: rest)
  end.

Definition forward_pass (w : world) (input_vector : list float) : result world :=
  ls ← forward_layers (store w) input_vector (layers (network w));
  Ok {| network := {| layers := ls |}; store := store w |}.

(** ** Example networks *)

Definition fresh_neuron (ref : loc) (thr : float) : Neuron :=
  {| weights := ref; threshold := thr; local_output := 0; inputs := [] |}.

Definition trainer0 : Backpropagation := Backpropagation__init__ 0.5 0.

(** One neuron with one input. *)
Definition single (act : ActivationFunction) : world :=
  {| network := {| layers := [ {| neurons := [fresh_neuron 0 0];
                                  activation_function := act |} ] |};
     store := {[ 0 := [0.5%float] ]} |}.

Definition single_examples : list example := [ ([0%float], [1%float]) ].

(** Two inputs, a hidden layer of two neurons, one output neuron. *)
Definition two_layer (act : ActivationFunction) : world :=
  {| network := {| layers :=
       [ {| neurons := [fresh_neuron 0 0.1; fresh_neuron 1 0.1];
            activation_function := act |};
         {| neurons := [fresh_neuron 2 0.1]; activation_function := act |} ] |};
     store := {[ 0 := [0.5; 0.25]%float; 1 := [0.75; 0.125]%float;
                 2 := [0.5; 0.25]%float ]} |}.

Definition two_layer_examples : list example := [ ([1%float], [0; 1]%float) ].

(** A first layer of one neuron, a second of two, one output neuron. *)
Definition widening (act : ActivationFunction) : world :=
  {| network := {| layers :=
       [ {| neurons := [fresh_neuron 0 0]; activation_function := act |};
         {| neurons := [fresh_neuron 1 0; fresh_neuron 2 0];
            activation_function := act |};
         {| neurons := [fresh_neuron 3 0]; activation_function := act |} ] |};
     store := {[ 0 := [0.5%float]; 1 := [0.5%float]; 2 := [0.25%float];
                 3 := [0.5; 0.25]%float ]} |}.

(** What can be read off a network: per layer and neuron, the weight list
    and the threshold. *)
Definition weights_of (w : world) : list (list (list float)) :=
  (λ layer, (λ neuron, store w !!! weights neuron) <$> neurons layer)
    <$> layers (network w).

Definition thresholds_of (w : world) : list (list float) :=
  (λ layer, threshold <$> neurons layer) <$> layers (network w).

(** The value of a computation that returned. *)
Definition from_Ok {A} (d : A) (r : result A) : A :=
  match r with Ok a => a | Raise _ => d end.

Definition returned {A} (r : result A) : bool :=
  match r with Ok _ => true | Raise _ => false end.

Definition empty_world : world :=
  {| network := {| layers := [] |}; store := ∅ |}.

(** The example networks as the forward pass leaves them on their example. *)
Definition primed (w : world) (training_examples : list example) : world :=
  match training_examples with
  | [] => w
  | training_example :: _ => from_Ok empty_world (forward_pass w training_example.2)
  end.

Definition layer_at (w : world) (l : nat) : Layer :=
  default {| neurons := []; activation_function := Linear |} (layers (network w) !! l).

(** Every weight list of the network, layer by layer. *)
Definition weight_refs (net : Network) : list loc :=
  layers net ≫= λ layer, weights <$> neurons layer.

(** Distinct neurons hold distinct weight lists. *)
Definition owns_weights (net : Network) : Prop := NoDup (weight_refs net).

(** The terms [weight_k[j] * delta_k] when [weight_k] is one gradient step
    [delta_k] away from its list in [h]. *)
Definition stepped_terms (lr : float) (h : heap) (j : nat)
    (next_neurons : list Neuron) (next_deltas : list float) : list float :=
  zip_with (λ d n, (gradient_step lr d (h !!! weights n) (inputs n) !!! j * d)%float)
    next_deltas next_neurons.

Definition neuron_at (w : world) (l j : nat) : Neuron :=
  default (fresh_neuron 0 0) (neurons (layer_at w l) !! j).

(** What the merge makes of a parameter when no trained network came back:
    the empty sum [0.0] is added and the total is divided by [0 + 1]. *)
Definition merge_alone (p : float) : float := ((p + 0.0) / 1)%float.

(** The neuron and the layer as that merge leaves them. *)
Definition merged_alone (neuron : Neuron) : Neuron :=
  with_threshold neuron (merge_alone (threshold neuron)).

Definition merged_layer_alone (layer : Layer) : Layer :=
  {| neurons := merged_alone <$> neurons layer;
     activation_function := activation_function layer |}.

(** The mean of the value before the call and the value after training. *)
Definition halfway (original trained : float) : float :=
  ((original + trained) / 2)%float.

Definition weights_halfway (original trained : world) : list (list (list float)) :=
  zip_with (zip_with (zip_with halfway)) (weights_of original) (weights_of trained).

Definition thresholds_halfway (original trained : world) : list (list float) :=
  zip_with (zip_with halfway) (thresholds_of original) (thresholds_of trained).

(** ** Shapes *)

Definition width (layer : Layer) : nat := length (neurons layer).

Definition widths (net : Network) : list nat := width <$> layers net.

(** Widths of the layers the backward pass visits after the output layer,
    that is of every layer but the last, all at most [k]. *)
Definition hidden_fit (k : nat) (ws : list nat) : Prop :=
  Forall (λ x, x ≤ k) (tail (reverse ws)).

(** Every non-output layer has at most as many neurons as the first layer. *)
Definition narrow (net : Network) : Prop :=
  match widths net with
  | [] => True
  | k :: _ => hidden_fit k (widths net)
  end.

(** Some non-output layer has more neurons than the first layer. *)
Definition wide (net : Network) : Prop :=
  match widths net with
  | [] => False
  | k :: _ => Exists (λ x, k < x) (tail (reverse (widths net)))
  end.

(** Every input of every neuron of the layer has a weight. *)
Definition fits_inputs (h : heap) (layer : Layer) : Prop :=
  Forall (λ neuron, length (inputs neuron) ≤ length (h !!! weights neuron))
    (neurons layer).

(** Every neuron of [nxt] has a weight for every neuron of [hid]. *)
Definition fits_next (h : heap) (nxt hid : Layer) : Prop :=
  Forall (λ neuron, width hid ≤ length (h !!! weights neuron)) (neurons nxt).

(** [fits_next] along the layers in the order the pass visits them. *)
Definition fits_chain (h : heap) (visited : list Layer) : Prop :=
  Forall (λ pr, fits_next h pr.1 pr.2) (zip visited (tail visited)).

(** The network, primed by the forward pass, and the target vector have the
    shapes the backward pass indexes them with. *)
Definition well_shaped (w : world) (target_output_vector : list float) : Prop :=
  let visited := reverse (layers (network w)) in
  Forall (fits_inputs (store w)) visited ∧
  fits_chain (store w) visited ∧
  Forall (λ out, width out ≤ length target_output_vector) (take 1 visited).

#[global] Instance narrow_dec net : Decision (narrow net).
Proof. unfold narrow, hidden_fit. destruct (widths net); apply _. Defined.

#[global] Instance wide_dec net : Decision (wide net).
Proof. unfold wide. destruct (widths net); apply _. Defined.

#[global] Instance well_shaped_dec w target : Decision (well_shaped w target).
Proof. unfold well_shaped, fits_chain, fits_next, fits_inputs. apply _. Defined.

(** What the pass, in state [p] and about to visit [ls], needs of the shapes. *)
Definition pass_ready (target_output_vector : list float) (ls : list Layer)
    (p : pass_state) : Prop :=
  Forall (fits_inputs (pass_store p)) ls ∧
  fits_chain (pass_store p) ls ∧
  Forall (λ layer,
            if isOutputLayer p then width layer ≤ length target_output_vector
            else Forall (λ l, width layer ≤ length (pass_store p !!! l))
                   (next_layer_weights p))
    (take 1 ls).

Definition empty_layer_state : layer_state :=
  {| done_neurons := []; this_layer_deltas := []; this_layer_weights := [];
     cur_store := ∅; cur_rho := [] |}.

(** ** sign (lines 388-396) *)

(** The local [sign] is bound in one of three branches and then returned. *)
Definition sign (x : float) : result Z :=
  if (x <? 0.0)%float then Ok (-1)%Z
  else if (x =? 0.0)%float then Ok 0%Z
  else if (0.0 <? x)%float then Ok 1%Z
  else Raise UnboundLocalError.

(** ** What training leaves alone *)

(** The neuron [n'] is [n] but for its threshold. *)
Definition same_but_threshold (n n' : Neuron) : Prop :=
  weights n' = weights n ∧ local_output n' = local_output n ∧ inputs n' = inputs n.

(** The layer [l'] is [l] but for the thresholds of its neurons. *)
Definition same_but_thresholds (l l' : Layer) : Prop :=
  activation_function l' = activation_function l ∧
  Forall2 same_but_threshold (neurons l) (neurons l').

(** Per layer, the activation function and the weight lists of the neurons. *)
Definition skeleton (w : world) : list (ActivationFunction * list loc) :=
  (λ layer, (activation_function layer, weights <$> neurons layer))
    <$> layers (network w).

(** Same layers, same activation functions, same weight lists of the same
    lengths. *)
Definition same_skeleton (w w' : world) : Prop :=
  skeleton w' = skeleton w ∧ ∀ l, length (store w' !!! l) = length (store w !!! l).

(** ** The exceptions of training *)

(** An [IndexError] of one of the four subscripts of the backward pass, the
    one on [rho_estimates] in unsupervised mode only. *)
Definition pass_error (unsupervised : bool) (e : exn) : Prop :=
  e = IndexError TargetOutput ∨ e = IndexError NextWeights ∨
  e = IndexError NeuronWeights ∨ (e = IndexError RhoEstimates ∧ unsupervised = true).


(** ** The merge, in closed form *)

(** [trained_network.layers[l].neurons[j].weights[ij]] and [...threshold]. *)
Definition trained_weight (l j ij : nat) (tn : world) : result float :=
  neuron ← trained_neuron tn l j;
  index TrainedNetwork (store tn !!! weights neuron) ij.

Definition trained_threshold (l j : nat) (tn : world) : result float :=
  neuron ← trained_neuron tn l j;
  Ok (threshold neuron).

(** The values [f] reads off the trained networks, in order. *)
Fixpoint gather {A} (f : world → result A) (trained_networks : list world)
    : result (list A) :=
  match trained_networks with
  | [] => Ok []
  | tn :: tns =>
      x ← f tn;
      xs ← gather f tns;
      Ok (x :: xs)
  end.

(** The master's value and the others', summed from [0.0] in order, over
    their number plus one. *)
Definition average (own : float) (others : list float) : float :=
  ((own + float_sum others) / float_of_nat (length others + 1))%float.

(** What the merge did for the neuron at index [j] of layer [l]: [neuron']
    is the neuron with its threshold averaged, and from heap [h] to heap [h']
    each of its weights was averaged. *)
Definition merged_at (trained_networks : list world) (l j : nat)
    (neuron : Neuron) (h h' : heap) (neuron' : Neuron) : Prop :=
  (∃ others, gather (trained_threshold l j) trained_networks = Ok others ∧
             neuron' = with_threshold neuron (average (threshold neuron) others)) ∧
  length (h' !!! weights neuron) = length (h !!! weights neuron) ∧
  ∀ ij own, (h !!! weights neuron) !! ij = Some own →
    ∃ others, gather (trained_weight l j ij) trained_networks = Ok others ∧
              (h' !!! weights neuron) !! ij = Some (average own others).

(** The ways the merge can fail: a trained network lacks a layer, a neuron
    or a weight the master network has, or the divisor is zero. *)
Definition merge_error (trained_networks : list world) (e : exn) : Prop :=
  e = IndexError TrainedNetwork ∨
  (e = ZeroDivisionError ∧
   (float_of_nat (length trained_networks + 1) =? 0)%float = true).

(** ** LogisticActivationFunction.inverse (lines 194-198) *)

Section Inverse.
(** [math.log] *)
Variable math_log : float → result float.

(** The quotient is computed first; [math.log] is called on it. *)
Definition Logistic_inverse (input_value : float) : result float :=
  q ← py_div input_value (1 - input_value);
  math_log q.
End Inverse.
(** ** The error monad: inversion *)

Lemma bind_Ok {A B} (m : result A) (f : A → result B) (b : B) :
  m ≫= f = Ok b ↔ ∃ a, m = Ok a ∧ f a = Ok b.
Proof.
  destruct m as [a|e]; simpl; split.
  - intros H. by exists a.
  - by intros (a' & [= <-] & H).
  - done.
  - by intros (a' & [=] & _).
Qed.

Lemma bind_Raise {A B} (m : result A) (f : A → result B) (e : exn) :
  m ≫= f = Raise e ↔ m = Raise e ∨ ∃ a, m = Ok a ∧ f a = Raise e.
Proof.
  destruct m as [a|e']; simpl; split.
  - intros H. right. by exists a.
  - intros [[=]|(a' & [= <-] & H)]. done.
  - intros [= <-]. by left.
  - intros [[= <-]|(a' & [=] & _)]. done.
Qed.

Lemma index_Ok {A} (s : site) (l : list A) (i : nat) (x : A) :
  index s l i = Ok x ↔ l !! i = Some x.
Proof. unfold index. destruct (l !! i); split; congruence. Qed.

Lemma index_Raise {A} (s : site) (l : list A) (i : nat) (e : exn) :
  index s l i = Raise e ↔ length l ≤ i ∧ e = IndexError s.
Proof.
  unfold index. destruct (l !! i) eqn:E; split.
  - done.
  - intros [Hle _]. apply lookup_lt_Some in E. lia.
  - intros [= <-]. split; [by apply lookup_ge_None|done].
  - by intros [_ ->].
Qed.

Lemma outside_Ok {A} (r : result A) (a : A) : outside r = Ok a → r = Ok a.
Proof. by destruct r as [|[]]. Qed.

Lemma outside_no_rho_error {A} (r : result A) :
  outside r ≠ Raise (IndexError RhoEstimates).
Proof. by destruct r as [|[]]. Qed.

(** Inverts every hypothesis stating that a sequence of binds returned. *)
Ltac inv_Ok :=
  repeat match goal with
  | H : _ ≫= _ = Ok _ |- _ =>
      let a := fresh "a" in let Ha := fresh "Hstep" in
      apply bind_Ok in H as (a & Ha & H)
  | H : Ok _ = Ok _ |- _ => injection H as H
  | H : mret _ = Ok _ |- _ => injection H as H
  | H : index _ _ _ = Ok _ |- _ => apply index_Ok in H
  end.

(** ** The weight loop *)

Lemma gradient_step_length lr delta ws ins :
  length (gradient_step lr delta ws ins) = length ws.
Proof.
  revert ins. induction ws as [|w ws IH]; intros [|i ins]; simpl; auto.
Qed.



Lemma update_weights_from lr delta l ins :
  ∀ ij (h : heap) pre ws,
    h !!! l = pre ++ ws → length pre = ij → length ins ≤ length ws →
    ∃ h' : heap,
      update_weights lr delta l ij ins h = Ok h' ∧
      h' !!! l = pre ++ gradient_step lr delta ws ins ∧
      ∀ l', l' ≠ l → h' !!! l' = h !!! l'.
Proof.
  induction ins as [|input_ij ins IH]; intros ij h pre ws Hl Hpre Hlen; simpl.
  - exists h. split; [done|]. split; [|done]. rewrite Hl. by destruct ws.
  - destruct ws as [|w ws]; simpl in Hlen; [lia|].
    assert (Hw : (h !!! l) !! ij = Some w).
    { rewrite Hl, lookup_app_r by lia. by replace (ij - length pre) with 0 by lia. }
    unfold index. rewrite Hw. simpl.
    set (w' := (w - lr * (delta * input_ij))%float).
    set (h1 := <[l := <[ij := w']> (h !!! l)]> h).
    assert (Hl1 : h1 !!! l = (pre ++ [w']) ++ ws).
    { unfold h1. rewrite lookup_total_insert_eq, Hl, <- Hpre.
      rewrite insert_app_r_alt by lia. replace (length pre - length pre) with 0 by lia.
      simpl. by rewrite <- app_assoc. }
    destruct (IH (S ij) h1 (pre ++ [w']) ws Hl1) as (h' & Hrun & Hat & Hframe).
    { rewrite length_app. simpl. lia. }
    { lia. }
    exists h'. split; [done|]. split.
    + rewrite Hat, <- app_assoc. done.
    + intros l' Hne. rewrite Hframe by done. unfold h1.
      by rewrite lookup_total_insert_ne.
Qed.

(** The loop over [enumerate(neuron.inputs)] from index 0. *)
Lemma update_weights_Ok lr delta l ins (h : heap) :
  length ins ≤ length (h !!! l) →
  ∃ h' : heap,
    update_weights lr delta l 0 ins h = Ok h' ∧
    h' !!! l = gradient_step lr delta (h !!! l) ins ∧
    ∀ l', l' ≠ l → h' !!! l' = h !!! l'.
Proof. intros H. by apply (update_weights_from lr delta l ins 0 h [] (h !!! l)). Qed.

(** It raises exactly when some input has no weight. *)
Lemma update_weights_Raise lr delta l ins :
  ∀ ij (h : heap) e,
    update_weights lr delta l ij ins h = Raise e →
    e = IndexError NeuronWeights ∧ length (h !!! l) < ij + length ins.
Proof.
  induction ins as [|input_ij ins IH]; intros ij h e; simpl; [done|].
  intros [H|(w & Hw & H)]%bind_Raise.
  - apply index_Raise in H as [H ->]. split; [done|lia].
  - apply IH in H as [-> H]. split; [done|].
    rewrite lookup_total_insert_eq, length_insert in H. lia.
Qed.

Lemma update_weights_short lr delta l ins :
  ∀ ij (h : heap),
    ij ≤ length (h !!! l) → length (h !!! l) < ij + length ins →
    update_weights lr delta l ij ins h = Raise (IndexError NeuronWeights).
Proof.
  induction ins as [|input_ij ins IH]; intros ij h Hle Hlt; simpl in *; [lia|].
  destruct ((h !!! l) !! ij) as [w|] eqn:Hw; unfold index; rewrite Hw; simpl; [|done].
  apply lookup_lt_Some in Hw.
  apply IH; rewrite lookup_total_insert_eq, length_insert; lia.
Qed.

Lemma update_weights_inv lr delta l ins (h h' : heap) :
  update_weights lr delta l 0 ins h = Ok h' →
  length ins ≤ length (h !!! l) ∧
  h' !!! l = gradient_step lr delta (h !!! l) ins ∧
  ∀ l', l' ≠ l → h' !!! l' = h !!! l'.
Proof.
  intros Hrun.
  destruct (decide (length ins ≤ length (h !!! l))) as [Hle|Hgt].
  - destruct (update_weights_Ok lr delta l ins h Hle) as (h'' & Hrun' & H1 & H2).
    rewrite Hrun in Hrun'. by injection Hrun' as ->.
  - rewrite update_weights_short in Hrun; [done|lia|lia].
Qed.

(** The loop never changes the length of a weight list. *)
Lemma update_weights_length lr delta l ins (h h' : heap) l' :
  update_weights lr delta l 0 ins h = Ok h' →
  length (h' !!! l') = length (h !!! l').
Proof.
  intros (_ & Hat & Hframe)%update_weights_inv.
  destruct (decide (l' = l)) as [->|Hne].
  - by rewrite Hat, gradient_step_length.
  - by rewrite Hframe.
Qed.

(** ** The loop over a layer's neurons *)

Section NeuronLoop.
Variables (lr : float) (unsupervised isOut : bool).
Variables (act : ActivationFunction) (target_output_vector : list float).
Variables (nld : list float) (nlw : list loc).

Local Abbreviation delta_of := (compute_delta isOut act target_output_vector
                              nld nlw).
Local Abbreviation step := (train_neuron lr unsupervised isOut act
                          target_output_vector nld nlw).
Local Abbreviation loop := (train_neurons lr unsupervised isOut act
                          target_output_vector nld nlw).

Lemma train_neuron_inv j neuron s s' :
  step j neuron s = Ok s' →
  ∃ delta h' thr rho',
    delta_of (cur_store s) j neuron = Ok delta ∧
    update_weights lr delta (weights neuron) 0 (inputs neuron) (cur_store s) = Ok h' ∧
    update_threshold lr delta unsupervised isOut j neuron (cur_rho s)
      = Ok (thr, rho') ∧
    s' = {| done_neurons := done_neurons s ++ [with_threshold neuron thr];
            this_layer_deltas := this_layer_deltas s ++ [delta];
            this_layer_weights := this_layer_weights s ++ [weights neuron];
            cur_store := h'; cur_rho := rho' |}.
Proof.
  unfold train_neuron. intros H. inv_Ok.
  destruct a1 as [thr rho']. inv_Ok. subst s'.
  by exists a, a0, thr, rho'.
Qed.

Lemma train_neuron_intro j neuron s delta h' thr rho' :
  delta_of (cur_store s) j neuron = Ok delta →
  update_weights lr delta (weights neuron) 0 (inputs neuron) (cur_store s) = Ok h' →
  update_threshold lr delta unsupervised isOut j neuron (cur_rho s)
    = Ok (thr, rho') →
  step j neuron s
  = Ok {| done_neurons := done_neurons s ++ [with_threshold neuron thr];
          this_layer_deltas := this_layer_deltas s ++ [delta];
          this_layer_weights := this_layer_weights s ++ [weights neuron];
          cur_store := h'; cur_rho := rho' |}.
Proof.
  intros H1 H2 H3. unfold train_neuron.
  rewrite H1. simpl. rewrite H2. simpl. by rewrite H3.
Qed.

Lemma update_threshold_rho_length delta j neuron rho_estimates thr rho' :
  update_threshold lr delta unsupervised isOut j neuron rho_estimates
    = Ok (thr, rho') →
  length rho' = length rho_estimates.
Proof.
  unfold update_threshold.
  destruct (unsupervised && negb isOut); intros H; inv_Ok.
  - subst. by rewrite length_insert.
  - by subst.
Qed.

Lemma train_neurons_app ns1 ns2 :
  ∀ j s, loop j (ns1 ++ ns2) s = loop j ns1 s ≫= loop (j + length ns1) ns2.
Proof.
  induction ns1 as [|n ns1 IH]; intros j s; simpl.
  - by rewrite Nat.add_0_r.
  - destruct (step j n s) as [s1|e]; simpl; [|done].
    rewrite IH. by replace (S j + length ns1) with (j + S (length ns1)) by lia.
Qed.

(** What a completed loop did to the accumulators and the shapes. *)
Lemma train_neurons_shape ns :
  ∀ j s s', loop j ns s = Ok s' →
    ∃ ds thrs,
      length ds = length ns ∧ length thrs = length ns ∧
      this_layer_deltas s' = this_layer_deltas s ++ ds ∧
      this_layer_weights s' = this_layer_weights s ++ (weights <$> ns) ∧
      done_neurons s' = done_neurons s ++ zip_with with_threshold ns thrs ∧
      length (cur_rho s') = length (cur_rho s) ∧
      ∀ l, length (cur_store s' !!! l) = length (cur_store s !!! l).
Proof.
  induction ns as [|n ns IH]; intros j s s' H; simpl in H.
  - injection H as <-. exists [], []. by rewrite !app_nil_r.
  - inv_Ok. apply train_neuron_inv in Hstep as (delta & h' & thr & rho' & _ & Hw & Ht & ->).
    apply IH in H as (ds & thrs & Hds & Hthrs & Hd & Hr & Hn & Hrho & Hlen).
    simpl in *. exists (delta :: ds), (thr :: thrs). simpl.
    rewrite Hd, Hr, Hn, Hrho, <- !app_assoc. simpl.
    repeat split; auto.
    + eapply update_threshold_rho_length; eauto.
    + intros l. rewrite Hlen. eapply update_weights_length; eauto.
Qed.

(** The loop, cut at the neuron of index [i]. *)
Lemma train_neurons_at ns i neuron :
  ∀ j s s', loop j ns s = Ok s' → ns !! i = Some neuron →
    ∃ s1 s2,
      loop j (take i ns) s = Ok s1 ∧
      step (j + i) neuron s1 = Ok s2 ∧
      loop (S (j + i)) (drop (S i) ns) s2 = Ok s'.
Proof.
  intros j s s' H Hi.
  rewrite <- (take_drop_middle ns i neuron Hi), train_neurons_app in H.
  apply bind_Ok in H as (s1 & H1 & H). simpl in H.
  apply bind_Ok in H as (s2 & H2 & H).
  assert (length (take i ns) = i) as Hlen.
  { rewrite length_take. apply lookup_lt_Some in Hi. lia. }
  rewrite Hlen in *. by exists s1, s2.
Qed.

(** The neuron of index [i]: the state [s1] the neurons before it left, what
    the loop body computed there, and where the results sit at the end. *)
Lemma train_neurons_step_at ns i neuron s s' :
  this_layer_deltas s = [] → done_neurons s = [] →
  loop 0 ns s = Ok s' → ns !! i = Some neuron →
  ∃ s1 delta h' thr rho',
    loop 0 (take i ns) s = Ok s1 ∧
    delta_of (cur_store s1) i neuron = Ok delta ∧
    update_weights lr delta (weights neuron) 0 (inputs neuron) (cur_store s1) = Ok h' ∧
    update_threshold lr delta unsupervised isOut i neuron (cur_rho s1)
      = Ok (thr, rho') ∧
    this_layer_deltas s' !! i = Some delta ∧
    done_neurons s' !! i = Some (with_threshold neuron thr) ∧
    loop (S i) (drop (S i) ns)
      {| done_neurons := done_neurons s1 ++ [with_threshold neuron thr];
         this_layer_deltas := this_layer_deltas s1 ++ [delta];
         this_layer_weights := this_layer_weights s1 ++ [weights neuron];
         cur_store := h'; cur_rho := rho' |} = Ok s'.
Proof.
  intros Hnil Hnil' H Hi.
  destruct (train_neurons_at ns i neuron 0 s s' H Hi) as (s1 & s2 & H1 & H2 & H3).
  simpl in *.
  assert (length (take i ns) = i) as Hlen.
  { rewrite length_take. apply lookup_lt_Some in Hi. lia. }
  pose proof H1 as H1'.
  apply train_neurons_shape in H1' as (ds1 & thrs1 & Hl1 & Hl1' & Hd1 & _ & Hn1 & _).
  apply train_neuron_inv in H2 as (delta & h' & thr & rho' & Hdelta & Hw & Ht & ->).
  pose proof H3 as H3'.
  apply train_neurons_shape in H3' as (ds3 & thrs3 & _ & _ & Hd3 & _ & Hn3 & _).
  simpl in Hd3, Hn3. rewrite Hnil in Hd1. rewrite Hnil' in Hn1. simpl in Hd1, Hn1.
  exists s1, delta, h', thr, rho'. repeat split; try done.
  - rewrite Hd3, Hd1, <- app_assoc. simpl.
    rewrite lookup_app_r by lia. rewrite Hl1, Hlen, Nat.sub_diag. done.
  - rewrite Hn3, Hn1, <- app_assoc. simpl.
    assert (length (zip_with with_threshold (take i ns) thrs1) = i) as Hz.
    { rewrite length_zip_with. lia. }
    rewrite lookup_app_r by lia. rewrite Hz, Nat.sub_diag. done.
Qed.

(** A neuron's updates touch its own weight list only. *)
Lemma train_neurons_frame ns l :
  ∀ j s s', loop j ns s = Ok s' → l ∉ (weights <$> ns) →
    cur_store s' !!! l = cur_store s !!! l.
Proof.
  induction ns as [|n ns IH]; intros j s s' H Hl; simpl in H.
  - by injection H as <-.
  - inv_Ok. apply train_neuron_inv in Hstep as (delta & h' & thr & rho' & _ & Hw & _ & ->).
    rewrite fmap_cons, not_elem_of_cons in Hl. destruct Hl as [Hne Hl].
    rewrite (IH _ _ _ H Hl). simpl.
    apply update_weights_inv in Hw as (_ & _ & Hframe). by apply Hframe.
Qed.

Lemma NoDup_refs_middle (ns : list Neuron) k n :
  NoDup (weights <$> ns) → ns !! k = Some n →
  (weights n ∉ weights <$> take k ns) ∧ (weights n ∉ weights <$> drop (S k) ns).
Proof.
  intros Hnd Hk. rewrite <- (take_drop_middle ns k n Hk) in Hnd.
  rewrite fmap_app, fmap_cons in Hnd.
  apply NoDup_app in Hnd as (_ & Hdisj & Hnd).
  apply NoDup_cons in Hnd as [Hnot _]. split; [|done].
  intros Hin. apply (Hdisj _ Hin). left.
Qed.

(** When the neurons of the layer own distinct weight lists, the list of
    neuron [k] ends up one gradient step away from where it started. *)
Lemma train_neurons_store_at ns k neuron s s' delta :
  this_layer_deltas s = [] → done_neurons s = [] →
  NoDup (weights <$> ns) →
  loop 0 ns s = Ok s' → ns !! k = Some neuron →
  this_layer_deltas s' !! k = Some delta →
  (cur_store s' !!! weights neuron)
  = gradient_step lr delta (cur_store s !!! weights neuron) (inputs neuron).
Proof.
  intros Hnil Hnil' Hnd H Hk Hd.
  destruct (NoDup_refs_middle ns k neuron Hnd Hk) as [Hbefore Hafter].
  destruct (train_neurons_step_at ns k neuron s s' Hnil Hnil' H Hk)
    as (s1 & delta' & h' & thr & rho' & H1 & _ & Hw & _ & Hd' & _ & H3).
  rewrite Hd in Hd'. injection Hd' as <-.
  rewrite (train_neurons_frame _ _ _ _ _ H3 Hafter). simpl.
  apply update_weights_inv in Hw as (_ & -> & _).
  by rewrite (train_neurons_frame _ _ _ _ _ H1 Hbefore).
Qed.
End NeuronLoop.

(** ** The sum over the next layer *)

Lemma sum_value_loop_inv (h : heap) j nd :
  ∀ (ns : list Neuron) acc r,
    sum_value_loop h j (zip nd (weights <$> ns)) acc = Ok r →
    r = foldl (λ acc x, (acc + x)%float) acc (delta_terms h j ns nd) ∧
    ∀ k n, k < length nd → ns !! k = Some n → j < length (h !!! weights n).
Proof.
  induction nd as [|d nd IH]; intros [|n ns] acc r H; simpl in H.
  - injection H as <-. split; [done|]. simpl. lia.
  - injection H as <-. split; [done|]. simpl. lia.
  - injection H as <-. split; [done|]. by intros k n' _ ?.
  - inv_Ok. apply IH in H as [-> Hin]. split.
    + unfold delta_terms, weight_on. simpl.
      by rewrite (list_lookup_total_correct _ _ _ Hstep).
    + intros [|k] n' Hk Hn'; simpl in *.
      * injection Hn' as <-. by apply lookup_lt_Some in Hstep.
      * apply (Hin k n'); [lia|done].
Qed.

(** ** One layer *)

Section OneLayer.
Variables (lr : float) (unsupervised isOut : bool) (target_output_vector : list float).
Variables (nld : list float) (nlw : list loc) (layer : Layer).
Variables (h : heap) (rho_estimates : list float) (s' : layer_state).
Hypothesis Hrun : train_layer lr unsupervised isOut target_output_vector nld nlw
                    layer h rho_estimates = Ok s'.

Local Abbreviation act := (activation_function layer).
Local Abbreviation loop := (train_neurons lr unsupervised isOut act
                              target_output_vector nld nlw).
Local Abbreviation s0 := {| done_neurons := []; this_layer_deltas := [];
                            this_layer_weights := []; cur_store := h;
                            cur_rho := rho_estimates |}.

(** The neuron of index [i] of a layer that was trained: [s1] is the state
    in which the loop body found it. *)
Lemma train_layer_step_at i neuron :
  neurons layer !! i = Some neuron →
  ∃ s1 delta h' thr rho',
    loop 0 (take i (neurons layer)) s0 = Ok s1 ∧
    compute_delta isOut act target_output_vector nld nlw (cur_store s1) i neuron
      = Ok delta ∧
    update_weights lr delta (weights neuron) 0 (inputs neuron) (cur_store s1) = Ok h' ∧
    update_threshold lr delta unsupervised isOut i neuron (cur_rho s1) = Ok (thr, rho') ∧
    this_layer_deltas s' !! i = Some delta ∧
    done_neurons s' !! i = Some (with_threshold neuron thr) ∧
    loop (S i) (drop (S i) (neurons layer))
      {| done_neurons := done_neurons s1 ++ [with_threshold neuron thr];
         this_layer_deltas := this_layer_deltas s1 ++ [delta];
         this_layer_weights := this_layer_weights s1 ++ [weights neuron];
         cur_store := h'; cur_rho := rho' |} = Ok s'.
Proof using Hrun.
  intros Hi. by eapply train_neurons_step_at.
Qed.

Lemma train_layer_shape :
  length (this_layer_deltas s') = length (neurons layer) ∧
  this_layer_weights s' = weights <$> neurons layer ∧
  length (done_neurons s') = length (neurons layer) ∧
  length (cur_rho s') = length rho_estimates ∧
  ∀ l, length (cur_store s' !!! l) = length (h !!! l).
Proof using Hrun.
  apply train_neurons_shape in Hrun as (ds & thrs & Hds & Hthrs & -> & -> & -> & Hrho & Hlen).
  simpl. rewrite length_zip_with. repeat split; auto. lia.
Qed.

Lemma train_layer_frame l :
  l ∉ (weights <$> neurons layer) → cur_store s' !!! l = h !!! l.
Proof using Hrun. intros Hl. by apply (train_neurons_frame _ _ _ _ _ _ _ _ _ _ _ _ Hrun). Qed.

Lemma train_layer_store_at k neuron delta :
  NoDup (weights <$> neurons layer) →
  neurons layer !! k = Some neuron →
  this_layer_deltas s' !! k = Some delta →
  (cur_store s' !!! weights neuron)
  = gradient_step lr delta (h !!! weights neuron) (inputs neuron).
Proof using Hrun.
  intros Hnd Hk Hd.
  by rewrite (train_neurons_store_at _ _ _ _ _ _ _ _ _ _ s0 s' delta
                eq_refl eq_refl Hnd Hrun Hk Hd).
Qed.
End OneLayer.

(** ** The loop over the layers *)

Section LayerLoop.
Variables (lr : float) (unsupervised : bool) (target_output_vector : list float).

Local Abbreviation layer_step := (backward_layer lr unsupervised target_output_vector).
Local Abbreviation layers_loop := (backward_layers lr unsupervised target_output_vector).

Lemma backward_layers_app ls1 ls2 :
  ∀ p, layers_loop (ls1 ++ ls2) p = layers_loop ls1 p ≫= layers_loop ls2.
Proof.
  induction ls1 as [|l ls1 IH]; intros p; simpl; [done|].
  destruct (layer_step l p); simpl; [apply IH|done].
Qed.

Lemma backward_layer_inv layer p p' :
  layer_step layer p = Ok p' →
  ∃ s, train_layer lr unsupervised (isOutputLayer p) target_output_vector
         (next_layer_deltas p) (next_layer_weights p) layer
         (pass_store p) (pass_rho p) = Ok s ∧
       p' = {| done_layers := done_layers p ++
                 [{| neurons := done_neurons s;
                     activation_function := activation_function layer |}];
               next_layer_deltas := this_layer_deltas s;
               next_layer_weights := this_layer_weights s;
               isOutputLayer := false;
               pass_store := cur_store s;
               pass_rho := cur_rho s |}.
Proof. unfold backward_layer. intros H. inv_Ok. subst. by exists a. Qed.

(** The output layer is the first one the pass visits, with the flag set
    and empty accumulators. *)
Lemma backward_pass_output w rho_estimates hidden out r :
  layers (network w) = hidden ++ [out] →
  backward_pass lr unsupervised target_output_vector w rho_estimates = Ok r →
  ∃ s, train_layer lr unsupervised true target_output_vector [] [] out
         (store w) rho_estimates = Ok s.
Proof.
  unfold backward_pass. intros -> H. rewrite reverse_snoc in H. simpl in H.
  inv_Ok. apply backward_layer_inv in Hstep0 as (s & Hs & _). by exists s.
Qed.

(** Two adjacent layers: [nxt] is visited in some state [p] of the pass, and
    [hid] right after it, with the flag cleared and [nxt]'s accumulators. *)
Lemma backward_pass_adjacent w rho_estimates before hid nxt after r :
  layers (network w) = before ++ hid :: nxt :: after →
  backward_pass lr unsupervised target_output_vector w rho_estimates = Ok r →
  ∃ p s_nxt s_hid,
    layers_loop (reverse after) (pass_init (store w) rho_estimates) = Ok p ∧
    train_layer lr unsupervised (isOutputLayer p) target_output_vector
      (next_layer_deltas p) (next_layer_weights p) nxt
      (pass_store p) (pass_rho p) = Ok s_nxt ∧
    train_layer lr unsupervised false target_output_vector
      (this_layer_deltas s_nxt) (this_layer_weights s_nxt) hid
      (cur_store s_nxt) (cur_rho s_nxt) = Ok s_hid.
Proof.
  unfold backward_pass. intros -> H.
  rewrite reverse_app, !reverse_cons, <- !app_assoc in H. simpl in H.
  apply bind_Ok in H as (pe & H & _).
  rewrite backward_layers_app in H. apply bind_Ok in H as (p & Hp & H).
  simpl in H. apply bind_Ok in H as (p1 & H1 & H).
  apply bind_Ok in H as (p2 & H2 & _).
  apply backward_layer_inv in H1 as (s_nxt & Hn & ->).
  apply backward_layer_inv in H2 as (s_hid & Hh & _). simpl in Hh.
  by exists p, s_nxt, s_hid.
Qed.
End LayerLoop.

(** ** Hidden layers *)

Lemma zip_with_ext_lookup {A B C} (f g : A → B → C) (l1 : list A) (l2 : list B) :
  (∀ k a b, l1 !! k = Some a → l2 !! k = Some b → f a b = g a b) →
  zip_with f l1 l2 = zip_with g l1 l2.
Proof.
  revert l2. induction l1 as [|a l1 IH]; intros [|b l2] H; simpl; try done.
  f_equal.
  - by apply (H 0).
  - apply IH. intros k a' b' Ha Hb. by apply (H (S k)).
Qed.

(** The delta of the hidden neuron at index [j], over the heap [cur_store s1]
    in which the loop body finds it. *)
Lemma hidden_delta_at lr unsupervised target (nxt_neurons : list Neuron) nld hid h
    rho_estimates s' j neuron :
  length nld = length nxt_neurons →
  train_layer lr unsupervised false target nld (weights <$> nxt_neurons) hid h
    rho_estimates = Ok s' →
  neurons hid !! j = Some neuron →
  ∃ s1,
    train_neurons lr unsupervised false (activation_function hid) target nld
      (weights <$> nxt_neurons) 0 (take j (neurons hid))
      {| done_neurons := []; this_layer_deltas := []; this_layer_weights := [];
         cur_store := h; cur_rho := rho_estimates |} = Ok s1 ∧
    this_layer_deltas s' !! j
    = Some (derivative (activation_function hid) (local_output neuron)
            * float_sum (delta_terms (cur_store s1) j nxt_neurons nld))%float ∧
    ∀ nk, nk ∈ nxt_neurons → j < length (cur_store s1 !!! weights nk).
Proof.
  intros Hlen Hrun Hj.
  destruct (train_layer_step_at _ _ _ _ _ _ _ _ _ _ Hrun j neuron Hj)
    as (s1 & delta & h' & thr & rho' & H1 & Hdelta & _ & _ & Hd & _).
  exists s1. split; [done|].
  unfold compute_delta in Hdelta. inv_Ok. subst delta.
  apply sum_value_loop_inv in Hstep as [-> Hin]. split; [done|].
  intros nk [k Hk]%list_elem_of_lookup. apply (Hin k nk); [|done].
  rewrite Hlen. by apply lookup_lt_Some in Hk.
Qed.

Section PassFrame.
Variables (lr : float) (unsupervised : bool) (target_output_vector : list float).

(** The pass over the layers [ls] touches the weight lists of [ls] only. *)
Lemma backward_layers_frame ls l :
  ∀ p p', backward_layers lr unsupervised target_output_vector ls p = Ok p' →
    l ∉ (ls ≫= λ layer, weights <$> neurons layer) →
    pass_store p' !!! l = pass_store p !!! l.
Proof.
  induction ls as [|layer ls IH]; intros p p' H Hl; simpl in H.
  - by injection H as <-.
  - inv_Ok. apply backward_layer_inv in Hstep as (s & Hs & ->).
    rewrite bind_cons, not_elem_of_app in Hl. destruct Hl as [Hl1 Hl2].
    rewrite (IH _ _ H Hl2). simpl. by apply (train_layer_frame _ _ _ _ _ _ _ _ _ _ Hs).
Qed.
End PassFrame.

(** What [owns_weights] says about two adjacent layers. *)
Lemma owns_weights_adjacent net before hid nxt after :
  layers net = before ++ hid :: nxt :: after →
  owns_weights net →
  NoDup (weights <$> neurons nxt) ∧
  (∀ n nk, n ∈ neurons hid → nk ∈ neurons nxt → weights n ≠ weights nk) ∧
  (∀ nk, nk ∈ neurons nxt →
     weights nk ∉ (reverse after ≫= λ layer, weights <$> neurons layer)).
Proof.
  unfold owns_weights, weight_refs. intros -> Hnd.
  rewrite bind_app, !bind_cons in Hnd.
  apply NoDup_app in Hnd as (_ & _ & Hnd).
  apply NoDup_app in Hnd as (_ & Hhid & Hnd).
  apply NoDup_app in Hnd as (Hnxt & Hafter & _).
  split; [done|]. split.
  - intros n nk Hn Hnk Heq. apply (Hhid (weights n)).
    + by apply list_elem_of_fmap_2.
    + apply elem_of_app. left. rewrite Heq. by apply list_elem_of_fmap_2.
  - intros nk Hnk Hin. apply (Hafter (weights nk)).
    + by apply list_elem_of_fmap_2.
    + apply list_elem_of_bind in Hin as (layer & Hin & Hlayer).
      apply list_elem_of_bind. exists layer. split; [done|].
      by apply elem_of_reverse.
Qed.

(** ** The jobs and the queue *)

Section Jobs.
Variable compute_network_output : world → list float → result world.
Variables (w : world) (trainer : Backpropagation) (iterations : Z) (unsupervised : bool).

Local Abbreviation trained_on chunk tn :=
  (∃ t, train compute_network_output trainer w chunk iterations unsupervised = Ok (t, tn)).

(** The queue gains one network per job whose [train] returned, in job
    order; when it gained one per job, every job returned. *)
Lemma start_jobs_queue chunks :
  ∀ q, ∃ outs,
    start_jobs compute_network_output w trainer chunks iterations unsupervised q
      = q ++ outs ∧
    length outs ≤ length chunks ∧
    (length outs = length chunks → Forall2 (λ chunk tn, trained_on chunk tn) chunks outs).
Proof.
  induction chunks as [|chunk chunks IH]; intros q; simpl.
  - exists []. rewrite app_nil_r. repeat split; [done|]. by constructor.
  - unfold _parallel_train_worker.
    destruct (train compute_network_output trainer w chunk iterations unsupervised)
      as [[t tn]|e] eqn:Htrain; simpl.
    + destruct (IH (q ++ [tn])) as (outs & -> & Hlen & Hall).
      exists (tn :: outs). rewrite <- app_assoc. simpl. repeat split; [lia|].
      intros Heq. constructor; [by exists t|]. apply Hall. lia.
    + destruct (IH q) as (outs & -> & Hlen & Hall).
      exists outs. repeat split; [lia|]. intros Heq. lia.
Qed.
End Jobs.

(** ** The merge when no trained network came back *)

Lemma merge_weights_alone l j ref :
  ∀ n ij (h : heap) pre ws,
    h !!! ref = pre ++ ws → length pre = ij → length ws = n →
    ∃ h' : heap,
      merge_weights [] l j ref ij n h = Ok h' ∧
      h' !!! ref = pre ++ (merge_alone <$> ws) ∧
      ∀ l', l' ≠ ref → h' !!! l' = h !!! l'.
Proof.
  induction n as [|n IH]; intros ij h pre ws Hl Hpre Hn; simpl.
  - destruct ws; [|done]. exists h. by rewrite Hl.
  - destruct ws as [|w ws]; [done|]. simpl in Hn.
    assert (Hw : (h !!! ref) !! ij = Some w).
    { rewrite Hl, lookup_app_r by lia. by replace (ij - length pre) with 0 by lia. }
    unfold index. rewrite Hw. simpl.
    change (py_div (w + 0) (float_of_nat 1)) with (Ok (merge_alone w)). simpl.
    set (h1 := <[ref := <[ij := merge_alone w]> (h !!! ref)]> h).
    assert (Hl1 : h1 !!! ref = (pre ++ [merge_alone w]) ++ ws).
    { unfold h1. rewrite lookup_total_insert_eq, Hl, <- Hpre.
      rewrite insert_app_r_alt by lia. replace (length pre - length pre) with 0 by lia.
      simpl. by rewrite <- app_assoc. }
    destruct (IH (S ij) h1 (pre ++ [merge_alone w]) ws Hl1) as (h' & Hrun & Hat & Hframe).
    { rewrite length_app. simpl. lia. }
    { lia. }
    exists h'. split; [done|]. split.
    + by rewrite Hat, <- app_assoc.
    + intros l' Hne. rewrite Hframe by done. unfold h1.
      by rewrite lookup_total_insert_ne.
Qed.

Lemma merge_neuron_alone l j neuron (h : heap) :
  ∃ h' : heap,
    merge_neuron [] l j neuron h = Ok (merged_alone neuron, h') ∧
    h' !!! weights neuron = merge_alone <$> (h !!! weights neuron) ∧
    ∀ l', l' ≠ weights neuron → h' !!! l' = h !!! l'.
Proof.
  destruct (merge_weights_alone l j (weights neuron) (length (h !!! weights neuron))
              0 h [] (h !!! weights neuron)) as (h' & Hrun & Hat & Hframe); try done.
  exists h'. unfold merge_neuron. rewrite Hrun. simpl. by repeat split.
Qed.

Lemma merge_neurons_alone l ns :
  ∀ j (h : heap), NoDup (weights <$> ns) →
    ∃ h' : heap,
      merge_neurons [] l j ns h = Ok (merged_alone <$> ns, h') ∧
      (∀ n, n ∈ ns → h' !!! weights n = merge_alone <$> (h !!! weights n)) ∧
      ∀ l', l' ∉ (weights <$> ns) → h' !!! l' = h !!! l'.
Proof.
  induction ns as [|neuron ns IH]; intros j h Hnd; simpl.
  - exists h. split; [done|]. split; [|done]. by intros n ?%elem_of_nil.
  - rewrite fmap_cons in Hnd. apply NoDup_cons in Hnd as [Hnot Hnd].
    destruct (merge_neuron_alone l j neuron h) as (h1 & -> & Hat1 & Hframe1). simpl.
    destruct (IH (S j) h1 Hnd) as (h' & -> & Hat & Hframe). simpl.
    exists h'. split; [done|]. split.
    + intros n [->|Hn]%elem_of_cons.
      * by rewrite Hframe.
      * rewrite Hat by done. rewrite Hframe1; [done|].
        intros Heq. apply Hnot. rewrite <- Heq. by apply list_elem_of_fmap_2.
    + intros l' [Hne Hl']%not_elem_of_cons. rewrite Hframe, Hframe1; done.
Qed.

Lemma merge_layers_alone ls :
  ∀ l (h : heap), NoDup (ls ≫= λ layer, weights <$> neurons layer) →
    ∃ h' : heap,
      merge_layers [] l ls h = Ok (merged_layer_alone <$> ls, h') ∧
      (∀ layer n, layer ∈ ls → n ∈ neurons layer →
         h' !!! weights n = merge_alone <$> (h !!! weights n)) ∧
      ∀ l', l' ∉ (ls ≫= λ layer, weights <$> neurons layer) → h' !!! l' = h !!! l'.
Proof.
  induction ls as [|layer ls IH]; intros l h Hnd; simpl.
  - exists h. split; [done|]. split; [|done]. by intros layer n ?%elem_of_nil.
  - rewrite bind_cons in Hnd. apply NoDup_app in Hnd as (Hnd1 & Hdisj & Hnd2).
    destruct (merge_neurons_alone l (neurons layer) 0 h Hnd1) as (h1 & -> & Hat1 & Hframe1).
    simpl.
    destruct (IH (S l) h1 Hnd2) as (h' & -> & Hat & Hframe). simpl.
    exists h'. split; [done|]. split.
    + intros layer' n [->|Hlayer]%elem_of_cons Hn.
      * rewrite Hframe; [by apply Hat1|]. apply Hdisj. by apply list_elem_of_fmap_2.
      * rewrite (Hat layer' n Hlayer Hn). rewrite Hframe1; [done|].
        intros Hin. apply (Hdisj _ Hin). apply list_elem_of_bind.
        exists layer'. split; [by apply list_elem_of_fmap_2|done].
    + intros l' [Hl1 Hl2]%not_elem_of_app. rewrite Hframe, Hframe1; done.
Qed.

(** ** Where an [IndexError] can come from *)

Lemma sum_value_loop_Raise (h : heap) j zs :
  ∀ acc e, sum_value_loop h j zs acc = Raise e → e = IndexError NextWeights.
Proof.
  induction zs as [|[d l] zs IH]; intros acc e; simpl; [done|].
  intros [H|(w & _ & H)]%bind_Raise.
  - by apply index_Raise in H as [_ ->].
  - by apply IH in H.
Qed.

Lemma compute_delta_Raise isOut act target nld nlw (h : heap) j neuron e :
  compute_delta isOut act target nld nlw h j neuron = Raise e →
  e = IndexError TargetOutput ∨ e = IndexError NextWeights.
Proof.
  unfold compute_delta. destruct isOut; [destruct (String.eqb _ _)|];
    intros [H|(x & _ & H)]%bind_Raise; try done.
  - left. by apply index_Raise in H as [_ ->].
  - left. by apply index_Raise in H as [_ ->].
  - right. by apply sum_value_loop_Raise in H.
Qed.

Lemma update_threshold_Raise lr delta unsupervised isOut j neuron rho_estimates e :
  update_threshold lr delta unsupervised isOut j neuron rho_estimates = Raise e →
  unsupervised && negb isOut = true ∧ length rho_estimates ≤ j ∧
  e = IndexError RhoEstimates.
Proof.
  unfold update_threshold. destruct (unsupervised && negb isOut); [|done].
  intros [H|(x & _ & H)]%bind_Raise; [|done].
  by apply index_Raise in H as [? ->].
Qed.

Section NoRhoError.
Variables (lr : float) (unsupervised : bool) (target : list float).

Lemma train_neuron_Raise isOut act nld nlw j neuron s e :
  train_neuron lr unsupervised isOut act target nld nlw j neuron s = Raise e →
  e = IndexError RhoEstimates →
  unsupervised && negb isOut = true ∧ length (cur_rho s) ≤ j.
Proof.
  unfold train_neuron. intros [H|(delta & _ & H)]%bind_Raise Hrho.
  { apply compute_delta_Raise in H as [->| ->]; discriminate. }
  apply bind_Raise in H as [H|(h' & _ & H)].
  { apply update_weights_Raise in H as [-> _]. discriminate. }
  apply bind_Raise in H as [H|([thr rho'] & _ & H)]; [|done].
  by apply update_threshold_Raise in H as (? & ? & _).
Qed.

Lemma train_neurons_no_rho_error isOut act nld nlw ns :
  ∀ j s,
    (unsupervised && negb isOut = true → j + length ns ≤ length (cur_rho s)) →
    train_neurons lr unsupervised isOut act target nld nlw j ns s
    ≠ Raise (IndexError RhoEstimates).
Proof.
  induction ns as [|n ns IH]; intros j s Hfit; simpl; [done|].
  intros [H|(s1 & H1 & H)]%bind_Raise.
  - apply train_neuron_Raise in H as [Hmode Hle]; [|done].
    specialize (Hfit Hmode). simpl in Hfit. lia.
  - revert H. apply IH. intros Hmode. specialize (Hfit Hmode). simpl in Hfit.
    apply train_neuron_inv in H1 as (delta & h' & thr & rho' & _ & _ & Ht & ->). simpl.
    apply update_threshold_rho_length in Ht. lia.
Qed.

(** A pass that is still to visit [ls] does not run off the sparsity
    estimates when none of the non-output layers among [ls] is wider than
    the list. *)
Lemma backward_layers_no_rho_error ls :
  ∀ p,
    Forall (λ layer, width layer ≤ length (pass_rho p))
      (if isOutputLayer p then tail ls else ls) →
    backward_layers lr unsupervised target ls p ≠ Raise (IndexError RhoEstimates).
Proof.
  induction ls as [|layer ls IH]; intros p Hfit; simpl; [done|].
  intros [H|(p1 & H1 & H)]%bind_Raise.
  - unfold backward_layer in H. apply bind_Raise in H as [H|(s & _ & H)]; [|done].
    revert H. apply train_neurons_no_rho_error. simpl.
    intros [_ Hout%negb_true_iff]%andb_true_iff. rewrite Hout in Hfit.
    by apply Forall_cons in Hfit as [? _].
  - revert H. apply IH.
    apply backward_layer_inv in H1 as (s & Hs & ->). simpl.
    apply train_layer_shape in Hs as (_ & _ & _ & -> & _).
    destruct (isOutputLayer p); [done|]. by apply Forall_cons in Hfit as [_ ?].
Qed.

Lemma backward_layers_shape ls :
  ∀ p p', backward_layers lr unsupervised target ls p = Ok p' →
    width <$> done_layers p' = (width <$> done_layers p) ++ (width <$> ls) ∧
    length (pass_rho p') = length (pass_rho p) ∧
    ∀ l, length (pass_store p' !!! l) = length (pass_store p !!! l).
Proof.
  induction ls as [|layer ls IH]; intros p p' H; simpl in H.
  - injection H as <-. by rewrite app_nil_r.
  - inv_Ok. apply backward_layer_inv in Hstep as (s & Hs & ->).
    apply IH in H as (-> & -> & Hlen). simpl.
    apply train_layer_shape in Hs as (_ & _ & Hn & Hrho & Hlen').
    rewrite fmap_app, <- app_assoc. simpl. unfold width at 2. simpl.
    rewrite Hn. repeat split; [done|]. intros l. by rewrite Hlen, Hlen'.
Qed.

(** The backward pass keeps the widths of the layers and the number of
    sparsity estimates. *)
Lemma backward_pass_shape w rho_estimates w' rho' :
  backward_pass lr unsupervised target w rho_estimates = Ok (w', rho') →
  widths (network w') = widths (network w) ∧ length rho' = length rho_estimates.
Proof.
  unfold backward_pass. intros H. inv_Ok. subst w' rho'.
  apply backward_layers_shape in Hstep as (Hw & Hrho & _). simpl in *.
  split; [|done]. unfold widths. simpl.
  by rewrite fmap_reverse, Hw, fmap_reverse, reverse_involutive.
Qed.

Lemma backward_pass_no_rho_error w rho_estimates :
  hidden_fit (length rho_estimates) (widths (network w)) →
  backward_pass lr unsupervised target w rho_estimates ≠ Raise (IndexError RhoEstimates).
Proof.
  unfold backward_pass, hidden_fit, widths.
  intros Hfit [H|(p & _ & H)]%bind_Raise; [|done].
  revert H. apply backward_layers_no_rho_error. simpl.
  rewrite <- fmap_reverse, <- fmap_tail in Hfit. by apply Forall_fmap in Hfit.
Qed.
End NoRhoError.

Section TrainNoRhoError.
Variable compute_network_output : world → list float → result world.
(** The forward pass keeps the widths of the layers. *)
Hypothesis forward_widths : ∀ w x w',
  compute_network_output w x = Ok w' → widths (network w') = widths (network w).
Variables (lr : float) (unsupervised : bool).

Local Abbreviation fit st := (hidden_fit (length st.2) (widths (network st.1))).

Lemma train_example_fit st training_example :
  fit st →
  train_example compute_network_output lr unsupervised st training_example
    ≠ Raise (IndexError RhoEstimates) ∧
  ∀ st', train_example compute_network_output lr unsupervised st training_example = Ok st' →
    widths (network st'.1) = widths (network st.1) ∧ length st'.2 = length st.2.
Proof using forward_widths.
  intros Hfit. unfold train_example. split.
  - intros [H|(w1 & Hfwd & H)]%bind_Raise; [by apply outside_no_rho_error in H|].
    apply outside_Ok in Hfwd.
    revert H. apply backward_pass_no_rho_error.
    by rewrite (forward_widths _ _ _ Hfwd).
  - intros [w' rho'] (w1 & Hfwd%outside_Ok & H)%bind_Ok. simpl.
    apply backward_pass_shape in H as [-> ->].
    by rewrite (forward_widths _ _ _ Hfwd).
Qed.

Lemma train_examples_fit training_examples :
  ∀ st, fit st →
    train_examples compute_network_output lr unsupervised training_examples st
      ≠ Raise (IndexError RhoEstimates) ∧
    ∀ st', train_examples compute_network_output lr unsupervised training_examples st
           = Ok st' →
      widths (network st'.1) = widths (network st.1) ∧ length st'.2 = length st.2.
Proof using forward_widths.
  induction training_examples as [|ex exs IH]; intros st Hfit; simpl.
  - split; [done|]. by intros st' [= <-].
  - destruct (train_example_fit st ex Hfit) as [Hno Hshape]. split.
    + intros [H|(st1 & H1 & H)]%bind_Raise; [done|].
      destruct (Hshape st1 H1) as [Hw Hr].
      revert H. apply IH. by rewrite Hw, Hr.
    + intros st' (st1 & H1 & H)%bind_Ok.
      destruct (Hshape st1 H1) as [Hw Hr].
      destruct (IH st1) as [_ Hshape']; [by rewrite Hw, Hr|].
      destruct (Hshape' st' H) as [-> ->]. done.
Qed.

Lemma train_iterations_fit training_examples n :
  ∀ st, fit st →
    train_iterations compute_network_output lr unsupervised training_examples n st
      ≠ Raise (IndexError RhoEstimates).
Proof using forward_widths.
  induction n as [|n IH]; intros st Hfit; simpl; [done|].
  destruct (train_examples_fit training_examples st Hfit) as [Hno Hshape].
  intros [H|(st1 & H1 & H)]%bind_Raise; [done|].
  destruct (Hshape st1 H1) as [Hw Hr].
  revert H. apply IH. by rewrite Hw, Hr.
Qed.

End TrainNoRhoError.

(** [train] on a narrow network never runs off the sparsity estimates. *)
Lemma train_narrow_no_rho_error compute_network_output self w training_examples n :
  (∀ w x w', compute_network_output w x = Ok w' →
             widths (network w') = widths (network w)) →
  narrow (network w) →
  train compute_network_output self w training_examples n true
    ≠ Raise (IndexError RhoEstimates).
Proof.
  intros Hwidths Hnarrow. unfold train.
  intros [H|(rho_estimates & Hinit & H)]%bind_Raise.
  { unfold init_rho_estimates in H.
    apply bind_Raise in H as [H|(? & _ & H)]; [|done].
    by apply index_Raise in H as [_ [=]]. }
  apply bind_Raise in H as [H|([w' rho'] & _ & H)].
  - revert H. apply train_iterations_fit; [done|]. simpl.
    unfold init_rho_estimates in Hinit.
    inv_Ok. subst rho_estimates. rewrite length_replicate.
    unfold narrow, widths in *.
    destruct (layers (network w)) as [|l0 ls]; [done|].
    simpl in Hstep. by injection Hstep as <-.
  - apply bind_Raise in H as [H|(? & _ & H)]; [|done].
    unfold last_iteration_counter in H. by destruct (Z.to_nat n).
Qed.

(** ** When the backward pass returns *)

Lemma sum_value_loop_refs_Ok (h : heap) j :
  ∀ nd nw acc,
    Forall (λ l, j < length (h !!! l)) nw →
    is_Ok (sum_value_loop h j (zip nd nw) acc).
Proof.
  induction nd as [|d nd IH]; intros [|l nw] acc Hin; simpl; try by eexists.
  apply Forall_cons in Hin as [Hl Hin].
  destruct (lookup_lt_is_Some_2 (h !!! l) j Hl) as [w Hw].
  unfold index. rewrite Hw. simpl. by apply IH.
Qed.

Lemma compute_delta_Ok isOut act target nld nlw (h : heap) j neuron :
  (isOut = true → j < length target) →
  (isOut = false → Forall (λ l, j < length (h !!! l)) nlw) →
  is_Ok (compute_delta isOut act target nld nlw h j neuron).
Proof.
  intros Hout Hhid. unfold compute_delta. destruct isOut.
  - destruct (lookup_lt_is_Some_2 target j (Hout eq_refl)) as [t Ht].
    unfold index. rewrite Ht. simpl. destruct (String.eqb _ _); by eexists.
  - destruct (sum_value_loop_refs_Ok h j nld nlw 0%float (Hhid eq_refl)) as [x ->].
    by eexists.
Qed.

Lemma train_neuron_threshold_Raise lr unsupervised isOut act target nld nlw j neuron s
    delta h' e :
  compute_delta isOut act target nld nlw (cur_store s) j neuron = Ok delta →
  update_weights lr delta (weights neuron) 0 (inputs neuron) (cur_store s) = Ok h' →
  update_threshold lr delta unsupervised isOut j neuron (cur_rho s) = Raise e →
  train_neuron lr unsupervised isOut act target nld nlw j neuron s = Raise e.
Proof.
  intros H1 H2 H3. unfold train_neuron.
  rewrite H1. simpl. rewrite H2. simpl. by rewrite H3.
Qed.

Section Progress.
Variables (lr : float) (unsupervised isOut : bool).
Variables (act : ActivationFunction) (target nld : list float) (nlw : list loc).

Local Abbreviation loop := (train_neurons lr unsupervised isOut act target nld nlw).
Local Abbreviation sparse := (unsupervised && negb isOut).

(** With the shapes right, the loop over the neurons from index [j] on stops
    with an [IndexError] on [rho_estimates] when, in sparse mode, it gets to
    an index that has no estimate; otherwise it returns. *)
Lemma train_neurons_outcome ns :
  ∀ j s,
    (isOut = true → j + length ns ≤ length target) →
    (isOut = false → Forall (λ l, j + length ns ≤ length (cur_store s !!! l)) nlw) →
    Forall (λ n, length (inputs n) ≤ length (cur_store s !!! weights n)) ns →
    (sparse = true → j ≤ length (cur_rho s)) →
    (sparse = true → length (cur_rho s) < j + length ns →
       loop j ns s = Raise (IndexError RhoEstimates)) ∧
    ((sparse = true → j + length ns ≤ length (cur_rho s)) → is_Ok (loop j ns s)).
Proof.
  induction ns as [|n ns IH]; intros j s Hout Hhid Hins Hrho.
  { simpl. split; [|by eexists]. intros Hs ?. specialize (Hrho Hs). lia. }
  apply Forall_cons in Hins as [Hin Hins].
  destruct (compute_delta_Ok isOut act target nld nlw (cur_store s) j n) as [delta Hdelta].
  { intros Ho. specialize (Hout Ho). simpl in Hout. lia. }
  { intros Ho. eapply Forall_impl; [exact (Hhid Ho)|]. simpl. intros l ?. lia. }
  destruct (update_weights_Ok lr delta (weights n) (inputs n) (cur_store s) Hin)
    as (h' & Hw & _).
  assert (∀ l, length (h' !!! l) = length (cur_store s !!! l)) as Hlen.
  { intros l. by eapply update_weights_length. }
  destruct (update_threshold lr delta unsupervised isOut j n (cur_rho s))
    as [[thr rho']|e] eqn:Ht.
  - pose proof (update_threshold_rho_length _ _ _ _ _ _ _ _ _ Ht) as Hrho'.
    pose proof (train_neuron_intro _ _ _ _ _ _ _ _ _ _ _ _ _ _ Hdelta Hw Ht) as Hstep.
    simpl. rewrite Hstep. simpl.
    match goal with |- context [loop (S j) ns ?s1] => specialize (IH (S j) s1) end.
    simpl in IH. rewrite Hrho' in IH.
    assert (sparse = true → S j ≤ length (cur_rho s)) as Hnext.
    { intros Hs. unfold update_threshold in Ht. rewrite Hs in Ht. inv_Ok.
      by apply lookup_lt_Some in Hstep0. }
    destruct IH as [IHraise IHok].
    + intros Ho. specialize (Hout Ho). simpl in Hout. lia.
    + intros Ho. eapply Forall_impl; [exact (Hhid Ho)|].
      simpl. intros l ?. rewrite Hlen. lia.
    + eapply Forall_impl; [exact Hins|]. simpl. intros l ?. rewrite Hlen. lia.
    + done.
    + split.
      * intros Hs Hlt. apply IHraise; [done|lia].
      * intros Hfit. apply IHok. intros Hs. specialize (Hfit Hs). lia.
  - apply update_threshold_Raise in Ht as Hcase. destruct Hcase as (Hs & Hle & ->).
    simpl. rewrite (train_neuron_threshold_Raise _ _ _ _ _ _ _ _ _ _ _ _ _ Hdelta Hw Ht).
    simpl. split; [done|]. intros Hfit. specialize (Hfit Hs). lia.
Qed.
End Progress.

(** The shape predicates look at the lengths of the weight lists only. *)
Section SameLengths.
Variables h h' : heap.
Hypothesis Hlen : ∀ l, length (h' !!! l) = length (h !!! l).

Lemma fits_inputs_lengths layer : fits_inputs h layer → fits_inputs h' layer.
Proof using Hlen.
  unfold fits_inputs. intros H. eapply Forall_impl; [exact H|].
  intros n. simpl. by rewrite Hlen.
Qed.

Lemma fits_next_lengths nxt hid : fits_next h nxt hid → fits_next h' nxt hid.
Proof using Hlen.
  unfold fits_next. intros H. eapply Forall_impl; [exact H|].
  intros n. simpl. by rewrite Hlen.
Qed.

Lemma fits_chain_lengths ls : fits_chain h ls → fits_chain h' ls.
Proof using Hlen.
  unfold fits_chain. intros H. eapply Forall_impl; [exact H|].
  intros [nxt hid]. apply fits_next_lengths.
Qed.
End SameLengths.

Section PassOutcome.
Variables (lr : float) (unsupervised : bool) (target : list float).

(** With the shapes right, a pass in unsupervised mode stops with an
    [IndexError] on [rho_estimates] when a non-output layer it is still to
    visit has more neurons than there are estimates; a pass returns when
    there is no such layer or the mode is supervised. *)
Lemma backward_layers_outcome ls :
  ∀ p, pass_ready target ls p →
    let hidden := if isOutputLayer p then tail ls else ls in
    (unsupervised = true →
     Exists (λ layer, length (pass_rho p) < width layer) hidden →
       backward_layers lr unsupervised target ls p = Raise (IndexError RhoEstimates)) ∧
    ((unsupervised = true →
      Forall (λ layer, width layer ≤ length (pass_rho p)) hidden) →
       is_Ok (backward_layers lr unsupervised target ls p)).
Proof.
  induction ls as [|layer ls IH]; intros p (Hins & Hchain & Hhead) hidden.
  { subst hidden. simpl. split; [|by eexists].
    destruct (isOutputLayer p); by intros _ ?%Exists_nil. }
  apply Forall_cons in Hins as [Hin Hins].
  simpl in Hhead. apply Forall_cons in Hhead as [Hhead _].
  destruct (train_neurons_outcome lr unsupervised (isOutputLayer p)
              (activation_function layer)
              target (next_layer_deltas p) (next_layer_weights p) (neurons layer) 0
              {| done_neurons := []; this_layer_deltas := []; this_layer_weights := [];
                 cur_store := pass_store p; cur_rho := pass_rho p |})
    as [Hraise Hok]; simpl.
  { intros Ho. by rewrite Ho in Hhead. }
  { intros Ho. by rewrite Ho in Hhead. }
  { done. }
  { lia. }
  (* what the rest of the pass starts from, once this layer is done *)
  assert (∀ s, train_layer lr unsupervised (isOutputLayer p) target (next_layer_deltas p)
                 (next_layer_weights p) layer (pass_store p) (pass_rho p) = Ok s →
            ∃ p1, backward_layer lr unsupervised target layer p = Ok p1 ∧
                  isOutputLayer p1 = false ∧
                  length (pass_rho p1) = length (pass_rho p) ∧
                  pass_ready target ls p1) as Hnext.
  { intros s Hs. eexists. split; [unfold backward_layer; by rewrite Hs|]. simpl.
    destruct (train_layer_shape _ _ _ _ _ _ _ _ _ _ Hs) as (_ & Hrefs & _ & Hrho & Hlen).
    split; [done|]. split; [done|]. unfold pass_ready. simpl. split; [|split].
    - eapply Forall_impl; [exact Hins|]. intros l. by apply fits_inputs_lengths.
    - apply (fits_chain_lengths _ _ Hlen). unfold fits_chain in *.
      destruct ls as [|hid ls]; [by constructor|].
      simpl in Hchain. by apply Forall_cons in Hchain as [_ ?].
    - destruct ls as [|hid ls]; simpl; [by constructor|].
      constructor; [|by constructor].
      unfold fits_chain in Hchain. simpl in Hchain.
      apply Forall_cons in Hchain as [Hfit _]. simpl in Hfit.
      rewrite Hrefs. apply Forall_fmap.
      eapply Forall_impl; [exact Hfit|]. simpl. intros n. by rewrite Hlen. }
  assert (∀ p1, backward_layer lr unsupervised target layer p = Ok p1 →
            backward_layers lr unsupervised target (layer :: ls) p
            = backward_layers lr unsupervised target ls p1) as Hcont.
  { intros p1 Hp1. simpl. by rewrite Hp1. }
  destruct (isOutputLayer p) eqn:Hflag; subst hidden; simpl in *.
  - rewrite andb_false_r in Hraise, Hok.
    destruct Hok as [s Hs]; [done|].
    destruct (Hnext s Hs) as (p1 & Hp1 & Hflag1 & Hrho1 & Hready).
    destruct (IH p1 Hready) as [IHraise IHok].
    rewrite Hflag1, Hrho1 in IHraise, IHok. by rewrite (Hcont p1 Hp1).
  - rewrite andb_true_r in Hraise, Hok.
    destruct (decide (unsupervised = true ∧ length (pass_rho p) < width layer))
      as [[Hu Hwide]|Hfits].
    + split.
      * intros _ _. simpl. unfold backward_layer, train_layer.
        rewrite Hflag. by rewrite (Hraise Hu Hwide).
      * intros Hfit. specialize (Hfit Hu). apply Forall_cons in Hfit as [Hle _]. lia.
    + destruct Hok as [s Hs].
      { intros Hu. unfold width in Hfits.
        destruct (decide (length (neurons layer) ≤ length (pass_rho p))); [done|].
        exfalso. apply Hfits. split; [done|lia]. }
      destruct (Hnext s Hs) as (p1 & Hp1 & Hflag1 & Hrho1 & Hready).
      destruct (IH p1 Hready) as [IHraise IHok].
      rewrite Hflag1, Hrho1 in IHraise, IHok. rewrite (Hcont p1 Hp1). split.
      * intros Hu [?|?]%Exists_cons; [|by apply IHraise].
        exfalso. by apply Hfits.
      * intros Hfit. apply IHok. intros Hu. specialize (Hfit Hu).
        by apply Forall_cons in Hfit as [_ ?].
Qed.

(** The backward pass over a well-shaped network returns, in unsupervised
    mode provided no non-output layer has more neurons than there are
    sparsity estimates. *)
Lemma backward_pass_returns w rho_estimates :
  well_shaped w target →
  (unsupervised = true → hidden_fit (length rho_estimates) (widths (network w))) →
  is_Ok (backward_pass lr unsupervised target w rho_estimates).
Proof.
  intros (Hins & Hchain & Hout) Hfit. unfold backward_pass.
  destruct (backward_layers_outcome (reverse (layers (network w)))
              (pass_init (store w) rho_estimates)) as [_ [p Hp]].
  { done. }
  { simpl. intros Hu. specialize (Hfit Hu). unfold hidden_fit, widths in Hfit.
    rewrite <- fmap_reverse, <- fmap_tail in Hfit.
    by apply (Forall_fmap width (λ x, x ≤ length rho_estimates)). }
  rewrite Hp. by eexists.
Qed.

(** The backward pass over a well-shaped network that has a non-output layer
    with more neurons than there are sparsity estimates. *)
Lemma backward_pass_wide w rho_estimates :
  unsupervised = true →
  well_shaped w target →
  Exists (λ x, length rho_estimates < x) (tail (reverse (widths (network w)))) →
  backward_pass lr unsupervised target w rho_estimates = Raise (IndexError RhoEstimates).
Proof.
  intros Hu (Hins & Hchain & Hout) Hwide. unfold backward_pass.
  destruct (backward_layers_outcome (reverse (layers (network w)))
              (pass_init (store w) rho_estimates)) as [Hraise _].
  { done. }
  simpl in Hraise. rewrite Hraise; [done|done|].
  unfold widths in Hwide. rewrite <- fmap_reverse, <- fmap_tail in Hwide.
  by apply (Exists_fmap width (λ x, length rho_estimates < x)).
Qed.
End PassOutcome.

(** ** A pass that returned *)

Section ReturnedFits.
Variables (lr : float) (target : list float).

Lemma train_neurons_Ok_fits isOut act nld nlw ns :
  ∀ j s s',
    train_neurons lr true isOut act target nld nlw j ns s = Ok s' →
    isOut = false → ns ≠ [] → j + length ns ≤ length (cur_rho s).
Proof.
  induction ns as [|n ns IH]; intros j s s' H Hout Hne; [done|]. simpl in H.
  apply bind_Ok in H as (s1 & Hstep & H).
  apply train_neuron_inv in Hstep as (delta & h' & thr & rho' & _ & _ & Ht & ->).
  pose proof (update_threshold_rho_length _ _ _ _ _ _ _ _ _ Ht) as Hlen.
  unfold update_threshold in Ht. rewrite Hout in Ht. simpl in Ht.
  apply bind_Ok in Ht as (r0 & Hr0%index_Ok%lookup_lt_Some & _).
  destruct ns as [|n' ns]; [simpl; lia|].
  specialize (IH (S j) _ s' H Hout ltac:(done)). simpl in *. lia.
Qed.

(** In unsupervised mode a pass returns only if every non-output layer it
    visited has an estimate for each of its neurons. *)
Lemma backward_layers_Ok_fits ls :
  ∀ p p',
    backward_layers lr true target ls p = Ok p' →
    Forall (λ layer, width layer ≤ length (pass_rho p))
      (if isOutputLayer p then tail ls else ls).
Proof.
  induction ls as [|layer ls IH]; intros p p' H; simpl in H.
  { destruct (isOutputLayer p); by constructor. }
  apply bind_Ok in H as (p1 & Hstep & H).
  apply backward_layer_inv in Hstep as (s & Hs & ->).
  apply IH in H. simpl in H.
  destruct (train_layer_shape _ _ _ _ _ _ _ _ _ _ Hs) as (_ & _ & _ & Hrho & _).
  rewrite Hrho in H.
  destruct (isOutputLayer p) eqn:Hflag; [done|].
  constructor; [|done]. unfold width.
  destruct (neurons layer) as [|n ns] eqn:Hns; [simpl; lia|].
  unfold train_layer in Hs. rewrite Hns in Hs.
  by apply train_neurons_Ok_fits in Hs.
Qed.

Lemma backward_pass_Ok_fits w rho_estimates r :
  backward_pass lr true target w rho_estimates = Ok r →
  hidden_fit (length rho_estimates) (widths (network w)).
Proof.
  unfold backward_pass. intros (p & Hp & _)%bind_Ok.
  apply backward_layers_Ok_fits in Hp. simpl in Hp.
  unfold hidden_fit, widths. rewrite <- fmap_reverse, <- fmap_tail.
  by apply (Forall_fmap width (λ x, x ≤ length rho_estimates)).
Qed.
End ReturnedFits.

Lemma narrow_not_wide net : narrow net ↔ ¬ wide net.
Proof.
  unfold narrow, wide, hidden_fit. destruct (widths net) as [|k ws]; [tauto|].
  rewrite <- Forall_Exists_neg. split; intros H;
    (eapply Forall_impl; [exact H|]); simpl; intros x; lia.
Qed.

(** ** The forward pass of the examples *)

Lemma compute_outputs_length (h : heap) act input_vector ns :
  ∀ ns', compute_outputs h act input_vector ns = Ok ns' → length ns' = length ns.
Proof.
  induction ns as [|n ns IH]; intros ns' H; simpl in H.
  - by injection H as <-.
  - inv_Ok. subst ns'. simpl. f_equal. by apply IH.
Qed.

Lemma forward_layers_widths (h : heap) ls :
  ∀ input_vector ls',
    forward_layers h input_vector ls = Ok ls' → width <$> ls' = width <$> ls.
Proof.
  induction ls as [|layer ls IH]; intros input_vector ls' H; simpl in H.
  - by injection H as <-.
  - inv_Ok. subst ls'. simpl. f_equal.
    + unfold width. simpl. by eapply compute_outputs_length.
    + by eapply IH.
Qed.

Lemma forward_pass_widths w input_vector w' :
  forward_pass w input_vector = Ok w' → widths (network w') = widths (network w).
Proof.
  unfold forward_pass. intros H. inv_Ok. subst w'. unfold widths. simpl.
  by eapply forward_layers_widths.
Qed.

(** ** The examples of a run *)

Section Run.
Variable compute_network_output : world → list float → result world.
Variables (lr : float) (unsupervised : bool).

Lemma train_examples_app exs1 exs2 :
  ∀ st,
    train_examples compute_network_output lr unsupervised (exs1 ++ exs2) st
    = train_examples compute_network_output lr unsupervised exs1 st
      ≫= train_examples compute_network_output lr unsupervised exs2.
Proof.
  induction exs1 as [|ex exs1 IH]; intros st; simpl; [done|].
  destruct (train_example _ _ _ _ _); simpl; [apply IH|done].
Qed.

Lemma train_iterations_concat exs n :
  ∀ st,
    train_iterations compute_network_output lr unsupervised exs n st
    = train_examples compute_network_output lr unsupervised (concat (replicate n exs)) st.
Proof.
  induction n as [|n IH]; intros st; simpl; [done|].
  rewrite train_examples_app.
  destruct (train_examples _ _ _ exs st); simpl; [apply IH|done].
Qed.

(** A pass that returned ran the forward and the backward pass of each of
    its examples, each from what the example before it left. *)
Lemma train_examples_visit pre target input_vector post st st' :
  train_examples compute_network_output lr unsupervised
    (pre ++ (target, input_vector) :: post) st = Ok st' →
  ∃ w_k rho_k w1 w2 rho2,
    train_examples compute_network_output lr unsupervised pre st = Ok (w_k, rho_k) ∧
    compute_network_output w_k input_vector = Ok w1 ∧
    backward_pass lr unsupervised target w1 rho_k = Ok (w2, rho2) ∧
    train_examples compute_network_output lr unsupervised post (w2, rho2) = Ok st'.
Proof.
  rewrite train_examples_app. intros ([w_k rho_k] & Hpre & H)%bind_Ok.
  simpl in H. apply bind_Ok in H as ([w2 rho2] & Hex & Hpost).
  unfold train_example in Hex. simpl in Hex.
  apply bind_Ok in Hex as (w1 & Hfwd%outside_Ok & Hback).
  by exists w_k, rho_k, w1, w2, rho2.
Qed.
End Run.

(** Every example of a run of [train] that returned was visited. *)
Lemma train_run_visits compute_network_output self w0 training_examples n unsupervised
    self' w' pre target input_vector post :
  train compute_network_output self w0 training_examples n unsupervised = Ok (self', w') →
  concat (replicate (Z.to_nat n) training_examples) = pre ++ (target, input_vector) :: post →
  ∃ rho0 w1 rho_k w2 rho2,
    run_visits compute_network_output self w0 unsupervised rho0 pre target input_vector
      post w' w1 rho_k w2 rho2.
Proof.
  unfold train. intros H Hrun.
  apply bind_Ok in H as (rho0 & Hinit & H).
  apply bind_Ok in H as ([w'' rho_end] & Hloop & H).
  apply bind_Ok in H as (counter & _ & [= _ <-]).
  rewrite train_iterations_concat, Hrun in Hloop.
  apply train_examples_visit in Hloop as (w_k & rho_k & w1 & w2 & rho2 & ? & ? & ? & ?).
  exists rho0, w1, rho_k, w2, rho2. split; [done|]. by exists w_k, rho_end.
Qed.

(** The first example of a run finds the network as it was given, and the
    last one leaves it as [train] returns it. *)
Lemma run_visits_first compute_network_output self w0 unsupervised rho0 target
    input_vector post w' w1 rho_k w2 rho2 :
  run_visits compute_network_output self w0 unsupervised rho0 [] target input_vector
    post w' w1 rho_k w2 rho2 →
  compute_network_output w0 input_vector = Ok w1 ∧ rho_k = rho0.
Proof. intros (_ & w_k & rho_end & [= <- <-] & Hfwd & _). done. Qed.

Lemma run_visits_last compute_network_output self w0 unsupervised rho0 pre target
    input_vector w' w1 rho_k w2 rho2 :
  run_visits compute_network_output self w0 unsupervised rho0 pre target input_vector
    [] w' w1 rho_k w2 rho2 →
  w' = w2.
Proof. intros (_ & w_k & rho_end & _ & _ & _ & [= <- _]). done. Qed.

(** ** Where the pass leaves a layer *)

Section PassLayers.
Variables (lr : float) (unsupervised : bool) (target : list float).

Lemma backward_layers_done ls :
  ∀ p p', backward_layers lr unsupervised target ls p = Ok p' →
    ∃ visited, done_layers p' = done_layers p ++ visited ∧ length visited = length ls.
Proof.
  induction ls as [|layer ls IH]; intros p p' H; simpl in H.
  - injection H as <-. exists []. by rewrite app_nil_r.
  - apply bind_Ok in H as (p1 & H1 & H).
    apply backward_layer_inv in H1 as (s & _ & ->).
    apply IH in H as (visited & -> & Hlen). simpl.
    eexists (_ :: visited). rewrite <- app_assoc. split; [done|]. simpl. by rewrite Hlen.
Qed.

(** The layer at some place of the network: the state [p] in which the pass
    reaches it, and the place of the layer it leaves. *)
Lemma backward_pass_layer_at w rho_estimates before layer after w2 rho2 :
  layers (network w) = before ++ layer :: after →
  backward_pass lr unsupervised target w rho_estimates = Ok (w2, rho2) →
  ∃ p s,
    backward_layers lr unsupervised target (reverse after)
      (pass_init (store w) rho_estimates) = Ok p ∧
    train_layer lr unsupervised (isOutputLayer p) target
      (next_layer_deltas p) (next_layer_weights p) layer
      (pass_store p) (pass_rho p) = Ok s ∧
    layers (network w2) !! length before
    = Some {| neurons := done_neurons s;
              activation_function := activation_function layer |}.
Proof.
  unfold backward_pass. intros -> H.
  rewrite reverse_app, reverse_cons, <- app_assoc in H. simpl in H.
  apply bind_Ok in H as (pe & H & [= <- _]).
  rewrite backward_layers_app in H. apply bind_Ok in H as (p & Hp & H).
  simpl in H. apply bind_Ok in H as (p1 & H1 & H).
  apply backward_layer_inv in H1 as (s & Hs & ->).
  apply backward_layers_done in H as (visited & Hdone & Hlen). simpl in Hdone.
  exists p, s. split; [done|]. split; [done|]. simpl.
  rewrite Hdone, reverse_app, length_reverse in *.
  rewrite lookup_app_r; rewrite length_reverse; [|lia].
  rewrite Hlen, Nat.sub_diag, reverse_app. done.
Qed.
End PassLayers.

Lemma returned_Ok {A} (r : result A) : returned r = true → ∃ a, r = Ok a.
Proof. destruct r as [a|e]; [by exists a|done]. Qed.

(** ** The examples, run *)

(** One pass over one example, one Linear neuron: output 0.5, delta 0.5. *)
Example single_linear_trained :
  let r := from_Ok (trainer0, empty_world)
             (train forward_pass trainer0 (single Linear) single_examples 1 false) in
  weights_of r.2 = [[[0.25%float]]] ∧ thresholds_of r.2 = [[(-0.25)%float]] ∧
  iterations r.1 = Some 0%Z.
Proof. vm_compute. done. Qed.

Example train_no_pass :
  train forward_pass trainer0 (single Linear) single_examples 0 false
  = Raise UnboundLocalError.
Proof. vm_compute. reflexivity. Qed.

Example train_short_target :
  train forward_pass trainer0 (single Linear) [ ([], [1%float]) ] 1 false
  = Raise (IndexError TargetOutput).
Proof. vm_compute. reflexivity. Qed.

Example parallel_train_no_example :
  parallel_train forward_pass 4 id (single Linear) trainer0 [] 1 false None
  = Raise ZeroDivisionError.
Proof. vm_compute. reflexivity. Qed.

(** Three examples on four processors: three processes, one example each; the
    third is trained on the master network, and the three results are
    averaged. *)
Example parallel_train_three :
  let r := from_Ok (trainer0, empty_world)
             (parallel_train forward_pass 4 id (single Linear) trainer0
                (single_examples ++ single_examples ++ [ ([1%float], [1%float]) ])
                1 false None) in
  weights_of r.2 = [[[((0.75 + (0.0 + 0.25 + 0.25)) / 3)%float]]].
Proof. vm_compute. reflexivity. Qed.

(** ** The deltas *)

(** C1.  Every example [(target, input_vector)] of a run of [train] that
    returned had its forward pass, which left the network [w1], and then its
    backward pass, which starts at the output layer [out] with the flag set
    and empty accumulators.  The delta of the output neuron at index [j] is
    [local_output - target[j]] when the layer's activation function is named
    "Logistic", and [(local_output - target[j]) * derivative(local_output)]
    otherwise; it is the delta the neuron's threshold is updated with in the
    network [w2] the backward pass leaves. *)
Theorem C1_output_delta compute_network_output self w0 training_examples n unsupervised
    self' w' pre target input_vector post :
  train compute_network_output self w0 training_examples n unsupervised = Ok (self', w') →
  concat (replicate (Z.to_nat n) training_examples) = pre ++ (target, input_vector) :: post →
  ∃ rho0 w1 rho_k w2 rho2,
    run_visits compute_network_output self w0 unsupervised rho0 pre target input_vector
      post w' w1 rho_k w2 rho2 ∧
    ∀ hidden out, layers (network w1) = hidden ++ [out] →
      ∃ s,
        train_layer (learning_rate self) unsupervised true target [] [] out
          (store w1) rho_k = Ok s ∧
        layers (network w2) !! length hidden
        = Some {| neurons := done_neurons s;
                  activation_function := activation_function out |} ∧
        ∀ j neuron, neurons out !! j = Some neuron →
          ∃ t delta,
            target !! j = Some t ∧
            delta = (if String.eqb (name (activation_function out)) "Logistic"
                     then (local_output neuron - t)%float
                     else ((local_output neuron - t)
                           * derivative (activation_function out)
                               (local_output neuron))%float) ∧
            this_layer_deltas s !! j = Some delta ∧
            done_neurons s !! j
            = Some (with_threshold neuron
                      (threshold neuron - learning_rate self * (delta * 1))%float).
Proof.
  intros Htrain Hrun.
  destruct (train_run_visits _ _ _ _ _ _ _ _ _ _ _ _ Htrain Hrun)
    as (rho0 & w1 & rho_k & w2 & rho2 & Hvisit).
  exists rho0, w1, rho_k, w2, rho2. split; [done|].
  destruct Hvisit as (_ & w_k & rho_end & _ & _ & Hpass & _).
  intros hidden out Hls.
  destruct (backward_pass_layer_at _ _ _ _ _ hidden out [] _ _ Hls Hpass)
    as (p & s & [= <-] & Hs & Hat).
  simpl in Hs. exists s. split; [done|]. split; [done|].
  intros j neuron Hj.
  destruct (train_layer_step_at _ _ _ _ _ _ _ _ _ _ Hs j neuron Hj)
    as (s1 & delta & h' & thr & rho' & _ & Hdelta & _ & Hthr & Hd & Hn & _).
  unfold update_threshold in Hthr. rewrite andb_false_r in Hthr.
  injection Hthr as <- _.
  unfold compute_delta in Hdelta.
  destruct (String.eqb _ _); inv_Ok; subst; eexists a, _; by repeat split.
Qed.

Lemma C1_output_delta_witness :
  let w1 := primed (single Logistic) single_examples in
  ∃ self' w' s,
    train forward_pass trainer0 (single Logistic) single_examples 1 false = Ok (self', w') ∧
    layers (network w') !! 0
    = Some {| neurons := done_neurons s;
              activation_function := activation_function (layer_at w1 0) |} ∧
    ∀ j neuron, neurons (layer_at w1 0) !! j = Some neuron →
      ∃ t delta,
        [0%float] !! j = Some t ∧
        delta = (if String.eqb (name (activation_function (layer_at w1 0))) "Logistic"
                 then (local_output neuron - t)%float
                 else ((local_output neuron - t)
                       * derivative (activation_function (layer_at w1 0))
                           (local_output neuron))%float) ∧
        this_layer_deltas s !! j = Some delta ∧
        done_neurons s !! j
        = Some (with_threshold neuron
                  (threshold neuron - learning_rate trainer0 * (delta * 1))%float).
Proof.
  intros w1.
  destruct (returned_Ok (train forward_pass trainer0 (single Logistic) single_examples
                           1 false)) as [[self' w'] Hr].
  { vm_compute. reflexivity. }
  destruct (C1_output_delta forward_pass trainer0 (single Logistic) single_examples 1
              false self' w' [] [0%float] [1%float] [] Hr eq_refl)
    as (rho0 & w1' & rho_k & w2 & rho2 & Hvisit & Hat).
  destruct (run_visits_first _ _ _ _ _ _ _ _ _ _ _ _ _ Hvisit) as [Hfwd _].
  pose proof (run_visits_last _ _ _ _ _ _ _ _ _ _ _ _ _ Hvisit) as Hlast.
  assert (w1' = w1) as Hw1 by exact (f_equal (from_Ok empty_world) (eq_sym Hfwd)).
  rewrite Hw1 in Hat. rewrite <- Hlast in Hat.
  destruct (Hat [] (layer_at w1 0) eq_refl) as (s & _ & Hlayer & Hn).
  exists self', w', s. split; [exact Hr|]. split; [exact Hlayer|exact Hn].
Defined.

(** C2.  Every example [(target, input_vector)] of a run of [train] that
    returned had its forward pass, which left the network [w1], and then its
    backward pass.  In it a hidden layer [hid] is visited right after the next
    more-forward layer [nxt], and the delta of its neuron at index [j] is
    [derivative(local_output)] times the sum, over the neurons [k] of [nxt] in
    order, of neuron [k]'s weight on connection [j] times neuron [k]'s delta.
    The weights are read when neuron [j] is visited, from the heap of the
    state [s1] the neurons before it left; every neuron of [nxt] has a weight
    on connection [j]; and when the neurons of the network own their weight
    lists, these are the lists as the visit of [nxt] left them.  It is the
    delta the neuron's threshold is updated with in the network [w2] the
    backward pass leaves. *)
Theorem C2_hidden_delta compute_network_output self w0 training_examples n unsupervised
    self' w' pre target input_vector post :
  train compute_network_output self w0 training_examples n unsupervised = Ok (self', w') →
  concat (replicate (Z.to_nat n) training_examples) = pre ++ (target, input_vector) :: post →
  ∃ rho0 w1 rho_k w2 rho2,
    run_visits compute_network_output self w0 unsupervised rho0 pre target input_vector
      post w' w1 rho_k w2 rho2 ∧
    ∀ before hid nxt after, layers (network w1) = before ++ hid :: nxt :: after →
      ∃ p s_nxt s_hid,
        backward_layers (learning_rate self) unsupervised target (reverse after)
          (pass_init (store w1) rho_k) = Ok p ∧
        train_layer (learning_rate self) unsupervised (isOutputLayer p) target
          (next_layer_deltas p) (next_layer_weights p) nxt
          (pass_store p) (pass_rho p) = Ok s_nxt ∧
        train_layer (learning_rate self) unsupervised false target
          (this_layer_deltas s_nxt) (this_layer_weights s_nxt) hid
          (cur_store s_nxt) (cur_rho s_nxt) = Ok s_hid ∧
        length (this_layer_deltas s_nxt) = length (neurons nxt) ∧
        layers (network w2) !! length before
        = Some {| neurons := done_neurons s_hid;
                  activation_function := activation_function hid |} ∧
        ∀ j neuron, neurons hid !! j = Some neuron →
          ∃ s1 delta thr rho',
            train_neurons (learning_rate self) unsupervised false
              (activation_function hid) target
              (this_layer_deltas s_nxt) (this_layer_weights s_nxt) 0
              (take j (neurons hid))
              {| done_neurons := []; this_layer_deltas := []; this_layer_weights := [];
                 cur_store := cur_store s_nxt; cur_rho := cur_rho s_nxt |} = Ok s1 ∧
            delta = (derivative (activation_function hid) (local_output neuron)
                     * float_sum (delta_terms (cur_store s1) j (neurons nxt)
                                    (this_layer_deltas s_nxt)))%float ∧
            this_layer_deltas s_hid !! j = Some delta ∧
            (∀ nk, nk ∈ neurons nxt → j < length (cur_store s1 !!! weights nk)) ∧
            (owns_weights (network w1) →
             ∀ nk, nk ∈ neurons nxt →
               cur_store s1 !!! weights nk = cur_store s_nxt !!! weights nk) ∧
            update_threshold (learning_rate self) delta unsupervised false j neuron
              (cur_rho s1) = Ok (thr, rho') ∧
            done_neurons s_hid !! j = Some (with_threshold neuron thr) ∧
            (unsupervised = false →
             thr = (threshold neuron - learning_rate self * (delta * 1))%float).
Proof.
  intros Htrain Hrun.
  destruct (train_run_visits _ _ _ _ _ _ _ _ _ _ _ _ Htrain Hrun)
    as (rho0 & w1 & rho_k & w2 & rho2 & Hvisit).
  exists rho0, w1, rho_k, w2, rho2. split; [done|].
  destruct Hvisit as (_ & w_k & rho_end & _ & _ & Hpass & _).
  intros before hid nxt after Hls.
  destruct (backward_pass_layer_at _ _ _ _ _ before hid (nxt :: after) _ _ Hls Hpass)
    as (p' & s_hid & Hp' & Hhid & Hat).
  rewrite reverse_cons, backward_layers_app in Hp'.
  apply bind_Ok in Hp' as (p & Hp & Hstep). simpl in Hstep.
  apply bind_Ok in Hstep as (p1 & Hp1 & [= <-]).
  apply backward_layer_inv in Hp1 as (s_nxt & Hnxt & ->). simpl in Hhid.
  exists p, s_nxt, s_hid. do 3 (split; [done|]).
  destruct (train_layer_shape _ _ _ _ _ _ _ _ _ _ Hnxt) as (Hlen & Hrefs & _).
  split; [done|]. split; [done|]. intros j neuron Hj.
  destruct (train_layer_step_at _ _ _ _ _ _ _ _ _ _ Hhid j neuron Hj)
    as (s1 & delta & h' & thr & rho' & H1 & _ & _ & Hthr & Hd & Hn & _).
  rewrite Hrefs in Hhid, H1 |- *.
  destruct (hidden_delta_at _ _ _ _ _ _ _ _ _ _ _ Hlen Hhid Hj) as (s1' & H1' & Hd' & Hin).
  rewrite H1 in H1'. injection H1' as <-.
  rewrite Hd in Hd'. injection Hd' as Hdelta.
  exists s1, delta, thr, rho'. do 4 (split; [done|]). split; [|split; [done|split; [done|]]].
  - intros Hown nk Hnk.
    destruct (owns_weights_adjacent _ _ _ _ _ Hls Hown) as (_ & Hsep & _).
    rewrite (train_neurons_frame _ _ _ _ _ _ _ _ _ _ _ _ H1); [done|].
    intros (n0 & Heq & Hn0)%list_elem_of_fmap.
    apply (Hsep n0 nk); [|done|done].
    by apply (subseteq_take j).
  - intros ->. unfold update_threshold in Hthr. simpl in Hthr. by injection Hthr as <- _.
Qed.

Lemma C2_hidden_delta_witness :
  let w1 := primed (two_layer Logistic) two_layer_examples in
  ∃ self' w' s_nxt s_hid,
    train forward_pass trainer0 (two_layer Logistic) two_layer_examples 1 false
      = Ok (self', w') ∧
    layers (network w') !! 0
    = Some {| neurons := done_neurons s_hid;
              activation_function := activation_function (layer_at w1 0) |} ∧
    ∀ j neuron, neurons (layer_at w1 0) !! j = Some neuron →
      ∃ s1 delta,
        delta = (derivative (activation_function (layer_at w1 0)) (local_output neuron)
                 * float_sum (delta_terms (cur_store s1) j (neurons (layer_at w1 1))
                                (this_layer_deltas s_nxt)))%float ∧
        this_layer_deltas s_hid !! j = Some delta ∧
        done_neurons s_hid !! j
        = Some (with_threshold neuron
                  (threshold neuron - learning_rate trainer0 * (delta * 1))%float).
Proof.
  intros w1.
  destruct (returned_Ok (train forward_pass trainer0 (two_layer Logistic)
                           two_layer_examples 1 false)) as [[self' w'] Hr].
  { vm_compute. reflexivity. }
  destruct (C2_hidden_delta forward_pass trainer0 (two_layer Logistic) two_layer_examples
              1 false self' w' [] [1%float] [0; 1]%float [] Hr eq_refl)
    as (rho0 & w1' & rho_k & w2 & rho2 & Hvisit & Hat).
  destruct (run_visits_first _ _ _ _ _ _ _ _ _ _ _ _ _ Hvisit) as [Hfwd _].
  pose proof (run_visits_last _ _ _ _ _ _ _ _ _ _ _ _ _ Hvisit) as Hlast.
  assert (w1' = w1) as Hw1 by exact (f_equal (from_Ok empty_world) (eq_sym Hfwd)).
  rewrite Hw1 in Hat. rewrite <- Hlast in Hat.
  destruct (Hat [] (layer_at w1 0) (layer_at w1 1) [] eq_refl)
    as (p & s_nxt & s_hid & _ & _ & _ & _ & Hlayer & Hn).
  exists self', w', s_nxt, s_hid. split; [exact Hr|]. split; [exact Hlayer|].
  intros j neuron Hj.
  destruct (Hn j neuron Hj)
    as (s1 & delta & thr & rho' & _ & Hdelta & Hd & _ & _ & _ & Hdone & Hthr).
  exists s1, delta. split; [exact Hdelta|]. split; [exact Hd|].
  rewrite <- (Hthr eq_refl). exact Hdone.
Defined.

(** ** The parameter updates *)



(** ** The unsupervised mode *)



(** ** Aliasing of the weight lists *)

(** C9.  Every example [(target, input_vector)] of a run of [train] that
    returned had its forward pass, which left the network [w1] with the
    weights in [store w1], and then its backward pass.  In it the accumulator
    [this_layer_weights] of a layer [nxt] holds the weight lists of [nxt]'s
    neurons themselves, and each of them is updated right after it was
    recorded.  So when the layer [hid] behind [nxt] is visited, the weight of
    neuron [k] on connection [j] that enters the delta of [hid]'s neuron [j]
    is one gradient step away from the weight the forward pass used: the sum
    runs over [stepped_terms].  It is the delta the neuron's threshold is
    updated with in the network [w2] the backward pass leaves. *)
Theorem C9_recurrence_reads_updated_weights compute_network_output self w0
    training_examples n unsupervised self' w' pre target input_vector post :
  train compute_network_output self w0 training_examples n unsupervised = Ok (self', w') →
  concat (replicate (Z.to_nat n) training_examples) = pre ++ (target, input_vector) :: post →
  ∃ rho0 w1 rho_k w2 rho2,
    run_visits compute_network_output self w0 unsupervised rho0 pre target input_vector
      post w' w1 rho_k w2 rho2 ∧
    ∀ before hid nxt after,
      layers (network w1) = before ++ hid :: nxt :: after →
      owns_weights (network w1) →
      ∃ p s_nxt s_hid,
        backward_layers (learning_rate self) unsupervised target (reverse after)
          (pass_init (store w1) rho_k) = Ok p ∧
        train_layer (learning_rate self) unsupervised (isOutputLayer p) target
          (next_layer_deltas p) (next_layer_weights p) nxt
          (pass_store p) (pass_rho p) = Ok s_nxt ∧
        train_layer (learning_rate self) unsupervised false target
          (this_layer_deltas s_nxt) (this_layer_weights s_nxt) hid
          (cur_store s_nxt) (cur_rho s_nxt) = Ok s_hid ∧
        this_layer_weights s_nxt = weights <$> neurons nxt ∧
        (∀ k nk delta_k,
           neurons nxt !! k = Some nk → this_layer_deltas s_nxt !! k = Some delta_k →
           (cur_store s_nxt !!! weights nk)
           = gradient_step (learning_rate self) delta_k (store w1 !!! weights nk)
               (inputs nk)) ∧
        layers (network w2) !! length before
        = Some {| neurons := done_neurons s_hid;
                  activation_function := activation_function hid |} ∧
        ∀ j neuron, neurons hid !! j = Some neuron →
          ∃ delta thr,
            delta = (derivative (activation_function hid) (local_output neuron)
                     * float_sum (stepped_terms (learning_rate self) (store w1) j
                                    (neurons nxt) (this_layer_deltas s_nxt)))%float ∧
            this_layer_deltas s_hid !! j = Some delta ∧
            done_neurons s_hid !! j = Some (with_threshold neuron thr) ∧
            (unsupervised = false →
             thr = (threshold neuron - learning_rate self * (delta * 1))%float).
Proof.
  intros Htrain Hrun.
  destruct (train_run_visits _ _ _ _ _ _ _ _ _ _ _ _ Htrain Hrun)
    as (rho0 & w1 & rho_k & w2 & rho2 & Hvisit).
  exists rho0, w1, rho_k, w2, rho2. split; [done|].
  destruct Hvisit as (_ & w_k & rho_end & _ & _ & Hpass & _).
  intros before hid nxt after Hls Hown.
  destruct (backward_pass_layer_at _ _ _ _ _ before hid (nxt :: after) _ _ Hls Hpass)
    as (p' & s_hid & Hp' & Hhid & Hlayer).
  rewrite reverse_cons, backward_layers_app in Hp'.
  apply bind_Ok in Hp' as (p & Hp & Hstep). simpl in Hstep.
  apply bind_Ok in Hstep as (p1 & Hp1 & [= <-]).
  apply backward_layer_inv in Hp1 as (s_nxt & Hnxt & ->). simpl in Hhid.
  exists p, s_nxt, s_hid. do 3 (split; [done|]).
  destruct (train_layer_shape _ _ _ _ _ _ _ _ _ _ Hnxt) as (Hlen & Hrefs & _).
  split; [done|].
  destruct (owns_weights_adjacent _ _ _ _ _ Hls Hown) as (Hnd & Hsep & Hafter).
  assert (∀ k nk delta_k,
            neurons nxt !! k = Some nk → this_layer_deltas s_nxt !! k = Some delta_k →
            (cur_store s_nxt !!! weights nk)
            = gradient_step (learning_rate self) delta_k (store w1 !!! weights nk)
                (inputs nk)) as Hstepped.
  { intros k nk delta_k Hk Hdk.
    rewrite (train_layer_store_at _ _ _ _ _ _ _ _ _ _ Hnxt k nk delta_k Hnd Hk Hdk).
    rewrite (backward_layers_frame _ _ _ _ _ _ _ Hp); [done|].
    apply Hafter. by apply list_elem_of_lookup_2 in Hk. }
  split; [done|]. split; [done|]. intros j neuron Hj.
  destruct (train_layer_step_at _ _ _ _ _ _ _ _ _ _ Hhid j neuron Hj)
    as (s1 & delta & h' & thr & rho' & H1 & _ & _ & Hthr & Hd & Hn & _).
  rewrite Hrefs in Hhid, H1.
  destruct (hidden_delta_at _ _ _ _ _ _ _ _ _ _ _ Hlen Hhid Hj) as (s1' & H1' & Hd' & _).
  rewrite H1 in H1'. injection H1' as <-.
  rewrite Hd in Hd'. injection Hd' as Hdelta.
  exists delta, thr. split; [|split; [done|split; [done|]]].
  - rewrite Hdelta. do 2 f_equal. unfold delta_terms, stepped_terms.
    apply zip_with_ext_lookup. intros k d nk Hdk Hk. unfold weight_on.
    rewrite (train_neurons_frame _ _ _ _ _ _ _ _ _ _ _ _ H1).
    + simpl. by rewrite (Hstepped k nk d).
    + intros (n0 & Heq & Hn0)%list_elem_of_fmap.
      apply (Hsep n0 nk); [|by apply list_elem_of_lookup_2 in Hk|done].
      by apply (subseteq_take j).
  - intros ->. unfold update_threshold in Hthr. simpl in Hthr. by injection Hthr as <- _.
Qed.

Lemma C9_recurrence_reads_updated_weights_witness :
  let w1 := primed (two_layer Logistic) two_layer_examples in
  ∃ self' w' s_nxt s_hid,
    train forward_pass trainer0 (two_layer Logistic) two_layer_examples 1 false
      = Ok (self', w') ∧
    layers (network w') !! 0
    = Some {| neurons := done_neurons s_hid;
              activation_function := activation_function (layer_at w1 0) |} ∧
    ∀ j neuron, neurons (layer_at w1 0) !! j = Some neuron →
      ∃ delta,
        delta = (derivative (activation_function (layer_at w1 0)) (local_output neuron)
                 * float_sum (stepped_terms (learning_rate trainer0) (store w1) j
                                (neurons (layer_at w1 1))
                                (this_layer_deltas s_nxt)))%float ∧
        this_layer_deltas s_hid !! j = Some delta ∧
        done_neurons s_hid !! j
        = Some (with_threshold neuron
                  (threshold neuron - learning_rate trainer0 * (delta * 1))%float).
Proof.
  intros w1.
  destruct (returned_Ok (train forward_pass trainer0 (two_layer Logistic)
                           two_layer_examples 1 false)) as [[self' w'] Hr].
  { vm_compute. reflexivity. }
  destruct (C9_recurrence_reads_updated_weights forward_pass trainer0 (two_layer Logistic)
              two_layer_examples 1 false self' w' [] [1%float] [0; 1]%float [] Hr eq_refl)
    as (rho0 & w1' & rho_k & w2 & rho2 & Hvisit & Hat).
  destruct (run_visits_first _ _ _ _ _ _ _ _ _ _ _ _ _ Hvisit) as [Hfwd _].
  pose proof (run_visits_last _ _ _ _ _ _ _ _ _ _ _ _ _ Hvisit) as Hlast.
  assert (w1' = w1) as Hw1 by exact (f_equal (from_Ok empty_world) (eq_sym Hfwd)).
  rewrite Hw1 in Hat. rewrite <- Hlast in Hat.
  destruct (Hat [] (layer_at w1 0) (layer_at w1 1) [] eq_refl)
    as (p & s_nxt & s_hid & _ & _ & _ & _ & _ & Hlayer & Hn).
  { apply (bool_decide_unpack _). vm_compute. reflexivity. }
  exists self', w', s_nxt, s_hid. split; [exact Hr|]. split; [exact Hlayer|].
  intros j neuron Hj.
  destruct (Hn j neuron Hj) as (delta & thr & Hdelta & Hd & Hdone & Hthr).
  exists delta. split; [exact Hdelta|]. split; [exact Hd|].
  rewrite <- (Hthr eq_refl). exact Hdone.
Defined.

(** On the two-layer example: the delta of the hidden neuron 1 as the pass
    computes it, and what it would be with the output neuron's weight as the
    forward pass used it. *)
Example two_layer_updated_weight_matters :
  let w := primed (two_layer Logistic) two_layer_examples in
  let s_nxt := from_Ok empty_layer_state
                 (train_layer 0.5 false true [1%float] [] [] (layer_at w 1) (store w) []) in
  let s_hid := from_Ok empty_layer_state
                 (train_layer 0.5 false false [1%float] (this_layer_deltas s_nxt)
                    (this_layer_weights s_nxt) (layer_at w 0) (cur_store s_nxt) []) in
  let with_weights h :=
    (derivative Logistic (local_output (neuron_at w 0 1))
     * float_sum (delta_terms h 1 (neurons (layer_at w 1)) (this_layer_deltas s_nxt)))%float in
  this_layer_deltas s_hid !! 1 = Some (with_weights (cur_store s_nxt)) ∧
  with_weights (cur_store s_nxt) ≠ with_weights (store w).
Proof.
  split; [vm_compute; reflexivity|].
  intros H. vm_compute in H. discriminate H.
Qed.


(** ** The trainer's attribute *)

(** C4.  When [train] returns from [n > 0] passes, the attribute
    [iterations] holds [n - 1], the last value of the loop variable
    [iteration_counter], not the number [n] of passes that were made. *)
Theorem C4_iterations_attribute compute_network_output self w training_examples n
    unsupervised self' w' :
  (0 < n)%Z →
  train compute_network_output self w training_examples n unsupervised = Ok (self', w') →
  iterations self' = Some (n - 1)%Z ∧ iterations self' ≠ Some n.
Proof.
  intros Hn Htrain. unfold train in Htrain. inv_Ok.
  destruct a0 as [w1 rho1]. inv_Ok. subst self'. simpl.
  unfold last_iteration_counter in Hstep1.
  destruct (Z.to_nat n) as [|k] eqn:Hk; [done|]. injection Hstep1 as <-.
  assert (Z.of_nat k = n - 1)%Z as -> by lia.
  split; [done|]. intros [= ?]. lia.
Qed.

Lemma C4_iterations_attribute_witness :
  ∃ self' w',
    train forward_pass trainer0 (single Linear) single_examples 1 false = Ok (self', w') ∧
    iterations self' = Some 0%Z ∧ iterations self' ≠ Some 1%Z.
Proof.
  destruct (returned_Ok (train forward_pass trainer0 (single Linear) single_examples 1 false))
    as [[self' w'] Hr].
  { vm_compute. reflexivity. }
  exists self', w'. split; [exact Hr|].
  exact (C4_iterations_attribute forward_pass trainer0 (single Linear) single_examples 1
           false self' w' eq_refl Hr).
Defined.

(** ** The Logistic activation *)

(** C7.  [math.exp(-1000.0)] underflows to [0.0] without raising, so for the
    input [1000.0] no [OverflowError] is caught and [activate] returns
    [1.0 / (1 + 0.0)], which is exactly [1.0] and not [0.9999999999999];
    [math.exp(1000.0)] raises, and for the input [-1000.0] the handler
    returns [0.0000000000001].  Whenever [math.exp] returns [e] and
    [1 + e] is not zero, [activate] returns [1.0 / (1 + e)]; whenever it
    raises [OverflowError], [activate] returns the small bound for a negative
    input and the large bound otherwise. *)
Theorem C7_logistic_activate_bounds (math_exp : float → result float) :
  math_exp (-1000)%float = Ok 0%float →
  math_exp 1000%float = Raise OverflowError →
  Logistic_activate math_exp 1000 = Ok 1%float ∧
  1%float ≠ 0.9999999999999%float ∧
  Logistic_activate math_exp (-1000) = Ok 0.0000000000001%float ∧
  (∀ x e, math_exp (-1.0 * x)%float = Ok e → ((1 + e) =? 0)%float = false →
     Logistic_activate math_exp x = Ok (1.0 / (1 + e))%float) ∧
  (∀ x, math_exp (-1.0 * x)%float = Raise OverflowError →
     Logistic_activate math_exp x
     = Ok (if (x <? 0)%float then 0.0000000000001 else 0.9999999999999)%float).
Proof.
  intros Hunder Hover. unfold Logistic_activate. repeat split.
  - change (-1.0 * 1000)%float with (-1000)%float. by rewrite Hunder.
  - discriminate.
  - change (-1.0 * -1000)%float with 1000%float. by rewrite Hover.
  - intros x e -> He. unfold py_div. by rewrite He.
  - intros x ->. by destruct (x <? 0)%float.
Qed.

Lemma C7_logistic_activate_bounds_witness :
  Logistic_activate exp_model 1000 = Ok 1%float ∧
  Logistic_activate exp_model (-1000) = Ok 0.0000000000001%float.
Proof.
  destruct (C7_logistic_activate_bounds exp_model) as (H1 & _ & H2 & _).
  - vm_compute. reflexivity.
  - vm_compute. reflexivity.
  - split; [exact H1|exact H2].
Defined.

(** ** parallel_train *)

(** C6 (as the code has it).  When the workers are done, each network taken
    from the queue is what [train] made of a copy of the network as it was at
    the call, on the chunk of one of the jobs; the caller's own worker is
    handed the network itself, so the network the merge starts from is what
    [train] made of it on the last chunk. *)
Theorem C6_merge_starts_from_trained compute_network_output cpu_count arrival w trainer
    training_examples n unsupervised num_processes trainer' w1 trained_networks :
  (∀ q, arrival q ≡ₚ q) →
  parallel_train_workers compute_network_output cpu_count arrival w trainer
    training_examples n unsupervised num_processes = Ok (trainer', w1, trained_networks) →
  let num := effective_processes cpu_count (length training_examples) num_processes in
  let chunk_amount := Z.quot (Z.of_nat (length training_examples)) num in
  train compute_network_output trainer w
    (slice_Z training_examples ((num - 1) * chunk_amount)
       ((num - 1) * chunk_amount + chunk_amount)) n unsupervised = Ok (trainer', w1) ∧
  length trained_networks = Z.to_nat (num - 1) ∧
  ∀ tn, tn ∈ trained_networks →
    ∃ (i : nat) trainer_i,
      (Z.of_nat i < num - 1)%Z ∧
      train compute_network_output trainer w
        (slice_Z training_examples (Z.of_nat i * chunk_amount)
           (Z.of_nat i * chunk_amount + chunk_amount))
        n unsupervised = Ok (trainer_i, tn).
Proof.
  intros Harrival Hrun num chunk_amount. unfold parallel_train_workers in Hrun.
  fold num in Hrun. destruct (num =? 0)%Z; [done|]. simpl in Hrun. fold chunk_amount in Hrun.
  apply bind_Ok in Hrun as ([[t1 w1'] q] & Hworker & Hrun).
  apply bind_Ok in Hrun as (tns & Hget & [= <- <- <-]).
  unfold _parallel_train_worker in Hworker.
  apply bind_Ok in Hworker as ([t2 w2] & Htrain & [= <- <- <-]).
  split; [done|].
  match type of Hget with
  | get_results _ (start_jobs _ _ _ ?chunks _ _ _) _ = _ =>
      destruct (start_jobs_queue compute_network_output w trainer n unsupervised chunks [])
        as (outs & Hq & Hlen & Hall)
  end.
  rewrite Hq in Hget. simpl in Hget. unfold get_results in Hget.
  rewrite length_fmap, length_seq in Hlen, Hall.
  destruct (length outs <? Z.to_nat (num - 1)) eqn:Hlt; [done|].
  apply Nat.ltb_ge in Hlt. injection Hget as <-.
  pose proof (Permutation_length (Harrival outs)) as Hperm.
  rewrite take_ge by lia. split; [lia|].
  intros tn Htn. rewrite (Harrival outs) in Htn.
  apply list_elem_of_lookup in Htn as [i Hi].
  destruct (Forall2_lookup_r _ _ _ _ _ (Hall ltac:(lia)) Hi) as (chunk & Hchunk & [t Htn]).
  rewrite list_lookup_fmap in Hchunk.
  destruct (seq 0 (Z.to_nat (num - 1)) !! i) as [i'|] eqn:Hseq; [|done].
  apply lookup_seq in Hseq as [-> Hlt']. injection Hchunk as <-.
  exists i, t. split; [lia|done].
Qed.

Lemma C6_merge_starts_from_trained_witness :
  ∃ trainer' w1,
    train forward_pass trainer0 (single Linear)
      (slice single_examples 0 1) 1 false = Ok (trainer', w1).
Proof.
  destruct (returned_Ok (parallel_train_workers forward_pass 4 id (single Linear) trainer0
                           single_examples 1 false (Some 1%Z)))
    as [[[trainer' w1] tns] Hr].
  { vm_compute. reflexivity. }
  exists trainer', w1.
  exact (proj1 (C6_merge_starts_from_trained forward_pass 4 id (single Linear) trainer0
                  single_examples 1 false (Some 1%Z) trainer' w1 tns
                  (λ q, Permutation_refl q) Hr)).
Defined.

(** C6 fails as stated: with one process on the one-neuron Linear network, the
    weight the merge starts from is the trained [0.25], not the [0.5] the
    network had at the call. *)
Lemma C6_counterexample :
  let before_merge :=
    from_Ok (trainer0, empty_world, [])
      (parallel_train_workers forward_pass 4 id (single Linear) trainer0
         single_examples 1 false (Some 1%Z)) in
  returned (parallel_train_workers forward_pass 4 id (single Linear) trainer0
              single_examples 1 false (Some 1%Z)) = true ∧
  weights_of (single Linear) = [[[0.5%float]]] ∧
  weights_of before_merge.1.2 = [[[0.25%float]]] ∧
  weights_of before_merge.1.2 ≠ weights_of (single Linear).
Proof.
  repeat split; try (vm_compute; reflexivity).
  intros H. vm_compute in H. discriminate H.
Qed.

(** C5 (as the code has it).  With [num_processes = 1] and at least one
    example, no job is started and nothing is taken from the queue; the
    network itself is trained in place on the whole example list, and the
    merge then replaces each of its weights and thresholds [p] by
    [(p + 0.0) / 1].  The values from before the call take no part. *)
Theorem C5_single_process compute_network_output cpu_count arrival w trainer
    training_examples n unsupervised trainer' w1 :
  training_examples ≠ [] →
  train compute_network_output trainer w training_examples n unsupervised
    = Ok (trainer', w1) →
  owns_weights (network w1) →
  ∃ w',
    parallel_train_workers compute_network_output cpu_count arrival w trainer
      training_examples n unsupervised (Some 1%Z) = Ok (trainer', w1, []) ∧
    parallel_train compute_network_output cpu_count arrival w trainer training_examples
      n unsupervised (Some 1%Z) = Ok (trainer', w') ∧
    weights_of w'
      = (λ layer : list (list float), (λ ws : list float, merge_alone <$> ws) <$> layer)
          <$> weights_of w1 ∧
    thresholds_of w' = (λ layer : list float, merge_alone <$> layer) <$> thresholds_of w1.
Proof.
  intros Hne Htrain Hown.
  assert (parallel_train_workers compute_network_output cpu_count arrival w trainer
            training_examples n unsupervised (Some 1%Z) = Ok (trainer', w1, [])) as Hworkers.
  { assert (effective_processes cpu_count (length training_examples) (Some 1%Z) = 1%Z)
      as Hnum.
    { unfold effective_processes. simpl.
      destruct (Z.ltb_spec (Z.of_nat (length training_examples)) 1); [|done].
      destruct training_examples; [done|]. simpl in *. lia. }
    unfold parallel_train_workers. rewrite Hnum, Z.quot_1_r.
    change (1 =? 0)%Z with false. change (Z.to_nat (1 - 1)) with 0.
    cbn [mbind result_bind seq fmap list_fmap start_jobs].
    assert (∀ a b, a = 0%Z → b = Z.of_nat (length training_examples) →
              slice_Z training_examples a b = training_examples) as Hall.
    { intros a b -> ->. unfold slice_Z, slice_index, slice. simpl.
      destruct (Z.ltb_spec (Z.of_nat (length training_examples)) 0); [lia|].
      rewrite Z.min_id, Nat2Z.id, Z.min_l by lia.
      change (Z.to_nat 0) with 0. rewrite Nat.sub_0_r, drop_0. by rewrite take_ge by lia. }
    rewrite Hall by lia.
    unfold _parallel_train_worker. by rewrite Htrain. }
  destruct (merge_layers_alone (layers (network w1)) 0 (store w1) Hown)
    as (h' & Hmerge & Hat & _).
  eexists. split; [done|]. split.
  { unfold parallel_train. rewrite Hworkers. simpl. unfold merge. rewrite Hmerge. done. }
  unfold weights_of, thresholds_of. simpl. split.
  - rewrite <- !list_fmap_compose. apply list_fmap_ext. intros l layer Hl. simpl.
    rewrite <- !list_fmap_compose. apply list_fmap_ext. intros j neuron Hj. simpl.
    apply (Hat layer neuron); by eapply list_elem_of_lookup_2.
  - rewrite <- !list_fmap_compose. apply list_fmap_ext. intros l layer Hl. simpl.
    by rewrite <- !list_fmap_compose.
Qed.

Lemma C5_single_process_witness :
  ∃ trainer' w',
    parallel_train forward_pass 4 id (single Linear) trainer0 single_examples 1 false (Some 1%Z)
      = Ok (trainer', w').
Proof.
  set (r := from_Ok (trainer0, empty_world)
              (train forward_pass trainer0 (single Linear) single_examples 1 false)).
  destruct (C5_single_process forward_pass 4 id (single Linear) trainer0 single_examples 1
              false r.1 r.2) as (w' & _ & Hp & _).
  - discriminate.
  - vm_compute. reflexivity.
  - apply (bool_decide_unpack _). vm_compute. reflexivity.
  - exists r.1, w'. exact Hp.
Defined.

(** C5 fails as stated: on the one-neuron Linear network the weight was [0.5]
    at the call and [train] makes it [0.25]; [parallel_train] with one process
    leaves [0.25], not the mean [0.375] of the two. *)
Lemma C5_counterexample :
  let original := single Linear in
  let trained :=
    (from_Ok (trainer0, empty_world)
       (train forward_pass trainer0 original single_examples 1 false)).2 in
  let result :=
    (from_Ok (trainer0, empty_world)
       (parallel_train forward_pass 4 id original trainer0 single_examples 1 false
          (Some 1%Z))).2 in
  returned (parallel_train forward_pass 4 id original trainer0 single_examples 1 false
              (Some 1%Z)) = true ∧
  weights_of result = [[[0.25%float]]] ∧
  weights_halfway original trained = [[[0.375%float]]] ∧
  weights_of result ≠ weights_halfway original trained ∧
  thresholds_of result ≠ thresholds_halfway original trained.
Proof.
  repeat split; try (vm_compute; reflexivity);
    intros H; vm_compute in H; discriminate H.
Qed.

(** ** The range of the sparsity estimates *)

(** C10.  [train] in unsupervised mode indexes [rho_estimates], which has one
    entry per neuron of the first layer, with the neuron index of every
    non-output layer.
    (1) A network is [narrow] exactly when it is not [wide].
    (2) On a narrow network no access is out of range: whatever the examples
    and the number of passes, [train] does not raise the [IndexError] of
    [rho_estimates[j]] (the forward pass keeping the layers' widths).
    (3) On a wide network, with at least one pass and one example, the call
    fails: [train] does not return (the forward pass keeping the widths on
    that example, if it returns).
    (4) If moreover the forward pass accepts the example and the shapes are
    right, so that nothing else fails first, [train] stops with the
    [IndexError] of [rho_estimates[j]]. *)
Theorem C10_rho_estimates_range :
  (∀ net, narrow net ↔ ¬ wide net) ∧
  (∀ compute_network_output self w training_examples n,
     (∀ w x w', compute_network_output w x = Ok w' →
                widths (network w') = widths (network w)) →
     narrow (network w) →
     train compute_network_output self w training_examples n true
       ≠ Raise (IndexError RhoEstimates)) ∧
  (∀ compute_network_output self w training_example training_examples n,
     (0 < n)%Z →
     (∀ w1, compute_network_output w training_example.2 = Ok w1 →
            widths (network w1) = widths (network w)) →
     wide (network w) →
     ¬ is_Ok (train compute_network_output self w
                (training_example :: training_examples) n true)) ∧
  (∀ compute_network_output self w training_example training_examples n w1,
     (0 < n)%Z →
     compute_network_output w training_example.2 = Ok w1 →
     widths (network w1) = widths (network w) →
     well_shaped w1 training_example.1 →
     wide (network w) →
     train compute_network_output self w (training_example :: training_examples) n true
       = Raise (IndexError RhoEstimates)).
Proof.
  split; [exact narrow_not_wide|]. split; [|split].
  - intros cno self w exs n Hwidths Hnarrow.
    by apply train_narrow_no_rho_error.
  - intros cno self w ex exs n Hn Hwidths Hwide [[self' w'] Htrain].
    apply (proj1 (narrow_not_wide (network w))); [|done].
    unfold train, init_rho_estimates in Htrain.
    apply bind_Ok in Htrain as (rho_estimates & Hinit & Htrain).
    apply bind_Ok in Hinit as (l0 & Hl0%index_Ok & [= <-]).
    apply bind_Ok in Htrain as ([w1 rho1] & Hrun & _).
    destruct (Z.to_nat n) as [|k] eqn:Hk; [lia|]. simpl in Hrun.
    apply bind_Ok in Hrun as (st1 & Hex & _).
    apply bind_Ok in Hex as (st0 & Hex & _).
    unfold train_example in Hex. simpl in Hex.
    apply bind_Ok in Hex as (w0 & Hfwd%outside_Ok & Hpass).
    apply backward_pass_Ok_fits in Hpass.
    rewrite length_replicate, (Hwidths w0 Hfwd) in Hpass.
    unfold narrow, widths in *.
    destruct (layers (network w)) as [|l0' ls]; [done|].
    simpl in Hl0. by injection Hl0 as ->.
  - intros cno self w ex exs n w1 Hn Hfwd Hwidths Hshape Hwide.
    unfold train, init_rho_estimates, wide, widths in *.
    destruct (layers (network w)) as [|l0 ls] eqn:Hls; [done|]. simpl.
    destruct (Z.to_nat n) as [|k] eqn:Hk; [lia|]. simpl.
    unfold train_example. simpl. rewrite Hfwd. simpl.
    rewrite (backward_pass_wide _ _ _ _ _ eq_refl Hshape); [done|].
    rewrite length_replicate. unfold widths. by rewrite Hwidths.
Qed.

Lemma C10_rho_estimates_range_witness :
  train forward_pass trainer0 (two_layer Logistic) two_layer_examples 1 true
    ≠ Raise (IndexError RhoEstimates) ∧
  ¬ is_Ok (train forward_pass trainer0 (widening Linear) single_examples 1 true) ∧
  train forward_pass trainer0 (widening Linear) single_examples 1 true
    = Raise (IndexError RhoEstimates).
Proof.
  destruct C10_rho_estimates_range as (_ & Hnarrow & Hfails & Hwide). split; [|split].
  - apply Hnarrow.
    + exact forward_pass_widths.
    + apply (bool_decide_unpack _). vm_compute. reflexivity.
  - apply (Hfails forward_pass trainer0 (widening Linear) ([0%float], [1%float]) [] 1%Z).
    + reflexivity.
    + intros w1. apply forward_pass_widths.
    + apply (bool_decide_unpack _). vm_compute. reflexivity.
  - apply (Hwide forward_pass trainer0 (widening Linear) ([0%float], [1%float]) [] 1%Z
             (primed (widening Linear) single_examples)).
    + reflexivity.
    + vm_compute. reflexivity.
    + vm_compute. reflexivity.
    + apply (bool_decide_unpack _). vm_compute. reflexivity.
    + apply (bool_decide_unpack _). vm_compute. reflexivity.
Defined.

(** * Beyond the claims *)

(** ** sign *)

Lemma SFeqb_refl_not_nan (a : spec_float) :
  SFeqb a a = match a with S754_nan => false | _ => true end.
Proof.
  unfold SFeqb. destruct a as [s|s| |s m e]; simpl; try done.
  - by destruct s.
  - rewrite Z.compare_refl, Pos.compare_cont_refl. by destruct s.
Qed.

(** X1.  [sign] returns -1, 0 or 1 according to the comparison with zero that
    holds (0 for both zeros), and for a NaN, for which none holds, the name
    [sign] is unbound at the [return]: it raises [UnboundLocalError]. *)
Theorem sign_outcome (x : float) :
  (is_nan x = true ∧ sign x = Raise UnboundLocalError) ∨
  (is_nan x = false ∧
   ∃ s, sign x = Ok s ∧
        (s = (-1)%Z ↔ (x <? 0)%float = true) ∧
        (s = 0%Z ↔ (x =? 0)%float = true) ∧
        (s = 1%Z ↔ (0 <? x)%float = true)).
Proof.
  unfold sign, is_nan.
  rewrite !FloatAxioms.ltb_spec, !FloatAxioms.eqb_spec, SFeqb_refl_not_nan.
  change (FloatOps.Prim2SF 0) with (S754_zero false).
  destruct (FloatOps.Prim2SF x) as [s|s| |s m e]; try destruct s; simpl;
    try (left; split; reflexivity);
    right; (split; [reflexivity|]); eexists; (split; [reflexivity|]);
    repeat split; intros; done.
Qed.

(** ** train: no pass, no example, repeated passes *)

Section TrainEdges.
Variable compute_network_output : world → list float → result world.
Variables (self : Backpropagation) (w : world).

Lemma init_rho_estimates_Ok unsupervised :
  (unsupervised = true → layers (network w) ≠ []) →
  is_Ok (init_rho_estimates unsupervised (network w)).
Proof.
  unfold init_rho_estimates. destruct unsupervised; [|by eexists].
  intros H. destruct (layers (network w)); [by destruct H|by eexists].
Qed.

Lemma train_iterations_no_example lr unsupervised n st :
  train_iterations compute_network_output lr unsupervised [] n st = Ok st.
Proof. induction n as [|n IH]; simpl; done. Qed.

(** X2.  [train] asked for no pass (zero or a negative count) does not
    return: the loop variable it reads after the loop was never bound, so it
    raises [UnboundLocalError], whatever the examples and without a forward
    pass; in unsupervised mode on a network without layers it is the
    [IndexError] of [network.layers[0]] instead, for any count. *)
Theorem train_without_pass training_examples n unsupervised :
  (layers (network w) = [] →
   train compute_network_output self w training_examples n true
   = Raise (IndexError Layers0)) ∧
  ((n ≤ 0)%Z → (unsupervised = true → layers (network w) ≠ []) →
   train compute_network_output self w training_examples n unsupervised = Raise UnboundLocalError).
Proof.
  split.
  - intros Hls. unfold train, init_rho_estimates. by rewrite Hls.
  - intros Hn Hls. unfold train.
    destruct (init_rho_estimates_Ok unsupervised Hls) as [rho_estimates ->]. simpl.
    unfold last_iteration_counter.
    replace (Z.to_nat n) with 0 by lia. done.
Qed.

(** X3.  [train] given an empty example list and a positive count [n]
    returns the network as it was, every weight and threshold included, and
    sets [iterations] to [n - 1]; the forward pass is never run. *)
Theorem train_without_example n unsupervised :
  (0 < n)%Z → (unsupervised = true → layers (network w) ≠ []) →
  train compute_network_output self w [] n unsupervised
  = Ok ({| learning_rate := learning_rate self; momentum_coef := momentum_coef self;
           iterations := Some (n - 1)%Z |}, w).
Proof.
  intros Hn Hls. unfold train.
  destruct (init_rho_estimates_Ok unsupervised Hls) as [rho_estimates ->]. simpl.
  rewrite train_iterations_no_example. simpl.
  unfold last_iteration_counter.
  destruct (Z.to_nat n) as [|k] eqn:Hk; [lia|]. simpl.
  by replace (Z.of_nat k) with (n - 1)%Z by lia.
Qed.

(** X4.  Passes compose: [n > 0] passes over an example list leave the same
    network, or raise the same exception, as one pass over the list repeated
    [n] times; only the attribute [iterations] tells them apart. *)
Theorem train_passes_concat training_examples n unsupervised :
  (0 < n)%Z →
  match train compute_network_output self w training_examples n unsupervised,
        train compute_network_output self w
          (concat (replicate (Z.to_nat n) training_examples)) 1 unsupervised with
  | Ok (self1, w1), Ok (self2, w2) =>
      w1 = w2 ∧ iterations self1 = Some (n - 1)%Z ∧ iterations self2 = Some 0%Z
  | Raise e1, Raise e2 => e1 = e2
  | _, _ => False
  end.
Proof.
  intros Hn. unfold train.
  destruct (init_rho_estimates unsupervised (network w)) as [rho_estimates|e]; simpl;
    [|done].
  rewrite train_iterations_concat.
  change (Z.to_nat 1) with 1. simpl train_iterations.
  destruct (train_examples _ _ _ _ _) as [[w1 rho1]|e]; simpl; [|done].
  unfold last_iteration_counter. change (Z.to_nat 1) with 1.
  destruct (Z.to_nat n) as [|k] eqn:Hk; [lia|]. simpl.
  repeat split. f_equal. lia.
Qed.
End TrainEdges.

Lemma train_without_pass_witness :
  train forward_pass trainer0 empty_world two_layer_examples 3 true
  = Raise (IndexError Layers0) ∧
  train forward_pass trainer0 (two_layer Logistic) two_layer_examples 0 true
  = Raise UnboundLocalError.
Proof.
  split.
  - apply (proj1 (train_without_pass forward_pass trainer0 empty_world
                    two_layer_examples 3 true)).
    reflexivity.
  - apply (proj2 (train_without_pass forward_pass trainer0 (two_layer Logistic)
                    two_layer_examples 0 true)).
    + lia.
    + discriminate.
Defined.

Lemma train_without_example_witness :
  train forward_pass trainer0 (two_layer Logistic) [] 3 true
  = Ok ({| learning_rate := 0.5; momentum_coef := 0; iterations := Some 2%Z |},
        two_layer Logistic).
Proof.
  apply (train_without_example forward_pass trainer0 (two_layer Logistic) 3 true).
  - lia.
  - discriminate.
Defined.

Lemma train_passes_concat_witness :
  match train forward_pass trainer0 (single Linear) single_examples 2 false,
        train forward_pass trainer0 (single Linear)
          (concat (replicate (Z.to_nat 2) single_examples)) 1 false with
  | Ok (self1, w1), Ok (self2, w2) =>
      w1 = w2 ∧ iterations self1 = Some (2 - 1)%Z ∧ iterations self2 = Some 0%Z
  | Raise e1, Raise e2 => e1 = e2
  | _, _ => False
  end.
Proof.
  apply (train_passes_concat forward_pass trainer0 (single Linear) single_examples 2 false).
  lia.
Defined.

(** ** What the backward pass and train leave alone *)

Lemma with_thresholds_same ns :
  ∀ thrs, length thrs = length ns →
    Forall2 same_but_threshold ns (zip_with with_threshold ns thrs).
Proof.
  induction ns as [|n ns IH]; intros [|thr thrs] Hlen; simpl in *; try done.
  constructor; [done|]. apply IH. lia.
Qed.

Lemma train_neurons_supervised_rho lr isOut act target nld nlw ns :
  ∀ j s s',
    train_neurons lr false isOut act target nld nlw j ns s = Ok s' →
    cur_rho s' = cur_rho s.
Proof.
  induction ns as [|n ns IH]; intros j s s' H; simpl in H.
  - by injection H as <-.
  - inv_Ok. apply IH in H as ->.
    apply train_neuron_inv in Hstep as (delta & h' & thr & rho' & _ & _ & Ht & ->).
    simpl. unfold update_threshold in Ht. simpl in Ht. by injection Ht as _ <-.
Qed.

Lemma backward_layers_same lr unsupervised target ls :
  ∀ p p',
    backward_layers lr unsupervised target ls p = Ok p' →
    ∃ ls', done_layers p' = done_layers p ++ ls' ∧
           Forall2 same_but_thresholds ls ls' ∧
           (unsupervised = false → pass_rho p' = pass_rho p).
Proof.
  induction ls as [|layer ls IH]; intros p p' H; simpl in H.
  - injection H as <-. exists []. rewrite app_nil_r. repeat split. constructor.
  - inv_Ok. apply backward_layer_inv in Hstep as (s & Hs & ->).
    apply IH in H as (ls' & -> & Hsame & Hrho). simpl in *.
    eexists (_ :: ls'). rewrite <- app_assoc. split; [done|]. split.
    + constructor; [|done]. split; [done|]. simpl.
      apply train_neurons_shape in Hs as (_ & thrs & _ & Hthrs & _ & _ & -> & _).
      simpl. by apply with_thresholds_same.
    + intros ->. rewrite Hrho by done.
      by apply train_neurons_supervised_rho in Hs.
Qed.

Lemma backward_pass_same lr unsupervised target w rho_estimates w' rho' :
  backward_pass lr unsupervised target w rho_estimates = Ok (w', rho') →
  Forall2 same_but_thresholds (layers (network w)) (layers (network w')) ∧
  (∀ l, length (store w' !!! l) = length (store w !!! l)).
Proof.
  unfold backward_pass. intros H. inv_Ok. subst w' rho'. simpl.
  destruct (backward_layers_same _ _ _ _ _ _ Hstep) as (ls' & Hdone & Hsame & Hrho).
  destruct (backward_layers_shape _ _ _ _ _ _ Hstep) as (_ & Hlen & Hlens).
  simpl in *. subst. split; [|done].
  apply Forall2_reverse in Hsame. by rewrite reverse_involutive in Hsame.
Qed.

(** X5.  A backward pass that returns has changed thresholds and the contents
    of the network's own weight lists, nothing else: the layers, their
    activation functions, every neuron's weight list, cached output and
    inputs are the same; no weight list changed its length; a list that no
    neuron of the network holds is untouched; the sparsity estimates keep
    their number, and in supervised mode their values. *)
Theorem backward_pass_frame lr unsupervised target w rho_estimates w' rho' :
  backward_pass lr unsupervised target w rho_estimates = Ok (w', rho') →
  Forall2 same_but_thresholds (layers (network w)) (layers (network w')) ∧
  (∀ l, length (store w' !!! l) = length (store w !!! l)) ∧
  (∀ l, l ∉ weight_refs (network w) → store w' !!! l = store w !!! l) ∧
  length rho' = length rho_estimates ∧
  (unsupervised = false → rho' = rho_estimates).
Proof.
  intros H. destruct (backward_pass_same _ _ _ _ _ _ _ H) as [Hsame' Hlens'].
  split; [exact Hsame'|]. split; [exact Hlens'|]. clear Hsame' Hlens'.
  unfold backward_pass in H. inv_Ok. subst w' rho'. simpl.
  destruct (backward_layers_same _ _ _ _ _ _ Hstep) as (ls' & Hdone & Hsame & Hrho).
  destruct (backward_layers_shape _ _ _ _ _ _ Hstep) as (_ & Hlen & Hlens).
  simpl in *. subst. repeat split; try done.
  intros l Hl. rewrite (backward_layers_frame _ _ _ _ _ _ _ Hstep); [done|].
  intros (layer & Hin & Hlayer)%list_elem_of_bind.
  rewrite elem_of_reverse in Hlayer. apply Hl. unfold weight_refs.
  apply list_elem_of_bind. by exists layer.
Qed.

Lemma backward_pass_frame_witness :
  let w := primed (two_layer Logistic) two_layer_examples in
  ∃ w' rho',
    backward_pass 0.5 true [1%float] w [0; 0]%float = Ok (w', rho') ∧
    Forall2 same_but_thresholds (layers (network w)) (layers (network w')) ∧
    length rho' = 2.
Proof.
  intros w.
  destruct (returned_Ok (backward_pass 0.5 true [1%float] w [0; 0]%float)) as [[w' rho'] Hr].
  { vm_compute. reflexivity. }
  exists w', rho'. split; [exact Hr|].
  destruct (backward_pass_frame _ _ _ _ _ _ _ Hr) as (Hsame & _ & _ & Hlen & _).
  split; [exact Hsame|exact Hlen].
Defined.

Lemma same_but_thresholds_skeleton ls ls' :
  Forall2 same_but_thresholds ls ls' →
  (λ layer, (activation_function layer, weights <$> neurons layer)) <$> ls'
  = (λ layer, (activation_function layer, weights <$> neurons layer)) <$> ls.
Proof.
  induction 1 as [|l l' ls ls' [Hact Hns] _ IH]; [done|].
  rewrite !fmap_cons, IH, Hact. do 2 f_equal.
  clear -Hns. induction Hns as [|n n' ns ns' (Hw & _) _ IHns]; [done|].
  by rewrite !fmap_cons, IHns, Hw.
Qed.

Lemma same_skeleton_trans w1 w2 w3 :
  same_skeleton w1 w2 → same_skeleton w2 w3 → same_skeleton w1 w3.
Proof.
  intros [Hs1 Hl1] [Hs2 Hl2]. split; [by rewrite Hs2|].
  intros l. by rewrite Hl2.
Qed.

Section TrainSkeleton.
Variable compute_network_output : world → list float → result world.
Hypothesis forward_skeleton : ∀ w x w',
  compute_network_output w x = Ok w' → same_skeleton w w'.
Variables (lr : float) (unsupervised : bool).

Lemma train_example_skeleton st training_example st' :
  train_example compute_network_output lr unsupervised st training_example = Ok st' →
  same_skeleton st.1 st'.1.
Proof using forward_skeleton.
  unfold train_example. intros (w1 & Hfwd%outside_Ok & H)%bind_Ok.
  destruct st' as [w' rho'].
  apply (same_skeleton_trans _ w1); [by eapply forward_skeleton|].
  apply backward_pass_same in H as (Hsame & Hlen). simpl.
  split; [|done]. by apply same_but_thresholds_skeleton.
Qed.

Lemma train_examples_skeleton training_examples :
  ∀ st st',
    train_examples compute_network_output lr unsupervised training_examples st = Ok st' →
    same_skeleton st.1 st'.1.
Proof using forward_skeleton.
  induction training_examples as [|ex exs IH]; intros st st' H; simpl in H.
  - by injection H as <-.
  - inv_Ok. eapply same_skeleton_trans; [by eapply train_example_skeleton|by apply IH].
Qed.

Lemma train_iterations_skeleton training_examples n :
  ∀ st st',
    train_iterations compute_network_output lr unsupervised training_examples n st
    = Ok st' →
    same_skeleton st.1 st'.1.
Proof using forward_skeleton.
  induction n as [|n IH]; intros st st' H; simpl in H.
  - by injection H as <-.
  - inv_Ok. eapply same_skeleton_trans; [by eapply train_examples_skeleton|by apply IH].
Qed.
End TrainSkeleton.

(** X6.  [train] keeps the skeleton of the network when the forward pass
    does: the trained network has the same layers with the same activation
    functions, the same weight list for every neuron and weight lists of the
    same lengths; the trainer keeps its learning rate and momentum
    coefficient. *)
Theorem train_keeps_skeleton compute_network_output self w training_examples n
    unsupervised self' w' :
  (∀ w x w', compute_network_output w x = Ok w' → same_skeleton w w') →
  train compute_network_output self w training_examples n unsupervised = Ok (self', w') →
  same_skeleton w w' ∧
  learning_rate self' = learning_rate self ∧ momentum_coef self' = momentum_coef self.
Proof.
  intros Hfwd Htrain. unfold train in Htrain. inv_Ok.
  destruct a0 as [w1 rho1]. inv_Ok. subst self' w'. split; [|done].
  by apply (train_iterations_skeleton _ Hfwd _ _ _ _ _ _ Hstep0).
Qed.

Lemma compute_outputs_refs (h : heap) act input_vector ns :
  ∀ ns', compute_outputs h act input_vector ns = Ok ns' →
    weights <$> ns' = weights <$> ns.
Proof.
  induction ns as [|n ns IH]; intros ns' H; simpl in H.
  - by injection H as <-.
  - inv_Ok. subst ns'. simpl. unfold compute_output in Hstep. inv_Ok. subst a.
    simpl. f_equal. by apply IH.
Qed.

Lemma forward_pass_skeleton w input_vector w' :
  forward_pass w input_vector = Ok w' → same_skeleton w w'.
Proof.
  unfold forward_pass. intros H. inv_Ok. subst w'. split; [|done].
  unfold skeleton. simpl. revert input_vector a Hstep.
  induction (layers (network w)) as [|layer ls IH]; intros x ls' H; simpl in H.
  - by injection H as <-.
  - inv_Ok. subst ls'. simpl. f_equal.
    + f_equal. by eapply compute_outputs_refs.
    + by eapply IH.
Qed.

Lemma train_keeps_skeleton_witness :
  ∃ self' w',
    train forward_pass trainer0 (two_layer Logistic) two_layer_examples 2 true
      = Ok (self', w') ∧
    same_skeleton (two_layer Logistic) w'.
Proof.
  destruct (returned_Ok (train forward_pass trainer0 (two_layer Logistic)
                           two_layer_examples 2 true)) as [[self' w'] Hr].
  { vm_compute. reflexivity. }
  exists self', w'. split; [exact Hr|].
  exact (proj1 (train_keeps_skeleton _ _ _ _ _ _ _ _ forward_pass_skeleton Hr)).
Defined.

(** ** When the backward pass returns *)

Lemma sum_value_loop_refs_inv (h : heap) j :
  ∀ nd nw acc r,
    length nw ≤ length nd →
    sum_value_loop h j (zip nd nw) acc = Ok r →
    Forall (λ l, j < length (h !!! l)) nw.
Proof.
  induction nd as [|d nd IH]; intros [|l nw] acc r Hlen H; simpl in *;
    try by constructor.
  { lia. }
  inv_Ok. constructor.
  - by apply lookup_lt_Some in Hstep.
  - eapply IH; [|done]. lia.
Qed.

Section ReturnedShapes.
Variables (lr : float) (unsupervised : bool) (target : list float).

(** A loop over the neurons that returned found a target, the next layer's
    weights and a weight for every input wherever it looked. *)
Lemma train_neurons_Ok_shapes isOut act nld nlw ns :
  length nlw ≤ length nld →
  ∀ j s s',
    train_neurons lr unsupervised isOut act target nld nlw j ns s = Ok s' →
    (isOut = true → ns = [] ∨ j + length ns ≤ length target) ∧
    (isOut = false →
     Forall (λ l, ns = [] ∨ j + length ns ≤ length (cur_store s !!! l)) nlw) ∧
    Forall (λ n, length (inputs n) ≤ length (cur_store s !!! weights n)) ns.
Proof.
  intros Hacc. induction ns as [|n ns IH]; intros j s s' H.
  { split; [by left|]. split; [|by constructor].
    intros _. apply Forall_forall. by left. }
  simpl in H. apply bind_Ok in H as (s1 & Hstep & H).
  apply train_neuron_inv in Hstep as (delta & h' & thr & rho' & Hdelta & Hw & _ & ->).
  apply IH in H as (Hout & Hhid & Hins). simpl in *.
  pose proof (λ l, update_weights_length _ _ _ _ _ _ l Hw) as Hlen.
  apply update_weights_inv in Hw as (Hin & _).
  unfold compute_delta in Hdelta. split; [|split].
  - intros ->. right. specialize (Hout eq_refl).
    assert (j < length target).
    { destruct (String.eqb _ _); inv_Ok; by eapply lookup_lt_Some. }
    destruct Hout as [->|?]; simpl; lia.
  - intros ->. specialize (Hhid eq_refl).
    apply bind_Ok in Hdelta as (sum_value & Hsum & _).
    apply sum_value_loop_refs_inv in Hsum; [|done].
    apply Forall_forall. intros l Hl. right.
    rewrite Forall_forall in Hhid, Hsum.
    specialize (Hhid l Hl). specialize (Hsum l Hl). simpl in *.
    rewrite Hlen in Hhid. destruct Hhid as [->|?]; simpl; lia.
  - constructor; [done|]. eapply Forall_impl; [exact Hins|].
    simpl. intros n'. by rewrite Hlen.
Qed.

Lemma backward_layers_Ok_ready ls :
  ∀ p p',
    length (next_layer_weights p) ≤ length (next_layer_deltas p) →
    backward_layers lr unsupervised target ls p = Ok p' →
    pass_ready target ls p.
Proof.
  induction ls as [|layer ls IH]; intros p p' Hacc H.
  { repeat split; constructor. }
  simpl in H. apply bind_Ok in H as (p1 & Hstep & H).
  apply backward_layer_inv in Hstep as (s & Hs & ->).
  destruct (train_layer_shape _ _ _ _ _ _ _ _ _ _ Hs) as (Hdl & Hrefs & _ & _ & Hlen).
  apply IH in H as (Hins & Hchain & Hhead); simpl in *; [|rewrite Hrefs, length_fmap; lia].
  assert (∀ l, length (pass_store p !!! l) = length (cur_store s !!! l)) as Hlen'.
  { intros l. by rewrite Hlen. }
  apply train_neurons_Ok_shapes in Hs as (Hout & Hhid & Hin); [|done]. simpl in *.
  split; [|split].
  - constructor; [done|].
    eapply Forall_impl; [exact Hins|]. intros l. by apply fits_inputs_lengths.
  - unfold fits_chain in *. destruct ls as [|hid ls]; simpl; [by constructor|].
    constructor.
    + simpl. apply Forall_cons in Hhead as [Hhead _]. rewrite Hrefs in Hhead.
      apply (Forall_fmap weights (λ l, width hid ≤ length (cur_store s !!! l))) in Hhead.
      eapply Forall_impl; [exact Hhead|]. simpl. intros n. by rewrite Hlen.
    + eapply Forall_impl; [exact Hchain|]. intros [nxt hid'].
      by apply fits_next_lengths.
  - constructor; [|by constructor]. unfold width.
    destruct (isOutputLayer p).
    + destruct (Hout eq_refl) as [->|?]; simpl; lia.
    + eapply Forall_impl; [exact (Hhid eq_refl)|]. simpl.
      intros l [->|?]; simpl; lia.
Qed.
End ReturnedShapes.

(** X7.  The backward pass raises nothing exactly when the shapes fit: the
    target vector has an entry for every output neuron, every neuron has a
    weight for each of its inputs, every neuron has a weight for each neuron
    of the layer behind it, and, in unsupervised mode, there is a sparsity
    estimate for every neuron of every non-output layer. *)
Theorem backward_pass_returns_iff lr unsupervised target w rho_estimates :
  is_Ok (backward_pass lr unsupervised target w rho_estimates) ↔
  well_shaped w target ∧
  (unsupervised = true → hidden_fit (length rho_estimates) (widths (network w))).
Proof.
  split.
  - intros [r Hr]. split.
    + unfold backward_pass in Hr. apply bind_Ok in Hr as (p & Hp & _).
      apply backward_layers_Ok_ready in Hp as (Hins & Hchain & Hhead); [|done].
      by repeat split.
    + intros ->. by eapply backward_pass_Ok_fits.
  - intros [Hshape Hfit]. by apply backward_pass_returns.
Qed.

Lemma backward_pass_returns_iff_witness :
  is_Ok (backward_pass 0.5 true [1%float]
           (primed (two_layer Logistic) two_layer_examples) [0; 0]%float) ∧
  ¬ is_Ok (backward_pass 0.5 false []
             (primed (two_layer Logistic) two_layer_examples) []).
Proof.
  split.
  - apply backward_pass_returns_iff. split.
    + apply (bool_decide_unpack _). vm_compute. reflexivity.
    + intros _. apply (bool_decide_unpack _). vm_compute. reflexivity.
  - intros [Hshape _]%backward_pass_returns_iff. revert Hshape.
    apply (bool_decide_unpack _). vm_compute. reflexivity.
Defined.

(** ** What train can raise *)

Section Raises.
Variables (lr : float) (unsupervised : bool) (target : list float).

Lemma train_neuron_pass_error isOut act nld nlw j neuron s e :
  train_neuron lr unsupervised isOut act target nld nlw j neuron s = Raise e →
  pass_error unsupervised e.
Proof.
  unfold train_neuron, pass_error. intros [H|(delta & _ & H)]%bind_Raise.
  { apply compute_delta_Raise in H as [->| ->]; auto. }
  apply bind_Raise in H as [H|(h' & _ & H)].
  { apply update_weights_Raise in H as [-> _]. auto. }
  apply bind_Raise in H as [H|([thr rho'] & _ & H)]; [|done].
  apply update_threshold_Raise in H as ([Hu _]%andb_true_iff & _ & ->). auto.
Qed.

Lemma train_neurons_pass_error isOut act nld nlw ns :
  ∀ j s e,
    train_neurons lr unsupervised isOut act target nld nlw j ns s = Raise e →
    pass_error unsupervised e.
Proof.
  induction ns as [|n ns IH]; intros j s e; simpl; [done|].
  intros [H|(s1 & _ & H)]%bind_Raise.
  - by eapply train_neuron_pass_error.
  - by eapply IH.
Qed.

Lemma backward_layers_pass_error ls :
  ∀ p e,
    backward_layers lr unsupervised target ls p = Raise e → pass_error unsupervised e.
Proof.
  induction ls as [|layer ls IH]; intros p e; simpl; [done|].
  intros [H|(p1 & _ & H)]%bind_Raise.
  - unfold backward_layer in H. apply bind_Raise in H as [H|(s & _ & H)]; [|done].
    by eapply train_neurons_pass_error.
  - by eapply IH.
Qed.

Lemma backward_pass_pass_error w rho_estimates e :
  backward_pass lr unsupervised target w rho_estimates = Raise e →
  pass_error unsupervised e.
Proof.
  unfold backward_pass. intros [H|(p & _ & H)]%bind_Raise; [|done].
  by eapply backward_layers_pass_error.
Qed.
End Raises.

Section TrainRaises.
Variable compute_network_output : world → list float → result world.
Variables (lr : float) (unsupervised : bool).

(** Raised by the backward pass, or come out of the forward pass. *)
Local Abbreviation example_error e :=
  (pass_error unsupervised e ∨ ∃ w x, outside (compute_network_output w x) = Raise e).

Lemma train_examples_raises training_examples :
  ∀ st e,
    train_examples compute_network_output lr unsupervised training_examples st = Raise e →
    example_error e.
Proof.
  induction training_examples as [|ex exs IH]; intros st e; simpl; [done|].
  intros [H|(st1 & _ & H)]%bind_Raise; [|by eapply IH].
  unfold train_example in H. apply bind_Raise in H as [H|(w1 & _ & H)].
  - right. by eexists _, _.
  - left. by eapply backward_pass_pass_error.
Qed.

Lemma train_iterations_raises training_examples n :
  ∀ st e,
    train_iterations compute_network_output lr unsupervised training_examples n st
    = Raise e →
    example_error e.
Proof.
  induction n as [|n IH]; intros st e; simpl; [done|].
  intros [H|(st1 & _ & H)]%bind_Raise; [by eapply train_examples_raises|by eapply IH].
Qed.
End TrainRaises.

(** X8.  What [train] can raise: the [IndexError] of [network.layers[0]]
    (unsupervised mode, no layer); an [IndexError] of one of the four
    subscripts of the backward pass, the one on [rho_estimates] in
    unsupervised mode only; whatever the forward pass raised; or
    [UnboundLocalError] when the count is not positive.  It divides by
    nothing and raises no [OverflowError] of its own. *)
Theorem train_raises compute_network_output self w training_examples n unsupervised e :
  train compute_network_output self w training_examples n unsupervised = Raise e →
  (e = IndexError Layers0 ∧ unsupervised = true ∧ layers (network w) = []) ∨
  pass_error unsupervised e ∨
  (∃ w0 x, outside (compute_network_output w0 x) = Raise e) ∨
  (e = UnboundLocalError ∧ (n ≤ 0)%Z).
Proof.
  unfold train. intros [H|(rho_estimates & _ & H)]%bind_Raise.
  { left. unfold init_rho_estimates in H. destruct unsupervised; [|done].
    apply bind_Raise in H as [H|(l0 & _ & H)]; [|done].
    apply index_Raise in H as [Hlen ->].
    destruct (layers (network w)); [done|simpl in Hlen; lia]. }
  right. apply bind_Raise in H as [H|([w' rho'] & _ & H)].
  { apply train_iterations_raises in H as [H|H]; auto. }
  right. right. apply bind_Raise in H as [H|(c & _ & H)]; [|done].
  unfold last_iteration_counter in H.
  destruct (Z.to_nat n) eqn:Hn; [|done]. injection H as <-. split; [done|lia].
Qed.

Lemma train_raises_witness :
  pass_error true (IndexError RhoEstimates).
Proof.
  destruct (train_raises forward_pass trainer0 (widening Linear) single_examples 1 true
              (IndexError RhoEstimates)) as [(H & _)|[H|[(w0 & x & H)|(H & _)]]].
  - vm_compute. reflexivity.
  - discriminate H.
  - exact H.
  - exfalso. by apply outside_no_rho_error in H.
  - discriminate H.
Defined.

(** ** parallel_train: the chunks *)

Lemma chunks_concat (training_examples : list example) chunk_amount num :
  concat ((λ p, slice training_examples (p * chunk_amount) (p * chunk_amount + chunk_amount))
            <$> seq 0 num)
  = take (num * chunk_amount) training_examples.
Proof.
  induction num as [|num IH]; [done|].
  rewrite seq_S, fmap_app, concat_app, IH. simpl. rewrite app_nil_r.
  unfold slice.
  replace (num * chunk_amount + chunk_amount - num * chunk_amount) with chunk_amount by lia.
  rewrite take_take_drop. f_equal. lia.
Qed.

(** A slice between two non-negative indices. *)
Lemma slice_Z_nonneg {A} (l : list A) (a b : Z) :
  (0 ≤ a)%Z → (0 ≤ b)%Z → slice_Z l a b = slice l (Z.to_nat a) (Z.to_nat b).
Proof.
  intros Ha Hb. unfold slice_Z, slice_index, slice.
  destruct (Z.ltb_spec a 0); [lia|]. destruct (Z.ltb_spec b 0); [lia|].
  destruct (decide (length l ≤ Z.to_nat a)) as [Hlong|Hshort].
  - rewrite !drop_ge by lia. by rewrite !take_nil.
  - replace (Z.to_nat (a `min` Z.of_nat (length l))) with (Z.to_nat a) by lia.
    destruct (decide (Z.to_nat b ≤ length l)).
    + by replace (Z.to_nat (b `min` Z.of_nat (length l))) with (Z.to_nat b) by lia.
    + replace (Z.to_nat (b `min` Z.of_nat (length l))) with (length l) by lia.
      rewrite !take_ge; [done|rewrite length_drop; lia|rewrite length_drop; lia].
Qed.

(** A slice that ends where it starts, or before. *)
Lemma slice_Z_empty {A} (l : list A) (a b : Z) :
  (0 ≤ b)%Z → (b ≤ a)%Z → slice_Z l a b = [].
Proof.
  intros Hb Hab. rewrite slice_Z_nonneg by lia. unfold slice.
  replace (Z.to_nat b - Z.to_nat a) with 0 by lia. done.
Qed.

(** With a negative number of processes the caller's slice is empty. *)
Lemma own_chunk_negative {A} (l : list A) (num : Z) :
  (num < 0)%Z →
  let chunk_amount := Z.quot (Z.of_nat (length l)) num in
  slice_Z l ((num - 1) * chunk_amount) ((num - 1) * chunk_amount + chunk_amount) = [].
Proof.
  intros Hneg chunk_amount.
  assert (chunk_amount ≤ 0)%Z as Hca.
  { subst chunk_amount.
    pose proof (Z.quot_opp_r (Z.of_nat (length l)) (- num)) as Hq.
    rewrite Z.opp_involutive in Hq. rewrite Hq by lia.
    pose proof (Z.quot_pos (Z.of_nat (length l)) (- num)). lia. }
  apply slice_Z_empty; nia.
Qed.

Lemma parallel_train_workers_negative compute_network_output cpu_count arrival w trainer
    (training_examples : list example) n unsupervised num_processes :
  (num_processes < 0)%Z →
  parallel_train_workers compute_network_output cpu_count arrival w trainer
    training_examples n unsupervised (Some num_processes)
  = ('(trainer', w1) ← train compute_network_output trainer w [] n unsupervised;
     Ok (trainer', w1, [])).
Proof.
  intros Hneg. unfold parallel_train_workers.
  assert (effective_processes cpu_count (length training_examples) (Some num_processes)
          = num_processes) as ->.
  { unfold effective_processes. simpl.
    destruct (Z.ltb_spec (Z.of_nat (length training_examples)) num_processes); [lia|done]. }
  destruct (Z.eqb_spec num_processes 0) as [|_]; [lia|].
  cbn [mbind result_bind]. rewrite own_chunk_negative by done.
  replace (Z.to_nat (num_processes - 1)) with 0 by lia.
  cbn [seq fmap list_fmap start_jobs]. unfold _parallel_train_worker.
  destruct (train compute_network_output trainer w [] n unsupervised) as [[t w1]|e]; done.
Qed.

(** X9.  How [parallel_train] splits the examples.  For a number of processes
    other than zero it starts jobs on the chunks [job_chunks], trains the
    network itself on [own_chunk] and then takes one network per job from the
    queue.  The number of processes is never more than the number of
    examples.  When it is positive there is one job per process but the
    caller, every chunk, the caller's included, has exactly
    [chunk_amount >= 1] examples, the chunks in process order are the first
    [num_processes * chunk_amount] examples with none repeated, and the last
    [len mod num_processes] examples are given to no process.  When it is
    negative no job is started and the caller's chunk is empty: no example is
    used. *)
Theorem parallel_train_chunks compute_network_output cpu_count arrival w trainer
    (training_examples : list example) n unsupervised num_processes :
  let num := effective_processes cpu_count (length training_examples) num_processes in
  let chunk_amount := Z.quot (Z.of_nat (length training_examples)) num in
  num ≠ 0%Z →
  ∃ job_chunks own_chunk,
    parallel_train_workers compute_network_output cpu_count arrival w trainer
      training_examples n unsupervised num_processes
    = ('(trainer', w1, results_queue) ←
         _parallel_train_worker compute_network_output w trainer own_chunk n
           (start_jobs compute_network_output w trainer job_chunks n unsupervised [])
           false unsupervised;
       trained_networks ← get_results arrival results_queue (length job_chunks);
       Ok (trainer', w1, trained_networks)) ∧
    (num ≤ Z.of_nat (length training_examples))%Z ∧
    ((0 < num)%Z →
     (1 ≤ chunk_amount)%Z ∧
     Z.of_nat (length job_chunks) = (num - 1)%Z ∧
     Forall (λ chunk, Z.of_nat (length chunk) = chunk_amount) (job_chunks ++ [own_chunk]) ∧
     concat (job_chunks ++ [own_chunk])
     = take (Z.to_nat (num * chunk_amount)) training_examples ∧
     Z.of_nat (length (drop (Z.to_nat (num * chunk_amount)) training_examples))
     = (Z.of_nat (length training_examples) `mod` num)%Z) ∧
    ((num < 0)%Z → job_chunks = [] ∧ own_chunk = []).
Proof.
  intros num chunk_amount Hnum.
  exists ((λ process_num : nat,
             slice_Z training_examples (Z.of_nat process_num * chunk_amount)
               (Z.of_nat process_num * chunk_amount + chunk_amount))
            <$> seq 0 (Z.to_nat (num - 1))),
         (slice_Z training_examples ((num - 1) * chunk_amount)
            ((num - 1) * chunk_amount + chunk_amount)).
  split; [|split; [|split]].
  - unfold parallel_train_workers. fold num.
    destruct (Z.eqb_spec num 0) as [|_]; [done|].
    cbn [mbind result_bind]. fold chunk_amount.
    rewrite length_fmap, length_seq. reflexivity.
  - subst num. unfold effective_processes.
    destruct (Z.ltb_spec (Z.of_nat (length training_examples))
                (default (Z.of_nat cpu_count) num_processes)); lia.
  - intros Hpos.
    assert (num ≤ Z.of_nat (length training_examples))%Z as Hle.
    { subst num. unfold effective_processes.
      destruct (Z.ltb_spec (Z.of_nat (length training_examples))
                  (default (Z.of_nat cpu_count) num_processes)); lia. }
    assert (chunk_amount = Z.of_nat (length training_examples / Z.to_nat num)) as Hca.
    { subst chunk_amount. rewrite Z.quot_div_nonneg by lia.
      rewrite <- (Z2Nat.id num) at 1 by lia. by rewrite <- Nat2Z.inj_div. }
    set (num' := Z.to_nat num) in *.
    set (ca := length training_examples / num') in *.
    pose proof (Nat.Div0.mul_div_le (length training_examples) num') as Hmul.
    fold ca in Hmul.
    assert (1 ≤ ca) as Hca1.
    { apply (Nat.div_str_pos (length training_examples) num'). lia. }
    assert (∀ p, p < num' →
              slice_Z training_examples (Z.of_nat p * chunk_amount)
                (Z.of_nat p * chunk_amount + chunk_amount)
              = slice training_examples (p * ca) (p * ca + ca)) as Hslice.
    { intros p Hp. rewrite slice_Z_nonneg by lia. f_equal; lia. }
    assert (((λ process_num : nat,
                slice_Z training_examples (Z.of_nat process_num * chunk_amount)
                  (Z.of_nat process_num * chunk_amount + chunk_amount))
               <$> seq 0 (Z.to_nat (num - 1)))
            ++ [slice_Z training_examples ((num - 1) * chunk_amount)
                  ((num - 1) * chunk_amount + chunk_amount)]
            = (λ p, slice training_examples (p * ca) (p * ca + ca)) <$> seq 0 num')
      as Hchunks.
    { replace num' with (S (Z.to_nat (num - 1))) by lia.
      rewrite seq_S, fmap_app. simpl. f_equal.
      - apply list_fmap_ext. intros i p Hp%lookup_seq. apply Hslice. lia.
      - f_equal. rewrite <- (Hslice (Z.to_nat (num - 1))) by lia.
        by rewrite Z2Nat.id by lia. }
    split; [lia|]. split; [rewrite length_fmap, length_seq; lia|]. rewrite Hchunks.
    split; [|split].
    + apply Forall_fmap, Forall_forall. intros p Hp%elem_of_seq. simpl.
      unfold slice. rewrite length_take, length_drop.
      assert ((p + 1) * ca ≤ num' * ca) by (apply Nat.mul_le_mono_r; lia). lia.
    + rewrite chunks_concat. f_equal. lia.
    + replace (Z.to_nat (num * chunk_amount)) with (num' * ca) by lia.
      rewrite length_drop, <- (Z2Nat.id num) at 1 by lia. fold num'.
      rewrite <- Nat2Z.inj_mod. f_equal. rewrite Nat.Div0.mod_eq. done.
  - intros Hneg. split.
    + by replace (Z.to_nat (num - 1)) with 0 by lia.
    + by apply own_chunk_negative.
Qed.

Lemma parallel_train_chunks_witness :
  let training_examples :=
    single_examples ++ single_examples ++ single_examples ++ single_examples
      ++ single_examples in
  (∃ job_chunks own_chunk,
     parallel_train_workers forward_pass 8 id (single Linear) trainer0
       training_examples 1 false (Some 2%Z)
     = ('(trainer', w1, results_queue) ←
          _parallel_train_worker forward_pass (single Linear) trainer0 own_chunk 1
            (start_jobs forward_pass (single Linear) trainer0 job_chunks 1 false [])
            false false;
        trained_networks ← get_results id results_queue (length job_chunks);
        Ok (trainer', w1, trained_networks)) ∧
     length job_chunks = 1 ∧
     Forall (λ chunk, length chunk = 2) (job_chunks ++ [own_chunk]) ∧
     concat (job_chunks ++ [own_chunk]) = take 4 training_examples) ∧
  (∃ job_chunks own_chunk,
     parallel_train_workers forward_pass 8 id (single Linear) trainer0
       training_examples 1 false (Some (-2)%Z)
     = ('(trainer', w1, results_queue) ←
          _parallel_train_worker forward_pass (single Linear) trainer0 own_chunk 1
            (start_jobs forward_pass (single Linear) trainer0 job_chunks 1 false [])
            false false;
        trained_networks ← get_results id results_queue (length job_chunks);
        Ok (trainer', w1, trained_networks)) ∧
     job_chunks = [] ∧ own_chunk = []).
Proof.
  intros training_examples. split.
  - destruct (parallel_train_chunks forward_pass 8 id (single Linear) trainer0
                training_examples 1 false (Some 2%Z))
      as (job_chunks & own_chunk & Heq & _ & Hpos & _); [discriminate|].
    destruct (Hpos eq_refl) as (_ & Hlen & Hall & Hconcat & _).
    exists job_chunks, own_chunk. split; [exact Heq|]. split; [|split].
    + apply Nat2Z.inj. exact Hlen.
    + eapply Forall_impl; [exact Hall|]. intros chunk Hc. apply Nat2Z.inj. exact Hc.
    + exact Hconcat.
  - destruct (parallel_train_chunks forward_pass 8 id (single Linear) trainer0
                training_examples 1 false (Some (-2)%Z))
      as (job_chunks & own_chunk & Heq & _ & _ & Hneg); [discriminate|].
    exists job_chunks, own_chunk. split; [exact Heq|]. exact (Hneg eq_refl).
Defined.

(** ** parallel_train: no example, a negative count, a worker that fails *)



(** X16.  [parallel_train] asked for a negative number of processes raises
    nothing of its own: it starts no job, trains the network itself on the
    empty example list, whatever the examples, takes nothing from the queue
    and merges no trained network. *)
Theorem parallel_train_negative compute_network_output cpu_count arrival w trainer
    training_examples n unsupervised num_processes :
  (num_processes < 0)%Z →
  parallel_train compute_network_output cpu_count arrival w trainer training_examples
    n unsupervised (Some num_processes)
  = ('(trainer', w1) ← train compute_network_output trainer w [] n unsupervised;
     w' ← merge w1 [];
     Ok (trainer', w')).
Proof.
  intros Hneg.
  unfold parallel_train. rewrite parallel_train_workers_negative by done.
  destruct (train compute_network_output trainer w [] n unsupervised) as [[t w1]|e]; done.
Qed.

Lemma parallel_train_negative_witness :
  parallel_train forward_pass 4 id (single Linear) trainer0 single_examples 1 false
    (Some (-1)%Z)
  = ('(trainer', w1) ← train forward_pass trainer0 (single Linear) [] 1 false;
     w' ← merge w1 [];
     Ok (trainer', w')).
Proof.
  apply parallel_train_negative. reflexivity.
Defined.

(** X11.  When the caller's own training returns but the [train] of one of
    the started processes raises, that process puts nothing on the queue and
    the caller waits for its network for ever: [parallel_train] never gets
    to the merge. *)
Theorem parallel_train_blocks compute_network_output cpu_count arrival w trainer
    training_examples n unsupervised num_processes (i : nat) e :
  let num := effective_processes cpu_count (length training_examples) num_processes in
  let chunk_amount := Z.quot (Z.of_nat (length training_examples)) num in
  (Z.of_nat i < num - 1)%Z →
  train compute_network_output trainer w
    (slice_Z training_examples (Z.of_nat i * chunk_amount)
       (Z.of_nat i * chunk_amount + chunk_amount))
    n unsupervised = Raise e →
  is_Ok (train compute_network_output trainer w
           (slice_Z training_examples ((num - 1) * chunk_amount)
              ((num - 1) * chunk_amount + chunk_amount)) n unsupervised) →
  parallel_train compute_network_output cpu_count arrival w trainer training_examples
    n unsupervised num_processes = Raise Blocked.
Proof.
  intros num chunk_amount Hi Hfail [[trainer' w1] Hmain].
  unfold parallel_train, parallel_train_workers. fold num.
  destruct (Z.eqb_spec num 0) as [|_]; [lia|].
  cbn [mbind result_bind]. fold chunk_amount.
  unfold _parallel_train_worker at 1. rewrite Hmain.
  cbn [mbind result_bind].
  match goal with
  | |- context [start_jobs _ _ _ ?chunks _ _ _] =>
      destruct (start_jobs_queue compute_network_output w trainer n unsupervised chunks [])
        as (outs & -> & Hlen & Hall)
  end.
  rewrite length_fmap, length_seq in Hlen, Hall. simpl.
  unfold get_results.
  destruct (length outs <? Z.to_nat (num - 1)) eqn:Hlt; [done|].
  apply Nat.ltb_ge in Hlt. exfalso.
  specialize (Hall ltac:(lia)).
  assert (((λ process_num : nat,
              slice_Z training_examples (Z.of_nat process_num * chunk_amount)
                (Z.of_nat process_num * chunk_amount + chunk_amount))
             <$> seq 0 (Z.to_nat (num - 1))) !! i
          = Some (slice_Z training_examples (Z.of_nat i * chunk_amount)
                    (Z.of_nat i * chunk_amount + chunk_amount))) as Hchunk.
  { assert (i < Z.to_nat (num - 1)) as Hi' by lia.
    rewrite list_lookup_fmap.
    by rewrite (proj2 (lookup_seq 0 (Z.to_nat (num - 1)) i i) (conj eq_refl Hi')). }
  destruct (Forall2_lookup_l _ _ _ _ _ Hall Hchunk) as (tn & _ & t & Htn).
  congruence.
Qed.

Lemma parallel_train_blocks_witness :
  parallel_train forward_pass 4 id (single Linear) trainer0
    [ ([], [1%float]); ([0%float], [1%float]) ] 1 false (Some 2%Z)
  = Raise Blocked.
Proof.
  apply (parallel_train_blocks forward_pass 4 id (single Linear) trainer0
           [ ([], [1%float]); ([0%float], [1%float]) ] 1 false (Some 2%Z) 0
           (IndexError TargetOutput)).
  - vm_compute. reflexivity.
  - vm_compute. reflexivity.
  - apply returned_Ok. vm_compute. reflexivity.
Defined.

(** ** parallel_train: the merge *)

Section Merge.
Variable trained_networks : list world.

Lemma gather_length {A} (f : world → result A) tns :
  ∀ xs, gather f tns = Ok xs → length xs = length tns.
Proof.
  induction tns as [|tn tns IH]; intros xs H; simpl in H.
  - by injection H as <-.
  - inv_Ok. subst xs. simpl. f_equal. by apply IH.
Qed.

Lemma gather_cons {A} (f : world → result A) tn tns x xs :
  f tn = Ok x → gather f tns = Ok xs → gather f (tn :: tns) = Ok (x :: xs).
Proof. intros Hx Hxs. cbn [gather]. by rewrite Hx, Hxs. Qed.

Lemma trained_weight_Ok l j ij tn neuron x :
  trained_neuron tn l j = Ok neuron →
  (store tn !!! weights neuron) !! ij = Some x →
  trained_weight l j ij tn = Ok x.
Proof.
  intros Hn Hx. unfold trained_weight. rewrite Hn. simpl. unfold index.
  by rewrite Hx.
Qed.

Lemma weight_sum_loop_inv l j ij tns :
  ∀ acc r,
    weight_sum_loop tns l j ij acc = Ok r →
    ∃ others, gather (trained_weight l j ij) tns = Ok others ∧
              r = foldl (λ acc x, (acc + x)%float) acc others.
Proof.
  induction tns as [|tn tns IH]; intros acc r H; simpl in H.
  - injection H as <-. by exists [].
  - inv_Ok. apply IH in H as (others & Hg & ->).
    exists (a0 :: others). split; [|done].
    apply gather_cons; [|done]. by eapply trained_weight_Ok.
Qed.

Lemma threshold_sum_loop_inv l j tns :
  ∀ acc r,
    threshold_sum_loop tns l j acc = Ok r →
    ∃ others, gather (trained_threshold l j) tns = Ok others ∧
              r = foldl (λ acc x, (acc + x)%float) acc others.
Proof.
  induction tns as [|tn tns IH]; intros acc r H; simpl in H.
  - injection H as <-. by exists [].
  - inv_Ok. apply IH in H as (others & Hg & ->).
    exists (threshold a :: others). split; [|done].
    apply gather_cons; [|done]. unfold trained_threshold. by rewrite Hstep.
Qed.

Lemma py_div_Ok a b r : py_div a b = Ok r → r = (a / b)%float.
Proof. unfold py_div. destruct (b =? 0)%float; [done|]. by intros [= <-]. Qed.

Lemma merge_weights_inv l j ref :
  ∀ n ij (h h' : heap) pre ws,
    h !!! ref = pre ++ ws → length pre = ij → length ws = n →
    merge_weights trained_networks l j ref ij n h = Ok h' →
    ∃ ws',
      h' !!! ref = pre ++ ws' ∧ length ws' = length ws ∧
      (∀ k own, ws !! k = Some own →
         ∃ others, gather (trained_weight l j (ij + k)) trained_networks = Ok others ∧
                   ws' !! k = Some (average own others)) ∧
      ∀ l', l' ≠ ref → h' !!! l' = h !!! l'.
Proof.
  induction n as [|n IH]; intros ij h h' pre ws Hl Hpre Hn H; simpl in H.
  - injection H as <-. destruct ws; [|done]. exists []. repeat split; try done.
  - destruct ws as [|w ws]; [done|]. simpl in Hn.
    apply bind_Ok in H as (weight_sum & Hsum & H).
    apply bind_Ok in H as (w0 & Hw0%index_Ok & H).
    apply bind_Ok in H as (avg & Havg%py_div_Ok & H).
    assert (w0 = w) as ->.
    { rewrite Hl, lookup_app_r in Hw0 by lia.
      replace (ij - length pre) with 0 in Hw0 by lia. by injection Hw0. }
    apply weight_sum_loop_inv in Hsum as (others & Hg & ->).
    pose proof (gather_length _ _ _ Hg) as Hlen.
    assert (avg = average w others) as ->.
    { subst avg. unfold average, float_sum. by rewrite Hlen. }
    eapply (IH (S ij) _ _ (pre ++ [average w others]) ws) in H;
      [| |rewrite length_app; simpl; lia|lia].
    + destruct H as (ws' & Hat & Hlen' & Hall & Hframe).
      exists (average w others :: ws'). rewrite Hat, <- app_assoc. simpl.
      split; [done|]. split; [lia|]. split.
      * intros [|k] own Hk; simpl in *.
        -- injection Hk as <-. rewrite Nat.add_0_r. by exists others.
        -- replace (ij + S k) with (S ij + k) by lia. by apply Hall.
      * intros l' Hne. rewrite Hframe by done. by rewrite lookup_total_insert_ne.
    + rewrite lookup_total_insert_eq, Hl, <- Hpre.
      rewrite insert_app_r_alt by lia. replace (length pre - length pre) with 0 by lia.
      simpl. by rewrite <- app_assoc.
Qed.

Lemma merge_neuron_inv l j neuron (h : heap) neuron' h' :
  merge_neuron trained_networks l j neuron h = Ok (neuron', h') →
  merged_at trained_networks l j neuron h h' neuron' ∧
  ∀ l', l' ≠ weights neuron → h' !!! l' = h !!! l'.
Proof.
  unfold merge_neuron. intros H.
  apply bind_Ok in H as (h1 & Hw & H).
  apply bind_Ok in H as (threshold_sum & Hsum & H).
  apply bind_Ok in H as (thr & Hthr%py_div_Ok & [= <- <-]).
  eapply (merge_weights_inv l j (weights neuron) _ 0 h h1 []) in Hw; [|done..].
  destruct Hw as (ws' & Hat & Hlen & Hall & Hframe). simpl in Hat.
  apply threshold_sum_loop_inv in Hsum as (others & Hg & ->).
  pose proof (gather_length _ _ _ Hg) as Hlen'.
  split; [|done]. split; [|split].
  - exists others. split; [done|]. f_equal. subst thr. unfold average, float_sum.
    by rewrite Hlen'.
  - by rewrite Hat.
  - intros ij own Hown. rewrite Hat. by apply Hall.
Qed.

Lemma merged_at_frame l j neuron (h1 h2 h1' h2' : heap) neuron' :
  h1' !!! weights neuron = h1 !!! weights neuron →
  h2' !!! weights neuron = h2 !!! weights neuron →
  merged_at trained_networks l j neuron h1 h2 neuron' →
  merged_at trained_networks l j neuron h1' h2' neuron'.
Proof. unfold merged_at. by intros -> ->. Qed.

Lemma merge_neurons_inv l ns :
  ∀ j (h : heap) ns' h',
    NoDup (weights <$> ns) →
    merge_neurons trained_networks l j ns h = Ok (ns', h') →
    (∀ i neuron, ns !! i = Some neuron →
       ∃ neuron', ns' !! i = Some neuron' ∧
                  merged_at trained_networks l (j + i) neuron h h' neuron') ∧
    ∀ l', l' ∉ (weights <$> ns) → h' !!! l' = h !!! l'.
Proof.
  induction ns as [|neuron ns IH]; intros j h ns' h' Hnd H; simpl in H.
  - injection H as <- <-. split; [done|done].
  - rewrite fmap_cons in Hnd. apply NoDup_cons in Hnd as [Hnot Hnd].
    apply bind_Ok in H as ([neuron1 h1] & H1 & H).
    apply bind_Ok in H as ([rest h2] & H2 & [= <- <-]).
    apply merge_neuron_inv in H1 as [Hat1 Hframe1].
    apply IH in H2 as [Hrest Hframe2]; [|done].
    split.
    + intros [|i] n Hn; simpl in Hn.
      * injection Hn as <-. exists neuron1. split; [done|].
        rewrite Nat.add_0_r. eapply merged_at_frame; [done| |exact Hat1].
        by apply Hframe2.
      * destruct (Hrest i n Hn) as (n' & Hn' & Hm). exists n'. split; [done|].
        replace (j + S i) with (S j + i) by lia.
        eapply merged_at_frame; [|done|exact Hm].
        symmetry. apply Hframe1. intros Heq. apply Hnot. rewrite <- Heq.
        apply list_elem_of_fmap_2. by eapply list_elem_of_lookup_2.
    + intros l' [Hne Hl']%not_elem_of_cons. by rewrite Hframe2, Hframe1.
Qed.

Lemma merge_layers_inv ls :
  ∀ l (h : heap) ls' h',
    NoDup (ls ≫= λ layer, weights <$> neurons layer) →
    merge_layers trained_networks l ls h = Ok (ls', h') →
    (∀ i layer j neuron,
       ls !! i = Some layer → neurons layer !! j = Some neuron →
       ∃ layer' neuron',
         ls' !! i = Some layer' ∧ neurons layer' !! j = Some neuron' ∧
         activation_function layer' = activation_function layer ∧
         merged_at trained_networks (l + i) j neuron h h' neuron') ∧
    ∀ l', l' ∉ (ls ≫= λ layer, weights <$> neurons layer) → h' !!! l' = h !!! l'.
Proof.
  induction ls as [|layer ls IH]; intros l h ls' h' Hnd H; simpl in H.
  - injection H as <- <-. split; [done|done].
  - rewrite bind_cons in Hnd. apply NoDup_app in Hnd as (Hnd1 & Hdisj & Hnd2).
    apply bind_Ok in H as ([ns1 h1] & H1 & H).
    apply bind_Ok in H as ([rest h2] & H2 & [= <- <-]).
    apply merge_neurons_inv in H1 as [Hat1 Hframe1]; [|done].
    apply IH in H2 as [Hrest Hframe2]; [|done].
    split.
    + intros [|i] la j n Hla Hn; simpl in Hla.
      * injection Hla as <-. destruct (Hat1 j n Hn) as (n' & Hn' & Hm).
        eexists _, n'. split; [done|]. split; [done|]. split; [done|].
        rewrite Nat.add_0_r. eapply merged_at_frame; [done| |exact Hm].
        apply Hframe2. apply Hdisj.
        apply list_elem_of_fmap_2. by eapply list_elem_of_lookup_2.
      * destruct (Hrest i la j n Hla Hn) as (la' & n' & Hla' & Hn' & Haf & Hm).
        exists la', n'. split; [done|]. split; [done|]. split; [done|].
        replace (l + S i) with (S l + i) by lia.
        eapply merged_at_frame; [|done|exact Hm].
        symmetry. apply Hframe1. intros Hin. eapply Hdisj; [exact Hin|].
        apply list_elem_of_bind. exists la. split.
        -- apply list_elem_of_fmap_2. by eapply list_elem_of_lookup_2.
        -- by eapply list_elem_of_lookup_2.
    + intros l' Hl'. rewrite bind_cons in Hl'.
      apply not_elem_of_app in Hl' as [Hl1 Hl2]. by rewrite Hframe2, Hframe1.
Qed.
End Merge.

(** X12 (parallel_train, lines 355-367).  When distinct neurons of the
    master network hold distinct weight lists and the merge returns, every
    neuron keeps its place and its layer's activation function, its threshold
    becomes the master's threshold plus the sum (from [0.0], in the order the
    networks came off the queue) of the trained networks' thresholds at the
    same place, divided by their number plus one, and each of its weights
    becomes the same average of the weights at the same place. *)
Theorem merge_averages (w : world) (trained_networks : list world) (w' : world)
    (l j : nat) (layer : Layer) (neuron : Neuron) :
  owns_weights (network w) →
  merge w trained_networks = Ok w' →
  layers (network w) !! l = Some layer →
  neurons layer !! j = Some neuron →
  ∃ layer' neuron',
    layers (network w') !! l = Some layer' ∧
    neurons layer' !! j = Some neuron' ∧
    activation_function layer' = activation_function layer ∧
    merged_at trained_networks l j neuron (store w) (store w') neuron'.
Proof.
  intros Hown H Hl Hj. unfold merge in H.
  apply bind_Ok in H as ([ls h] & H & [= <-]).
  apply merge_layers_inv in H as [Hat _]; [|exact Hown].
  destruct (Hat l layer j neuron Hl Hj) as (layer' & neuron' & ? & ? & ? & ?).
  by exists layer', neuron'.
Qed.

Lemma merge_averages_witness :
  ∃ w' layer' neuron',
    merge (two_layer Linear) [two_layer Linear; two_layer Linear] = Ok w' ∧
    layers (network w') !! 1 = Some layer' ∧
    neurons layer' !! 0 = Some neuron' ∧
    activation_function layer' = Linear ∧
    merged_at [two_layer Linear; two_layer Linear] 1 0 (fresh_neuron 2 0.1)
      (store (two_layer Linear)) (store w') neuron'.
Proof.
  destruct (returned_Ok (merge (two_layer Linear) [two_layer Linear; two_layer Linear]))
    as [w' Hw'].
  { vm_compute. reflexivity. }
  destruct (merge_averages (two_layer Linear) [two_layer Linear; two_layer Linear] w'
              1 0 {| neurons := [fresh_neuron 2 0.1]; activation_function := Linear |}
              (fresh_neuron 2 0.1))
    as (layer' & neuron' & H1 & H2 & H3 & H4).
  - apply (bool_decide_unpack _). vm_compute. reflexivity.
  - exact Hw'.
  - reflexivity.
  - reflexivity.
  - by exists w', layer', neuron'.
Defined.

Lemma trained_neuron_Raise tn l j e :
  trained_neuron tn l j = Raise e → e = IndexError TrainedNetwork.
Proof.
  unfold trained_neuron. intros [H|(layer & _ & H)]%bind_Raise;
    by apply index_Raise in H as [_ ->].
Qed.

Lemma weight_sum_loop_merge_error l j ij tns e :
  ∀ acc, weight_sum_loop tns l j ij acc = Raise e → e = IndexError TrainedNetwork.
Proof.
  induction tns as [|tn tns IH]; intros acc H; simpl in H; [done|].
  apply bind_Raise in H as [H|(neuron & _ & H)].
  { by apply trained_neuron_Raise in H. }
  apply bind_Raise in H as [H|(x & _ & H)].
  { by apply index_Raise in H as [_ ->]. }
  by eapply IH.
Qed.

Lemma threshold_sum_loop_merge_error l j tns e :
  ∀ acc, threshold_sum_loop tns l j acc = Raise e → e = IndexError TrainedNetwork.
Proof.
  induction tns as [|tn tns IH]; intros acc H; simpl in H; [done|].
  apply bind_Raise in H as [H|(neuron & _ & H)].
  { by apply trained_neuron_Raise in H. }
  by eapply IH.
Qed.

Lemma py_div_Raise a b e :
  py_div a b = Raise e → e = ZeroDivisionError ∧ (b =? 0)%float = true.
Proof. unfold py_div. destruct (b =? 0)%float; [|done]. by intros [= <-]. Qed.

Lemma merge_weights_merge_error tns l j ref e :
  ∀ n ij (h : heap),
    ij + n = length (h !!! ref) →
    merge_weights tns l j ref ij n h = Raise e → merge_error tns e.
Proof.
  induction n as [|n IH]; intros ij h Hn H; simpl in H; [done|].
  apply bind_Raise in H as [H|(weight_sum & _ & H)].
  { left. by eapply weight_sum_loop_merge_error. }
  apply bind_Raise in H as [H|(x & _ & H)].
  { apply index_Raise in H as [Hle _]. lia. }
  apply bind_Raise in H as [H|(avg & _ & H)].
  { right. by eapply py_div_Raise. }
  eapply IH; [|exact H]. rewrite lookup_total_insert_eq, length_insert. lia.
Qed.

Lemma merge_neuron_merge_error tns l j neuron (h : heap) e :
  merge_neuron tns l j neuron h = Raise e → merge_error tns e.
Proof.
  unfold merge_neuron. intros H.
  apply bind_Raise in H as [H|(h1 & _ & H)].
  { eapply merge_weights_merge_error; [|exact H]. done. }
  apply bind_Raise in H as [H|(threshold_sum & _ & H)].
  { left. by eapply threshold_sum_loop_merge_error. }
  apply bind_Raise in H as [H|(thr & _ & H)]; [|done].
  right. by eapply py_div_Raise.
Qed.

Lemma merge_neurons_merge_error tns l ns e :
  ∀ j (h : heap), merge_neurons tns l j ns h = Raise e → merge_error tns e.
Proof.
  induction ns as [|neuron ns IH]; intros j h H; simpl in H; [done|].
  apply bind_Raise in H as [H|([neuron1 h1] & _ & H)].
  { by eapply merge_neuron_merge_error. }
  apply bind_Raise in H as [H|([rest h2] & _ & H)]; [|done].
  by eapply IH.
Qed.

Lemma merge_layers_merge_error tns ls e :
  ∀ l (h : heap), merge_layers tns l ls h = Raise e → merge_error tns e.
Proof.
  induction ls as [|layer ls IH]; intros l h H; simpl in H; [done|].
  apply bind_Raise in H as [H|([ns1 h1] & _ & H)].
  { by eapply merge_neurons_merge_error. }
  apply bind_Raise in H as [H|([rest h2] & _ & H)]; [|done].
  by eapply IH.
Qed.

(** X13 (parallel_train, lines 355-367).  The merge never fails on the master
    network's own layers, neurons or weights, whether or not neurons share
    weight lists: if it raises, then a trained network lacked the layer, the
    neuron or the weight at a place the master network has one (IndexError),
    or the divisor, the number of trained networks plus one as a float, was
    zero. *)
Theorem merge_raises (w : world) (trained_networks : list world) (e : exn) :
  merge w trained_networks = Raise e → merge_error trained_networks e.
Proof.
  unfold merge. intros [H|([ls h] & _ & H)]%bind_Raise; [|done].
  by eapply merge_layers_merge_error.
Qed.

Lemma merge_raises_witness :
  merge (two_layer Linear) [single Linear] = Raise (IndexError TrainedNetwork) ∧
  merge_error [single Linear] (IndexError TrainedNetwork).
Proof.
  assert (merge (two_layer Linear) [single Linear] = Raise (IndexError TrainedNetwork))
    as H by (vm_compute; reflexivity).
  split; [exact H|]. exact (merge_raises _ _ _ H).
Defined.

(** ** LogisticActivationFunction *)

(** X14 (activate, lines 171-182).  The Logistic activation lets no
    [OverflowError] out, whatever [math.exp] does: the one it can get is
    caught and answered with one of the two bounds. *)
Theorem Logistic_activate_no_overflow (math_exp : float → result float) (x : float) :
  Logistic_activate math_exp x ≠ Raise OverflowError.
Proof.
  unfold Logistic_activate. destruct (math_exp (-1.0 * x)%float) as [e|[]]; try done.
  - unfold py_div. by destruct (1 + e =? 0)%float.
  - by destruct (x <? 0)%float.
Qed.

(** X15 (activate and inverse, lines 176 and 198).  [inverse] does not undo
    [activate] on a saturated input: when [math.exp(-x)] is so small that
    adding it to 1 gives 1, [activate] returns exactly [1.0] and [inverse]
    of that divides by [1 - 1.0], raising [ZeroDivisionError] before
    [math.log] is called. *)
Theorem Logistic_inverse_saturated (math_exp math_log : float → result float)
    (x e : float) :
  math_exp (-1.0 * x)%float = Ok e →
  (1 + e)%float = 1%float →
  Logistic_activate math_exp x = Ok 1%float ∧
  Logistic_activate math_exp x ≫= Logistic_inverse math_log = Raise ZeroDivisionError.
Proof.
  intros He Hsat. unfold Logistic_activate. rewrite He, Hsat. split; reflexivity.
Qed.

Lemma Logistic_inverse_saturated_witness :
  let e := from_Ok 1%float (exp_model (-1.0 * 40)%float) in
  exp_model (-1.0 * 40)%float = Ok e ∧ (0 <? e)%float = true ∧
  (1 + e)%float = 1%float ∧
  Logistic_activate exp_model 40%float ≫= Logistic_inverse Ok
  = Raise ZeroDivisionError.
Proof.
  intros e.
  assert (exp_model (-1.0 * 40)%float = Ok e) as He by (vm_compute; reflexivity).
  assert ((1 + e)%float = 1%float) as Hsat by (vm_compute; reflexivity).
  split; [exact He|]. split; [vm_compute; reflexivity|]. split; [exact Hsat|].
  exact (proj2 (Logistic_inverse_saturated exp_model Ok 40 e He Hsat)).
Defined.
